(** * Wound infection-risk backend: feature extraction and risk scoring

    A shallow embedding of [backend/src/ml/features.py],
    [backend/src/ml/scoring.py] and [backend/src/ml/registry.py].

    Python floats are IEEE 754 binary64 values.  They are modelled by the
    Standard Library's [spec_float] with [prec = 53] and [emax = 1024], whose
    operations round to nearest, ties to even, exactly as the hardware does;
    not-a-number, the infinities and the signed zeros are all present.

    The weight table is a [gmap string float]; Python dictionaries that are
    iterated keep their insertion order and are modelled by association
    lists. *)

From Stdlib Require Import ZArith Lia Bool List Ascii String.
From Stdlib Require Import Floats.SpecFloat.
From stdpp Require Import base option list gmap strings pretty.

Local Open Scope string_scope.
Local Open Scope Z_scope.
Local Set Warnings "-register-all".

(* ===================================================================== *)
(** ** Binary64 arithmetic *)
(* ===================================================================== *)

Module B64.

Definition prec : Z := 53.
Definition emax : Z := 1024.

Abbreviation float := spec_float.

Definition fadd : float -> float -> float := SFadd prec emax.
Definition fmul : float -> float -> float := SFmul prec emax.
Definition fdiv : float -> float -> float := SFdiv prec emax.

(** Python's [a < b], [a <= b], [a > b], [a >= b] on floats; each is
    [False] as soon as one side is not-a-number. *)
Definition flt (a b : float) : bool := SFltb a b.
Definition fle (a b : float) : bool := SFleb a b.
Definition fgt (a b : float) : bool := SFltb b a.
Definition fge (a b : float) : bool := SFleb b a.

Definition is_nan (a : float) : bool :=
  match a with S754_nan => true | _ => false end.

Definition is_finite (a : float) : bool :=
  match a with S754_zero _ | S754_finite _ _ _ => true | _ => false end.

(** A well-formed binary64 datum: every value a Python float can hold. *)
Definition valid (a : float) : bool := valid_binary prec emax a.

(** The float nearest to the integer [z] ([float(z)] when it is finite). *)
Definition of_Z (z : Z) : float := binary_normalize prec emax z 0 false.

(** The float nearest to [d * 10^e10], for [d > 0]: what the Python reader
    makes of a decimal literal.  A non-negative exponent gives an integer,
    rounded once; a negative one gives a quotient of two integers, which
    the division rounds once. *)
Definition of_decimal (s : bool) (d : positive) (e10 : Z) : float :=
  match e10 with
  | Zneg k => fdiv (S754_finite s d 0) (S754_finite false (10 ^ k)%positive 0)
  | _ => binary_normalize prec emax
           ((if s then Z.opp else id) (Zpos d * 10 ^ e10)) 0 false
  end.

(** The literals of the source. *)
Definition f0_0 : float := S754_zero false.
Definition f1_0 : float := of_Z 1.
Definition f5_0 : float := of_Z 5.
Definition f0_1 : float := of_decimal false 1 (-1).
Definition f0_2 : float := of_decimal false 2 (-1).
Definition f0_25 : float := of_decimal false 25 (-2).
Definition f0_3 : float := of_decimal false 3 (-1).
Definition f0_33 : float := of_decimal false 33 (-2).
Definition f0_35 : float := of_decimal false 35 (-2).
Definition f0_4 : float := of_decimal false 4 (-1).
Definition f0_47 : float := of_decimal false 47 (-2).
Definition f0_5 : float := of_decimal false 5 (-1).
Definition f0_66 : float := of_decimal false 66 (-2).
Definition f0_8 : float := of_decimal false 8 (-1).
Definition f0_9 : float := of_decimal false 9 (-1).

End B64.

Import B64.

(* ===================================================================== *)
(** ** The Python built-ins the source relies on *)
(* ===================================================================== *)

Module Py.

(** Exceptions that the modelled code can raise. *)
Inductive exn : Type :=
| OSError | YAMLError | AttributeError | TypeError | ValueError
| OverflowError | cv2_error.

Inductive result (A : Type) : Type :=
| Ok (a : A)
| Raise (e : exn).
Arguments Ok {A} a.
Arguments Raise {A} e.

Definition bind {A B} (r : result A) (k : A -> result B) : result B :=
  match r with Ok a => k a | Raise e => Raise e end.

Definition is_ok {A} (r : result A) : bool :=
  match r with Ok _ => true | Raise _ => false end.

(** [max(a, b)]: the first argument is kept unless the second compares
    greater; [min(a, b)] likewise with less. *)
Definition max (a b : float) : float := if fgt b a then b else a.
Definition min (a b : float) : float := if flt b a then b else a.

(** [1.0 if flag else 0.0] *)
Definition float_of_flag (b : bool) : float := if b then f1_0 else f0_0.

(** [int(x)] for a finite float: truncation toward zero.  The other
    floats make [int] raise; they do not arise where the source calls it. *)
Definition int (x : float) : Z :=
  match x with
  | S754_finite s m e =>
      let a := match e with
               | Zneg k => Zpos m / 2 ^ Zpos k
               | _ => Zpos m * 2 ^ e
               end in
      if s then - a else a
  | _ => 0
  end.

(** [sep.join(l)] *)
Fixpoint join (sep : string) (l : list string) : string :=
  match l with
  | [] => ""
  | [x] => x
  | x :: rest => x +:+ sep +:+ join sep rest
  end.

(** [s.replace(a, b)] for single characters. *)
Fixpoint replace_char (a b : ascii) (s : string) : string :=
  match s with
  | EmptyString => EmptyString
  | String c rest =>
      String (if Ascii.eqb c a then b else c) (replace_char a b rest)
  end.

(** [name in names] *)
Definition mem (x : string) (l : list string) : bool :=
  existsb (String.eqb x) l.

(** [d.get(key, default)] for a dictionary written as a literal. *)
Fixpoint dict_get {A} (d : list (string * A)) (key : string) (default : A) : A :=
  match d with
  | [] => default
  | (k, v) :: rest => if String.eqb k key then v else dict_get rest key default
  end.

(** *** [f"{value:.2f}"]

    The exact value [m * 2^e] is scaled by 100 and rounded to the nearest
    integer, ties to even; Python prints the correctly rounded decimal. *)
Definition round_half_even (num den : Z) : Z :=
  let q := num / den in
  let r := num mod den in
  match 2 * r ?= den with
  | Lt => q
  | Gt => q + 1
  | Eq => if Z.even q then q else q + 1
  end.

Definition hundredths (m : positive) (e : Z) : Z :=
  match e with
  | Zneg k => round_half_even (Zpos m * 100) (2 ^ Zpos k)
  | _ => Zpos m * 2 ^ e * 100
  end.

Definition two_digits (n : Z) : string :=
  if n <? 10 then "0" +:+ pretty n else pretty n.

Definition format_2f (x : float) : string :=
  match x with
  | S754_nan => "nan"
  | S754_infinity s => if s then "-inf" else "inf"
  | S754_zero s => if s then "-0.00" else "0.00"
  | S754_finite s m e =>
      let n := hundredths m e in
      (if s then "-" else "") +:+ pretty (n / 100) +:+ "." +:+ two_digits (n mod 100)
  end.

(** *** [float(text)]

    A [str] is a sequence of code points.  [float] first rewrites a text
    that is not pure ASCII: a code point below 127 stays, a blank of the
    interpreter's Unicode database becomes a space, a decimal digit of the
    database becomes the ASCII digit of its value, and any other character
    makes the conversion fail.  Of the rewritten text the ASCII blanks (tab,
    line feed, vertical tab, form feed, carriage return, space) are dropped
    at both ends; what remains is an optional sign followed by [inf],
    [infinity], [nan] (in any case) or a decimal number: digits that may be
    grouped by single underscores, an optional fraction, an optional
    exponent.  Anything else is refused. *)
Definition str : Type := list N.

(** The [str] of an ASCII literal. *)
Definition text (s : string) : str := map N_of_ascii (list_ascii_of_string s).

(** The interpreter's Unicode database, as far as [float] consults it:
    [Py_UNICODE_ISSPACE], and [Py_UNICODE_TODECIMAL], which is negative for
    a character that is no decimal digit. *)
Record Unicode : Type := {
  isspace : N -> bool;
  todecimal : N -> Z
}.

(** The rewriting of a text that is not pure ASCII. *)
Fixpoint transform_chars (u : Unicode) (s : str) : option (list ascii) :=
  match s with
  | [] => Some []
  | ch :: rest =>
      if (ch <? 127)%N then
        option_map (cons (ascii_of_N ch)) (transform_chars u rest)
      else if isspace u ch then
        option_map (cons " "%char) (transform_chars u rest)
      else
        let decimal := todecimal u ch in
        if decimal <? 0 then None
        else option_map (cons (ascii_of_N (48 + Z.to_N decimal)))
               (transform_chars u rest)
  end.

(** A pure ASCII text is taken as it is. *)
Definition to_ascii (u : Unicode) (s : str) : option (list ascii) :=
  if forallb (fun ch => (ch <? 128)%N) s then Some (map ascii_of_N s)
  else transform_chars u s.

Definition is_digit (c : ascii) : bool :=
  let n := nat_of_ascii c in (48 <=? n)%nat && (n <=? 57)%nat.

Definition digit_value (c : ascii) : Z := Z.of_nat (nat_of_ascii c) - 48.

(** [Py_ISSPACE]: the six ASCII blanks. *)
Definition is_space (c : ascii) : bool :=
  let n := nat_of_ascii c in
  ((9 <=? n)%nat && (n <=? 13)%nat) || (n =? 32)%nat.

Definition lower (c : ascii) : ascii :=
  let n := nat_of_ascii c in
  if (65 <=? n)%nat && (n <=? 90)%nat then ascii_of_nat (n + 32) else c.

Fixpoint lstrip (s : list ascii) : list ascii :=
  match s with
  | c :: rest => if is_space c then lstrip rest else s
  | [] => []
  end.

Definition strip (s : list ascii) : list ascii :=
  rev (lstrip (rev (lstrip s))).

(** The digits that continue a digit part, with what follows them. *)
Fixpoint digitpart_rest (s : list ascii) : list ascii * list ascii :=
  match s with
  | c :: r =>
      if is_digit c then
        let '(ds, r') := digitpart_rest r in (c :: ds, r')
      else if Ascii.eqb c "_" then
        match r with
        | d :: r2 =>
            if is_digit d then
              let '(ds, r') := digitpart_rest r2 in (d :: ds, r')
            else ([], s)
        | [] => ([], s)
        end
      else ([], s)
  | [] => ([], [])
  end.

Definition digitpart (s : list ascii) : option (list ascii * list ascii) :=
  match s with
  | c :: r =>
      if is_digit c then
        let '(ds, r') := digitpart_rest r in Some (c :: ds, r')
      else None
  | [] => None
  end.

Definition digits_value (ds : list ascii) : Z :=
  fold_left (fun acc c => 10 * acc + digit_value c) ds 0.

(** Integer digits, fraction digits and the rest of the text. *)
Definition number (s : list ascii)
    : option (list ascii * list ascii * list ascii) :=
  match s with
  | "."%char :: r =>
      match digitpart r with
      | Some (fd, r') => Some ([], fd, r')
      | None => None
      end
  | _ =>
      match digitpart s with
      | Some (id, "."%char :: r) =>
          match digitpart r with
          | Some (fd, r') => Some (id, fd, r')
          | None => Some (id, [], r)
          end
      | Some (id, r) => Some (id, [], r)
      | None => None
      end
  end.

(** The decimal exponent (0 when there is none) and the rest. *)
Definition exponent (s : list ascii) : option (Z * list ascii) :=
  match s with
  | c :: r =>
      if Ascii.eqb (lower c) "e" then
        let '(neg, r1) :=
          match r with
          | "+"%char :: r1 => (false, r1)
          | "-"%char :: r1 => (true, r1)
          | _ => (false, r)
          end in
        match digitpart r1 with
        | Some (ed, r2) =>
            Some (if neg then - digits_value ed else digits_value ed, r2)
        | None => None
        end
      else Some (0, s)
  | [] => Some (0, [])
  end.

(** The reading of the rewritten text. *)
Definition float_of_chars (s : list ascii) : option float :=
  let s := strip s in
  let '(neg, body) :=
    match s with
    | "+"%char :: r => (false, r)
    | "-"%char :: r => (true, r)
    | _ => (false, s)
    end in
  let word := string_of_list_ascii (map lower body) in
  if String.eqb word "inf" || String.eqb word "infinity" then
    Some (S754_infinity neg)
  else if String.eqb word "nan" then Some S754_nan
  else
    match number body with
    | Some (id, fd, r) =>
        match exponent r with
        | Some (e10, []) =>
            match digits_value (id ++ fd)%list with
            | Zpos d => Some (of_decimal neg d (e10 - Z.of_nat (length fd)))
            | _ => Some (S754_zero neg)
            end
        | _ => None
        end
    | None => None
    end.

Definition float_of_string (u : Unicode) (s : str) : option float :=
  match to_ascii u s with
  | Some chars => float_of_chars chars
  | None => None
  end.

(** *** Methods as computations on their object

    A method runs on the object it is called on: it reads the attributes
    of the object, it may leave the object changed, and it may raise. *)
Definition method (S A : Type) : Type := S -> result (A * S).

#[global] Instance method_ret {S} : MRet (method S) :=
  fun A (a : A) self => Ok (a, self).

#[global] Instance method_bind {S} : MBind (method S) :=
  fun A B (k : A -> method S B) (m : method S A) self =>
    match m self with
    | Ok (a, self') => k a self'
    | Raise e => Raise e
    end.

(** [self.attribute], read. *)
Definition attr {S A} (attribute : S -> A) : method S A :=
  fun self => Ok (attribute self, self).

End Py.

(* ===================================================================== *)
(** ** [features.py]: the signal container *)
(* ===================================================================== *)

Record FeatureSignals : Type := {
  periwound_redness : float;
  exudate_proxy : float;
  dark_tissue_proxy : float;
  swelling_proxy : float
}.

(** [FeatureSignals.as_dict]; the list keeps the dictionary's insertion
    order, which is the order [items()] yields. *)
Definition signals_as_dict (s : FeatureSignals) : list (string * float) :=
  [ ("periwound_redness", periwound_redness s);
    ("exudate_proxy", exudate_proxy s);
    ("dark_tissue_proxy", dark_tissue_proxy s);
    ("swelling_proxy", swelling_proxy s) ].

(* ===================================================================== *)
(** ** [scoring.py] *)
(* ===================================================================== *)

Module Scoring.

Record SymptomInputs : Type := {
  reported_pain : bool;
  reported_warmth : bool;
  reported_swelling : bool;
  reported_drainage : bool;
  reported_spreading_redness : bool
}.

(** [SymptomInputs.as_dict] *)
Definition symptoms_as_dict (s : SymptomInputs) : list (string * float) :=
  [ ("reported_pain", Py.float_of_flag (reported_pain s));
    ("reported_warmth", Py.float_of_flag (reported_warmth s));
    ("reported_swelling", Py.float_of_flag (reported_swelling s));
    ("reported_drainage", Py.float_of_flag (reported_drainage s));
    ("reported_spreading_redness",
      Py.float_of_flag (reported_spreading_redness s)) ].

Record SignalDetail : Type := {
  name : string;
  value : float;
  weight : float;
  note : string
}.

Record RiskResult : Type := {
  risk_score : float;
  risk_level : string;
  signals : list SignalDetail;
  explanation : string;
  disclaimer : string;
  recommended_next_steps : list string
}.

(** The scorer instance: its only attribute is the weight table. *)
Record RiskScorer : Type := { weights : gmap string float }.

(** [self.weights.get(key, 0.0)] *)
Definition weights_get (self : RiskScorer) (key : string) : float :=
  default f0_0 (weights self !! key).

(** [_risk_level] *)
Definition _risk_level (score : float) : string :=
  if fge score f0_66 then "high"
  else if fge score f0_33 then "medium"
  else "low".

(** The [notes] dictionary of [_signal_note]. *)
Definition notes : list (string * string) :=
  [ ("periwound_redness",
      "Higher redness near the wound boundary may be associated with irritation.");
    ("exudate_proxy",
      "Yellow/green coloration can be a proxy for exudate-like appearance.");
    ("dark_tissue_proxy",
      "Darker regions may indicate non-viable tissue presence.");
    ("swelling_proxy",
      "Edge sharpness can be a proxy for localized swelling cues.");
    ("reported_pain",
      "Pain or tenderness near the wound can be a reported symptom of irritation.");
    ("reported_warmth",
      "A warm or hot sensation around the wound can indicate inflammation.");
    ("reported_swelling",
      "Swelling around the wound can be a sign of irritation or inflammation.");
    ("reported_drainage",
      "Drainage or pus-like fluid can be a reported sign of infection.");
    ("reported_spreading_redness",
      "Redness spreading beyond the wound may indicate inflammation.") ].

(** [_signal_note] *)
Definition _signal_note (name : string) (value : float) : string :=
  let base := Py.dict_get notes name "Signal observed in the image." in
  base +:+ " Signal intensity: " +:+ Py.format_2f value +:+ ".".

Definition _visual_signal_names : list string :=
  ["periwound_redness"; "exudate_proxy"; "dark_tissue_proxy"; "swelling_proxy"].

Definition _symptom_signal_names : list string :=
  [ "reported_pain"; "reported_warmth"; "reported_swelling";
    "reported_drainage"; "reported_spreading_redness" ].

(** [{detail.name: detail.value for detail in details}]: a later entry
    replaces an earlier one of the same name. *)
Definition signal_map (details : list SignalDetail) : gmap string float :=
  fold_left (fun m d => <[name d := value d]> m) details ∅.

(** [cues.append(text)] under a threshold test on [signal_map.get]. *)
Definition cue_if (m : gmap string float) (key : string) (threshold : float)
    (text : string) (cues : list string) : list string :=
  if fge (default f0_0 (m !! key)) threshold then (cues ++ [text])%list else cues.

(** [_visual_summary] *)
Definition _visual_summary (details : list SignalDetail) : string :=
  let m := signal_map details in
  let cues := cue_if m "periwound_redness" f0_35
                "notable redness around the wound edges" [] in
  let cues := cue_if m "exudate_proxy" f0_25
                "yellow/green drainage or pus-like coloration" cues in
  let cues := cue_if m "dark_tissue_proxy" f0_2
                "darkened tissue inside the wound" cues in
  let cues := cue_if m "swelling_proxy" f0_2
                "edge texture changes consistent with swelling" cues in
  match cues with
  | [] => "No strong visual cues like redness, drainage, or swelling were detected."
  | _ => "Visual cues suggest " +:+ Py.join ", " cues +:+ "."
  end.

Definition symptom_phrases : list (string * string) :=
  [ ("reported_pain", "pain or tenderness");
    ("reported_warmth", "warmth around the wound");
    ("reported_swelling", "swelling");
    ("reported_drainage", "drainage/pus");
    ("reported_spreading_redness", "spreading redness") ].

Definition no_symptoms_sentence : string :=
  "No concerning symptoms were reported in the questionnaire.".

(** [_symptom_summary] *)
Definition _symptom_summary (details : list SignalDetail) : string :=
  match details with
  | [] => no_symptoms_sentence
  | _ =>
      let cues :=
        map (fun d => Py.dict_get symptom_phrases (name d)
                        (Py.replace_char "_" " " (name d))) details in
      "Reported symptoms include " +:+ Py.join ", " cues +:+ "."
  end.

(** [_explanation] *)
Definition _explanation (details : list SignalDetail) (level : string) : string :=
  let visual_details :=
    filter (fun d => Is_true (Py.mem (name d) _visual_signal_names)) details in
  let symptom_details :=
    filter (fun d => Is_true (Py.mem (name d) _symptom_signal_names
                              && fgt (value d) f0_5)) details in
  let visual_summary := _visual_summary visual_details in
  let symptom_summary := _symptom_summary symptom_details in
  "Estimated risk level: " +:+ level +:+ ". " +:+ visual_summary +:+ " "
    +:+ symptom_summary +:+ " "
    +:+ "This is a triage support estimate, not a diagnosis.".

(** [_recommended_steps] *)
Definition _recommended_steps (level : string) : list string :=
  if String.eqb level "high" then
    [ "Consider scheduling a clinical check if symptoms persist or worsen.";
      "Monitor for changes such as increasing redness, swelling, or drainage." ]
  else if String.eqb level "medium" then
    [ "Continue monitoring and recheck if the appearance changes.";
      "Seek clinical advice if you are concerned about progression." ]
  else
    [ "Keep monitoring for noticeable changes over time.";
      "If you have concerns, seek clinical guidance." ].

Definition the_disclaimer : string :=
  "This output is a non-diagnostic risk estimation for triage support only. "
  +:+ "It cannot diagnose infection and should not replace clinical evaluation.".

(** One [for name, value in ....items()] loop of [score]: the running
    [weighted_sum] and the [details] list are the loop's state. *)
Fixpoint score_loop (self : RiskScorer) (items : list (string * float))
    (weighted_sum : float) (details : list SignalDetail)
    : float * list SignalDetail :=
  match items with
  | [] => (weighted_sum, details)
  | (name, value) :: rest =>
      let weight := weights_get self name in
      let weighted_sum := fadd weighted_sum (fmul weight value) in
      let details :=
        (details ++ [ {| name := name; value := value; weight := weight;
                         note := _signal_note name value |} ])%list in
      score_loop self rest weighted_sum details
  end.

(** The value of [weighted_sum] when the two loops are over. *)
Definition accumulate (self : RiskScorer) (signals : FeatureSignals)
    (symptoms : option SymptomInputs) : float * list SignalDetail :=
  let weighted_sum := weights_get self "bias" in
  let '(weighted_sum, details) :=
    score_loop self (signals_as_dict signals) weighted_sum [] in
  match symptoms with
  | Some sy => score_loop self (symptoms_as_dict sy) weighted_sum details
  | None => (weighted_sum, details)
  end.

(** [RiskScorer.score] *)
Definition score (self : RiskScorer) (signals : FeatureSignals)
    (symptoms : option SymptomInputs) : RiskResult :=
  let '(weighted_sum, details) := accumulate self signals symptoms in
  let risk_score := Py.min (Py.max weighted_sum f0_0) f1_0 in
  let risk_level := _risk_level risk_score in
  let explanation := _explanation details risk_level in
  {| risk_score := risk_score;
     risk_level := risk_level;
     signals := details;
     explanation := explanation;
     disclaimer := the_disclaimer;
     recommended_next_steps := _recommended_steps risk_level |}.

(** *** Construction

    [yaml.safe_load] yields one of these values (dates, sets and binary
    blobs are left out).  The keys of a mapping are taken to be strings. *)
Inductive yaml : Type :=
| YNull
| YBool (b : bool)
| YInt (z : Z)
| YFloat (f : float)
| YStr (s : Py.str)
| YSeq (l : list yaml)
| YMap (m : list (string * yaml)).

(** [float(value)] *)
Definition py_float (u : Py.Unicode) (v : yaml) : Py.result float :=
  match v with
  | YNull => Py.Raise Py.TypeError
  | YBool b => Py.Ok (Py.float_of_flag b)
  | YInt z =>
      let f := of_Z z in
      if is_finite f then Py.Ok f else Py.Raise Py.OverflowError
  | YFloat f => Py.Ok f
  | YStr s =>
      match Py.float_of_string u s with
      | Some f => Py.Ok f
      | None => Py.Raise Py.ValueError
      end
  | YSeq _ | YMap _ => Py.Raise Py.TypeError
  end.

(** [{key: float(value) for key, value in data.items()}] *)
Fixpoint convert_items (u : Py.Unicode) (items : list (string * yaml))
    (acc : gmap string float) : Py.result (gmap string float) :=
  match items with
  | [] => Py.Ok acc
  | (key, v) :: rest =>
      Py.bind (py_float u v) (fun f => convert_items u rest (<[key := f]> acc))
  end.

(** [_load_weights]; [opened] is what opening the file and
    [yaml.safe_load] produce: the document, or the exception they raise. *)
Definition _load_weights (u : Py.Unicode) (opened : Py.result yaml)
    : Py.result (gmap string float) :=
  Py.bind opened (fun data =>
    match data with
    | YMap items => convert_items u items ∅
    | _ => Py.Raise Py.AttributeError
    end).

(** [RiskScorer.__init__] *)
Definition __init__ (u : Py.Unicode) (opened : Py.result yaml)
    : Py.result RiskScorer :=
  Py.bind (_load_weights u opened) (fun w => Py.Ok {| weights := w |}).

(** *** [score] as a method call

    The body of [score] as a computation on the scorer object: each
    [self.weights.get] reads the attribute [weights]; [weighted_sum] and
    [details] are local. *)
Fixpoint call_score_loop (items : list (string * float))
    (weighted_sum : float) (details : list SignalDetail)
    : Py.method RiskScorer (float * list SignalDetail) :=
  match items with
  | [] => mret (weighted_sum, details)
  | (name, value) :: rest =>
      table ← Py.attr weights;
      let weight := default f0_0 (table !! name) in
      let weighted_sum := fadd weighted_sum (fmul weight value) in
      let details :=
        (details ++ [ {| name := name; value := value; weight := weight;
                         note := _signal_note name value |} ])%list in
      call_score_loop rest weighted_sum details
  end.

Definition call_score (signals : FeatureSignals)
    (symptoms : option SymptomInputs) : Py.method RiskScorer RiskResult :=
  table ← Py.attr weights;
  let weighted_sum := default f0_0 (table !! "bias") in
  '(weighted_sum, details) ←
    call_score_loop (signals_as_dict signals) weighted_sum [];
  '(weighted_sum, details) ←
    match symptoms with
    | Some sy => call_score_loop (symptoms_as_dict sy) weighted_sum details
    | None => mret (weighted_sum, details)
    end;
  let risk_score := Py.min (Py.max weighted_sum f0_0) f1_0 in
  let risk_level := _risk_level risk_score in
  let explanation := _explanation details risk_level in
  mret {| risk_score := risk_score;
          risk_level := risk_level;
          signals := details;
          explanation := explanation;
          disclaimer := the_disclaimer;
          recommended_next_steps := _recommended_steps risk_level |}.

End Scoring.

(* ===================================================================== *)
(** ** [features.py]: the extractor *)
(* ===================================================================== *)

Module Features.

(** A two-dimensional numpy array, row by row. *)
Definition ndarray (A : Type) : Type := list (list A).

Definition amap {A B} (f : A -> B) (a : ndarray A) : ndarray B :=
  map (map f) a.

Definition azip {A B C} (f : A -> B -> C) (a : ndarray A) (b : ndarray B)
    : ndarray C :=
  zip_with (zip_with f) a b.

(** An image: blue, green and red bytes per pixel. *)
Definition Image : Type := ndarray (Z * Z * Z).

(** [image_bgr.shape[:2]] *)
Definition shape {A} (a : ndarray A) : Z * Z :=
  (Z.of_nat (length a), Z.of_nat (length (hd [] a))).

(** [a[region]]: the cells of [a] where the boolean [region] holds, in
    row-major order.  The arrays that the extractor indexes this way all
    have the height and width of the image. *)
Definition select {A} (region : ndarray bool) (a : ndarray A) : list A :=
  concat (zip_with (fun rr ra =>
    omap (fun '(b, x) => if b : bool then Some x else None) (zip rr ra))
    region a).

(** [region.sum()] *)
Definition count_true (region : ndarray bool) : Z :=
  Z.of_nat (length (List.filter id (concat region))).

(** [cells.mean()] on booleans: numpy adds them up in binary64 and divides
    by the number of cells. *)
Definition mean (cells : list bool) : float :=
  fdiv (of_Z (Z.of_nat (length (List.filter id cells))))
       (of_Z (Z.of_nat (length cells))).

(** [mask.astype(bool)] *)
Definition astype_bool (mask : ndarray Z) : ndarray bool :=
  amap (fun v => negb (v =? 0)) mask.

Definition GC_FGD : Z := 1.
Definition GC_PR_FGD : Z := 3.

(** The OpenCV routines, which are not part of this repository.  [grabCut]
    stands for the call at hand, started from a zero mask with
    [GC_INIT_WITH_RECT]: it yields the labelled mask, or the exception it
    raises.  [otsu_level] is the level that Otsu's method picks for a grey
    image. *)
Record OpenCV : Type := {
  grabCut : Image -> Z * Z * Z * Z -> Z -> Py.result (ndarray Z);
  morphologyEx_close : ndarray Z -> Z -> ndarray Z;
  dilate : ndarray Z -> Z -> ndarray Z;
  erode : ndarray Z -> Z -> ndarray Z;
  cvtColor_BGR2HSV : Image -> ndarray (Z * Z * Z);
  cvtColor_BGR2GRAY : Image -> ndarray Z;
  GaussianBlur : ndarray Z -> Z -> ndarray Z;
  Canny : ndarray Z -> Z -> Z -> ndarray Z;
  otsu_level : ndarray Z -> Z
}.

Section Extractor.

Variable cv : OpenCV.

(** [cv2.threshold(src, 0, 255, THRESH_BINARY + THRESH_OTSU)]: the cells
    above the Otsu level become 255, the others 0. *)
Definition threshold_binary_otsu (src : ndarray Z) : Z * ndarray Z :=
  let t := otsu_level cv src in
  (t, amap (fun v => if v >? t then 255 else 0) src).

(** [_fallback_otsu] *)
Definition _fallback_otsu (image_bgr : Image) : ndarray Z :=
  let gray := cvtColor_BGR2GRAY cv image_bgr in
  let blur := GaussianBlur cv gray 5 in
  let '(_, thresh) := threshold_binary_otsu blur in
  amap (fun v => if v =? 0 then 1 else 0) thresh.

(** The rectangle handed to [grabCut]. *)
Definition rect_of (image_bgr : Image) : Z * Z * Z * Z :=
  let '(height, width) := shape image_bgr in
  (Py.int (fmul (of_Z width) f0_1), Py.int (fmul (of_Z height) f0_1),
   Py.int (fmul (of_Z width) f0_8), Py.int (fmul (of_Z height) f0_8)).

(** [_segment_wound]: the [try] block runs [grabCut]; the handler takes
    [cv2.error] and nothing else. *)
Definition _segment_wound (image_bgr : Image) : Py.result (ndarray Z) :=
  let rect := rect_of image_bgr in
  let attempt :=
    Py.bind (grabCut cv image_bgr rect 5) (fun mask =>
      Py.Ok (amap (fun v =>
               if (v =? GC_FGD) || (v =? GC_PR_FGD) then 1 else 0) mask)) in
  let wound_mask :=
    match attempt with
    | Py.Raise Py.cv2_error => Py.Ok (_fallback_otsu image_bgr)
    | other => other
    end in
  Py.bind wound_mask (fun wound_mask =>
    Py.Ok (morphologyEx_close cv wound_mask 5)).

(** [_periwound_ring]; the subtraction is on unsigned bytes. *)
Definition _periwound_ring (wound_mask : ndarray Z) (ring_width : Z)
    : ndarray Z :=
  let dilated := dilate cv wound_mask ring_width in
  let eroded := erode cv wound_mask ring_width in
  azip (fun d e => Z.min (Z.max ((d - e) mod 256) 0) 1) dilated eroded.

(** The tail shared by the four proxies: 0.0 over an empty region,
    otherwise the mean of the marked cells inside it. *)
Definition region_fraction (marked : ndarray bool) (mask : ndarray Z)
    : float :=
  let region := astype_bool mask in
  if count_true region =? 0 then f0_0
  else mean (select region marked).

(** [_periwound_redness] *)
Definition _periwound_redness (image_bgr : Image) (periwound_mask : ndarray Z)
    : float :=
  let hsv := cvtColor_BGR2HSV cv image_bgr in
  let red_mask :=
    amap (fun '(h, s, _) => ((h <? 10) || (h >? 160)) && (s >? 80)) hsv in
  region_fraction red_mask periwound_mask.

(** [_exudate_proxy] *)
Definition _exudate_proxy (image_bgr : Image) (wound_mask : ndarray Z)
    : float :=
  let hsv := cvtColor_BGR2HSV cv image_bgr in
  let exudate_mask :=
    amap (fun '(h, s, v) =>
            (h >? 20) && (h <? 90) && (s >? 60) && (v >? 80)) hsv in
  region_fraction exudate_mask wound_mask.

(** [_dark_tissue_proxy] *)
Definition _dark_tissue_proxy (image_bgr : Image) (wound_mask : ndarray Z)
    : float :=
  let hsv := cvtColor_BGR2HSV cv image_bgr in
  let dark_mask := amap (fun '(_, _, v) => v <? 40) hsv in
  region_fraction dark_mask wound_mask.

(** [_swelling_proxy] *)
Definition _swelling_proxy (image_bgr : Image) (periwound_mask : ndarray Z)
    : float :=
  let gray := cvtColor_BGR2GRAY cv image_bgr in
  let edges := Canny cv gray 60 120 in
  region_fraction (amap (fun v => v >? 0) edges) periwound_mask.

(** [FeatureExtractor.extract] *)
Definition extract (image_bgr : Image) : Py.result FeatureSignals :=
  Py.bind (_segment_wound image_bgr) (fun wound_mask =>
    let periwound_mask := _periwound_ring wound_mask 18 in
    let redness := _periwound_redness image_bgr periwound_mask in
    let exudate := _exudate_proxy image_bgr wound_mask in
    let dark := _dark_tissue_proxy image_bgr wound_mask in
    let swelling := _swelling_proxy image_bgr periwound_mask in
    Py.Ok {| periwound_redness := redness;
             exudate_proxy := exudate;
             dark_tissue_proxy := dark;
             swelling_proxy := swelling |}).

(** *** [registry.py]

    [HeuristicRiskModel.predict]: the scorer is called with the signals
    alone, so its [symptoms] parameter takes its default, [None]. *)
Definition predict (scorer : Scoring.RiskScorer) (image_bgr : Image)
    : Py.result Scoring.RiskResult :=
  Py.bind (extract image_bgr) (fun signals =>
    Py.Ok (Scoring.score scorer signals None)).

End Extractor.

End Features.

(* ===================================================================== *)
(** ** [registry.py] *)
(* ===================================================================== *)

Module Registry.

(** What a call of [predict] can raise: an exception of the extractor, or
    the stub's [NotImplementedError]. *)
Inductive exn : Type :=
| Builtin (e : Py.exn)
| NotImplementedError.

Inductive result (A : Type) : Type :=
| Ok (a : A)
| Raise (e : exn).
Arguments Ok {A} a.
Arguments Raise {A} e.

Definition lift {A} (r : Py.result A) : result A :=
  match r with
  | Py.Ok a => Ok a
  | Py.Raise e => Raise (Builtin e)
  end.

(** The two classes that satisfy the [RiskModel] protocol.  A heuristic
    model keeps its [weights_path] and the scorer that [__post_init__]
    builds from it; the extractor has no state. *)
Inductive RiskModel : Type :=
| HeuristicRiskModel (weights_path : string) (scorer : Scoring.RiskScorer)
| TorchModelStub (model_path : string).

(** [model.predict(image_bgr)] *)
Definition predict (cv : Features.OpenCV) (model : RiskModel)
    (image_bgr : Features.Image) : result Scoring.RiskResult :=
  match model with
  | HeuristicRiskModel _ scorer => lift (Features.predict cv scorer image_bgr)
  | TorchModelStub _ => Raise NotImplementedError
  end.

(** [load_model]; [files path] is what opening [path] and [yaml.safe_load]
    produce. *)
Definition load_model (u : Py.Unicode)
    (files : string -> Py.result Scoring.yaml)
    (model_name : string) (weights_path : string) (model_path : option string)
    : Py.result RiskModel :=
  if String.eqb model_name "torch" then
    match model_path with
    | None => Py.Raise Py.ValueError
    | Some model_path => Py.Ok (TorchModelStub model_path)
    end
  else
    Py.bind (Scoring.__init__ u (files weights_path)) (fun scorer =>
      Py.Ok (HeuristicRiskModel weights_path scorer)).

End Registry.

(* ===================================================================== *)
(** ** [api/main.py] *)
(* ===================================================================== *)

Module Api.

Definition MAX_FILE_BYTES : Z := 5 * 1024 * 1024.

Definition ALLOWED_MIME_TYPES : list string :=
  ["image/jpeg"; "image/png"; "image/heic"; "image/heif"].

Record Signal : Type := {
  name : string;
  value : float;
  weight : float;
  note : string
}.

Record AssessResponse : Type := {
  risk_score : float;
  risk_level : string;
  signals : list Signal;
  explanation : string;
  disclaimer : string;
  recommended_next_steps : list string
}.

(** How a call of [assess] ends: an [HTTPException] is raised, another
    exception leaves the handler, or the handler returns the [JSONResponse]
    rendered from the given content. *)
Inductive outcome : Type :=
| HTTPException (status_code : Z) (detail : string)
| Unhandled (e : Registry.exn)
| JSONResponse (content : AssessResponse).

(** [file.content_type not in ALLOWED_MIME_TYPES]; the content type of an
    upload can be [None]. *)
Definition not_allowed (content_type : option string) : bool :=
  match content_type with
  | Some t => negb (Py.mem t ALLOWED_MIME_TYPES)
  | None => true
  end.

(** [_decode_image]; [imdecode] stands for [np.frombuffer] followed by
    [cv2.imdecode]: an image, [None], or the exception raised. *)
Definition _decode_image
    (imdecode : list Byte.byte -> Py.result (option Features.Image))
    (contents : list Byte.byte) : option Features.Image :=
  match imdecode contents with
  | Py.Raise _ => None
  | Py.Ok None => None
  | Py.Ok (Some image) => Some image
  end.

(** The [Signal] built from the attributes of a detail. *)
Definition Signal_of (detail : Scoring.SignalDetail) : Signal :=
  {| name := Scoring.name detail;
     value := Scoring.value detail;
     weight := Scoring.weight detail;
     note := Scoring.note detail |}.

Definition AssessResponse_of (result : Scoring.RiskResult) : AssessResponse :=
  {| risk_score := Scoring.risk_score result;
     risk_level := Scoring.risk_level result;
     signals := map Signal_of (Scoring.signals result);
     explanation := Scoring.explanation result;
     disclaimer := Scoring.disclaimer result;
     recommended_next_steps := Scoring.recommended_next_steps result |}.

(** [JSONResponse] renders its content with [json.dumps] under
    [allow_nan=False], which raises [ValueError] at a float that is
    not-a-number or infinite.  The floats of the content are the score and
    the value and weight of each signal. *)
Definition json_compliant (content : AssessResponse) : bool :=
  is_finite (risk_score content) &&
  forallb (fun s => is_finite (value s) && is_finite (weight s))
    (signals content).

(** [assess]; [root] is the directory two levels above the module's. *)
Definition assess (u : Py.Unicode) (cv : Features.OpenCV)
    (imdecode : list Byte.byte -> Py.result (option Features.Image))
    (files : string -> Py.result Scoring.yaml) (root : string)
    (content_type : option string) (contents : list Byte.byte) : outcome :=
  if not_allowed content_type then
    HTTPException 400 "Unsupported file type. Please upload a JPG or PNG image."
  else if Z.of_nat (length contents) >? MAX_FILE_BYTES then
    HTTPException 400 "File too large. Limit is 5MB."
  else
    match _decode_image imdecode contents with
    | None => HTTPException 400 "Unable to decode image."
    | Some image =>
        match Registry.load_model u files "heuristic"
                (root +:+ "/config/weights.yaml") None with
        | Py.Raise e => Unhandled (Registry.Builtin e)
        | Py.Ok model =>
            match Registry.predict cv model image with
            | Registry.Raise e => Unhandled e
            | Registry.Ok result =>
                let content := AssessResponse_of result in
                if json_compliant content then JSONResponse content
                else Unhandled (Registry.Builtin Py.ValueError)
            end
        end
    end.

End Api.

(* ===================================================================== *)
(** ** [utils/network.py] *)
(* ===================================================================== *)

Module Network.

(** A [try] block whose handler is [except OSError: ip = None]. *)
Definition except_OSError (block : Py.result string)
    : Py.result (option string) :=
  match block with
  | Py.Ok ip => Py.Ok (Some ip)
  | Py.Raise Py.OSError => Py.Ok None
  | Py.Raise e => Py.Raise e
  end.

(** [not ip or ip.startswith("127.")] *)
Definition unusable (ip : option string) : bool :=
  match ip with
  | None => true
  | Some s => String.eqb s "" || String.prefix "127." s
  end.

(** [get_lan_ip]; [probe] is the outcome of the datagram socket block,
    [lookup] that of [gethostbyname(gethostname())]. *)
Definition get_lan_ip (probe lookup : Py.result string) : Py.result string :=
  Py.bind (except_OSError probe) (fun ip =>
    Py.bind (if unusable ip then except_OSError lookup else Py.Ok ip)
      (fun ip =>
         Py.Ok match ip with
               | Some s => if String.eqb s "" then "127.0.0.1" else s
               | None => "127.0.0.1"
               end)).

End Network.

(* ===================================================================== *)
(** ** Notions used to state the properties *)
(* ===================================================================== *)

(** The saturation that [score] applies to the weighted sum. *)
Definition clamp (x : float) : float := Py.min (Py.max x f0_0) f1_0.

(** A scorer over a weight table written out as a list. *)
Definition scorer_of (table : list (string * float)) : Scoring.RiskScorer :=
  {| Scoring.weights := list_to_map table |}.

Definition zero_signals : FeatureSignals :=
  {| periwound_redness := f0_0; exudate_proxy := f0_0;
     dark_tissue_proxy := f0_0; swelling_proxy := f0_0 |}.

(** A weight file that says [bias: .nan]. *)
Definition nan_bias_scorer : Scoring.RiskScorer := scorer_of [("bias", S754_nan)].

(** A weight file that says [bias: 5.0]. *)
Definition bias5_scorer : Scoring.RiskScorer := scorer_of [("bias", f5_0)].

(** *** The scoring rule in the words of the specification

    The accumulator starts at the bias and takes [weight(name) * value] for
    each pair in turn; each pair leaves one detail whose note is the
    descriptive text of the signal followed by the value with two decimals. *)
Definition spec_weighted_sum (self : Scoring.RiskScorer)
    (items : list (string * float)) : float :=
  fold_left (fun acc '(n, v) => fadd acc (fmul (Scoring.weights_get self n) v))
    items (Scoring.weights_get self "bias").

Definition descriptive_text (name : string) : string :=
  Py.dict_get Scoring.notes name "Signal observed in the image.".

Definition spec_detail (self : Scoring.RiskScorer) (item : string * float)
    : Scoring.SignalDetail :=
  {| Scoring.name := fst item;
     Scoring.value := snd item;
     Scoring.weight := Scoring.weights_get self (fst item);
     Scoring.note := descriptive_text (fst item) +:+ " Signal intensity: "
                       +:+ Py.format_2f (snd item) +:+ "." |}.

(** The pairs scored for given inputs: the four visual signals, then the
    five symptom flags when a symptom record is supplied. *)
Definition scored_items (sig : FeatureSignals)
    (sym : option Scoring.SymptomInputs) : list (string * float) :=
  (signals_as_dict sig ++
   match sym with Some sy => Scoring.symptoms_as_dict sy | None => [] end)%list.

(** The scenario of the specification. *)
Definition scenario_scorer : Scoring.RiskScorer :=
  scorer_of [ ("bias", f0_0); ("periwound_redness", f0_5);
              ("exudate_proxy", f0_3); ("dark_tissue_proxy", f0_1);
              ("swelling_proxy", f0_1) ].

Definition scenario_signals : FeatureSignals :=
  {| periwound_redness := f0_9; exudate_proxy := f0_1;
     dark_tissue_proxy := f0_1; swelling_proxy := f0_1 |}.

(** The ten keys of the weight table that [score] reads. *)
Definition relevant_keys : list string :=
  ("bias" :: Scoring._visual_signal_names ++ Scoring._symptom_signal_names)%list.

(** Two floats that denote the same number: equal, or both a zero. *)
Definition same_number (a b : float) : Prop :=
  a = b \/ exists s s', a = S754_zero s /\ b = S754_zero s'.

(** A weight table with one more key, which [score] never reads. *)
Definition bias5_extra_scorer : Scoring.RiskScorer :=
  scorer_of [("bias", f5_0); ("unused_key", f1_0)].

(** A YAML scalar that is a number: an integer or a float. *)
Definition is_numeric (v : Scoring.yaml) : bool :=
  match v with
  | Scoring.YInt _ | Scoring.YFloat _ => true
  | _ => false
  end.

(** A fragment of the Unicode database: the blanks, and the Arabic-Indic,
    extended Arabic-Indic, Devanagari and fullwidth digits. *)
Definition basic_unicode : Py.Unicode :=
  {| Py.isspace := fun ch =>
       ((9 <=? ch) && (ch <=? 13) || (28 <=? ch) && (ch <=? 32) ||
        (ch =? 0x85) || (ch =? 0xA0) || (ch =? 0x1680) ||
        (0x2000 <=? ch) && (ch <=? 0x200A) ||
        (ch =? 0x2028) || (ch =? 0x2029) || (ch =? 0x202F) ||
        (ch =? 0x205F) || (ch =? 0x3000))%N;
     Py.todecimal := fun ch =>
       if ((0x660 <=? ch) && (ch <=? 0x669))%N then Z.of_N (ch - 0x660)
       else if ((0x6F0 <=? ch) && (ch <=? 0x6F9))%N then Z.of_N (ch - 0x6F0)
       else if ((0x966 <=? ch) && (ch <=? 0x96F))%N then Z.of_N (ch - 0x966)
       else if ((0xFF10 <=? ch) && (ch <=? 0xFF19))%N then Z.of_N (ch - 0xFF10)
       else -1 |}.

(** A character that [float] takes for a decimal digit: an ASCII digit, or
    a character outside ASCII that the database gives a decimal value. *)
Definition decimal_digit (u : Py.Unicode) (ch : N) : Prop :=
  (48 <= ch <= 57)%N \/ ((127 <= ch)%N /\ 0 <= Py.todecimal u ch).

(** A weight file that says [bias: "0.5"], and one that says [bias: true]. *)
Definition quoted_bias_document : Scoring.yaml :=
  Scoring.YMap [("bias", Scoring.YStr (Py.text "0.5"))].

Definition boolean_bias_document : Scoring.yaml :=
  Scoring.YMap [("bias", Scoring.YBool true)].

(** A weight file that says [bias: high]. *)
Definition word_bias_document : Scoring.yaml :=
  Scoring.YMap [("bias", Scoring.YStr (Py.text "high"))].



(** The signals that [extract] computes once it has the wound mask. *)
Definition signals_over (cv : Features.OpenCV) (image_bgr : Features.Image)
    (wound_mask : Features.ndarray Z) : FeatureSignals :=
  let periwound_mask := Features._periwound_ring cv wound_mask 18 in
  {| periwound_redness := Features._periwound_redness cv image_bgr periwound_mask;
     exudate_proxy := Features._exudate_proxy cv image_bgr wound_mask;
     dark_tissue_proxy := Features._dark_tissue_proxy cv image_bgr wound_mask;
     swelling_proxy := Features._swelling_proxy cv image_bgr periwound_mask |}.

(** [sub] occurs in [s]. *)
Definition contains (sub s : string) : Prop :=
  exists pre post, s = pre +:+ sub +:+ post.

(** Two arrays of the same height and width. *)
Definition same_shape {A B} (a : Features.ndarray A) (b : Features.ndarray B) : Prop :=
  map length a = map length b.

(** The number of cells of an array. *)
Definition ncells {A} (a : Features.ndarray A) : Z := Z.of_nat (length (concat a)).

(** What OpenCV promises about the routines: an output array has the height
    and width of the input array. *)
Record shape_preserving (cv : Features.OpenCV) : Prop := {
  grabCut_shape : forall img rect n mask,
    Features.grabCut cv img rect n = Py.Ok mask -> same_shape mask img;
  close_shape : forall m k, same_shape (Features.morphologyEx_close cv m k) m;
  dilate_shape : forall m k, same_shape (Features.dilate cv m k) m;
  erode_shape : forall m k, same_shape (Features.erode cv m k) m;
  hsv_shape : forall img, same_shape (Features.cvtColor_BGR2HSV cv img) img;
  gray_shape : forall img, same_shape (Features.cvtColor_BGR2GRAY cv img) img;
  blur_shape : forall g k, same_shape (Features.GaussianBlur cv g k) g;
  canny_shape : forall g lo hi, same_shape (Features.Canny cv g lo hi) g
}.

(** [grabCut] signals its failures with [cv2.error]. *)
Definition raises_only_cv2_error (cv : Features.OpenCV) : Prop :=
  forall img rect n e, Features.grabCut cv img rect n = Py.Raise e -> e = Py.cv2_error.

(** A toy instance of the routines, to run the extractor on: [grabCut]
    labels every pixel probable foreground or fails, as asked; the
    morphological routines and the blur return their input; the image is
    read as if it were already in hue, saturation, value order; grey is the
    green byte; no edge is found; the Otsu level is 127. *)
Definition toy_cv (grabcut_fails : bool) : Features.OpenCV :=
  {| Features.grabCut := fun img _ _ =>
       if grabcut_fails then Py.Raise Py.cv2_error
       else Py.Ok (Features.amap (fun _ => Features.GC_PR_FGD) img);
     Features.morphologyEx_close := fun m _ => m;
     Features.dilate := fun m _ => m;
     Features.erode := fun m _ => m;
     Features.cvtColor_BGR2HSV := fun img => img;
     Features.cvtColor_BGR2GRAY := Features.amap (fun '(_, g, _) => g);
     Features.GaussianBlur := fun g _ => g;
     Features.Canny := fun g _ _ => Features.amap (fun _ => 0) g;
     Features.otsu_level := fun _ => 127 |}.

(** A two-by-two image: one dark pixel, one yellow-green one, two red. *)
Definition toy_image : Features.Image :=
  [ [ (0, 0, 10); (40, 200, 200) ]; [ (5, 200, 200); (170, 200, 200) ] ].

(** *** Rounding to binary64, described on integers

    [loc_code] turns the location of a discarded tail into its two leading
    bits; [shifted X k] is the record that [k] right shifts leave of
    [X / 4]; [rne X k] is the integer nearest to [X / 2^k], ties to even;
    [assemble] is the float that the last steps of [binary_round_aux] build
    from a rounded mantissa. *)
Definition loc_code (l : location) : Z :=
  match l with
  | loc_Exact => 0
  | loc_Inexact Lt => 1
  | loc_Inexact Eq => 2
  | loc_Inexact Gt => 3
  end.

Definition shifted (X k : Z) : shr_record :=
  {| shr_m := X / 2 ^ (k + 2);
     shr_r := Z.testbit X (k + 1);
     shr_s := negb (X mod 2 ^ (k + 1) =? 0) |}.

Definition rne (X k : Z) : Z :=
  let q := X / 2 ^ k in
  match 2 * (X mod 2 ^ k) ?= 2 ^ k with
  | Lt => q
  | Gt => q + 1
  | Eq => if Z.even q then q else q + 1
  end.

Definition fin_or_inf (s : bool) (m : positive) (e : Z) : float :=
  if e <=? 971 then S754_finite s m e else S754_infinity s.

Definition assemble (s : bool) (q e : Z) : float :=
  match q with
  | Zpos p => if q =? 2 ^ 53 then fin_or_inf s (2 ^ 52) (e + 1) else fin_or_inf s p e
  | _ => S754_zero s
  end.


(** The value of a finite float, counted in units of 2^-1074, the spacing of
    the smallest floats; and the float nearest to [N] such units. *)
Definition val (x : float) : Z :=
  match x with
  | S754_finite s m e => (if s then -1 else 1) * (Zpos m * 2 ^ (e + 1074))
  | _ => 0
  end.

Definition nearest (N : Z) : float := binary_normalize prec emax N (-1074) false.

(** *** Raising symptom flags

    [flags_le sy sy'] holds when every flag raised in [sy] is raised in
    [sy'].  [no_worse a a'] relates two running sums of valid floats: one of
    them is not-a-number, or the first is at most the second.  [terms] are
    the products that a loop of [score] adds up. *)
Definition flags_le (sy sy' : Scoring.SymptomInputs) : Prop :=
  (Scoring.reported_pain sy = true -> Scoring.reported_pain sy' = true) /\
  (Scoring.reported_warmth sy = true -> Scoring.reported_warmth sy' = true) /\
  (Scoring.reported_swelling sy = true -> Scoring.reported_swelling sy' = true) /\
  (Scoring.reported_drainage sy = true -> Scoring.reported_drainage sy' = true) /\
  (Scoring.reported_spreading_redness sy = true ->
     Scoring.reported_spreading_redness sy' = true).

Definition no_worse (a a' : float) : Prop :=
  valid a = true /\ valid a' = true /\
  (is_nan a = true \/ is_nan a' = true \/ fle a a' = true).

Definition terms (self : Scoring.RiskScorer) (items : list (string * float))
    : list float :=
  map (fun '(n, v) => fmul (Scoring.weights_get self n) v) items.

(** A weight file that says [bias: 0.0] and [reported_drainage: 0.4]. *)
Definition drainage_scorer : Scoring.RiskScorer :=
  scorer_of [("bias", f0_0); ("reported_drainage", f0_4)].

Definition no_symptoms : Scoring.SymptomInputs :=
  Scoring.Build_SymptomInputs false false false false false.

Definition drainage_only : Scoring.SymptomInputs :=
  Scoring.Build_SymptomInputs false false false true false.

(** The symptom record with the flag of the given name raised; the other
    flags stay as they are. *)
Definition raise_flag (flag : string) (sy : Scoring.SymptomInputs)
    : Scoring.SymptomInputs :=
  {| Scoring.reported_pain :=
       Scoring.reported_pain sy || String.eqb flag "reported_pain";
     Scoring.reported_warmth :=
       Scoring.reported_warmth sy || String.eqb flag "reported_warmth";
     Scoring.reported_swelling :=
       Scoring.reported_swelling sy || String.eqb flag "reported_swelling";
     Scoring.reported_drainage :=
       Scoring.reported_drainage sy || String.eqb flag "reported_drainage";
     Scoring.reported_spreading_redness :=
       Scoring.reported_spreading_redness sy
       || String.eqb flag "reported_spreading_redness" |}.

(** *** The two fragments of the explanation

    [visual_cues] are the phrases of the visual signals that reach their
    thresholds; [raised_phrases] are the phrases of the raised flags. *)
Definition visual_cues (sig : FeatureSignals) : list string :=
  ((if fge (periwound_redness sig) f0_35
    then ["notable redness around the wound edges"] else []) ++
   (if fge (exudate_proxy sig) f0_25
    then ["yellow/green drainage or pus-like coloration"] else []) ++
   (if fge (dark_tissue_proxy sig) f0_2
    then ["darkened tissue inside the wound"] else []) ++
   (if fge (swelling_proxy sig) f0_2
    then ["edge texture changes consistent with swelling"] else []))%list.

Definition visual_fragment (sig : FeatureSignals) : string :=
  match visual_cues sig with
  | [] => "No strong visual cues like redness, drainage, or swelling were detected."
  | cues => "Visual cues suggest " +:+ Py.join ", " cues +:+ "."
  end.

Definition raised_phrases (sy : Scoring.SymptomInputs) : list string :=
  ((if Scoring.reported_pain sy then ["pain or tenderness"] else []) ++
   (if Scoring.reported_warmth sy then ["warmth around the wound"] else []) ++
   (if Scoring.reported_swelling sy then ["swelling"] else []) ++
   (if Scoring.reported_drainage sy then ["drainage/pus"] else []) ++
   (if Scoring.reported_spreading_redness sy then ["spreading redness"] else []))%list.

Definition symptom_fragment (sym : option Scoring.SymptomInputs) : string :=
  match sym with
  | None => Scoring.no_symptoms_sentence
  | Some sy =>
      match raised_phrases sy with
      | [] => Scoring.no_symptoms_sentence
      | cues => "Reported symptoms include " +:+ Py.join ", " cues +:+ "."
      end
  end.

(** *** Byte arrays and the ring

    [byte_cells a] holds when every cell of [a] is an unsigned byte;
    [differ] marks with 1 the cells where two arrays differ. *)
Definition byte_cells (a : Features.ndarray Z) : Prop :=
  Forall (Forall (fun v => 0 <= v <= 255)) a.

Definition differ (a b : Features.ndarray Z) : Features.ndarray Z :=
  Features.azip (fun d e => if d =? e then 0 else 1) a b.

(** The routines of [toy_cv], except that [grabCut] raises [e]. *)
Definition failing_cv (e : Py.exn) : Features.OpenCV :=
  {| Features.grabCut := fun _ _ _ => Py.Raise e;
     Features.morphologyEx_close := Features.morphologyEx_close (toy_cv true);
     Features.dilate := Features.dilate (toy_cv true);
     Features.erode := Features.erode (toy_cv true);
     Features.cvtColor_BGR2HSV := Features.cvtColor_BGR2HSV (toy_cv true);
     Features.cvtColor_BGR2GRAY := Features.cvtColor_BGR2GRAY (toy_cv true);
     Features.GaussianBlur := Features.GaussianBlur (toy_cv true);
     Features.Canny := Features.Canny (toy_cv true);
     Features.otsu_level := Features.otsu_level (toy_cv true) |}.

(** Routines whose dilation sets every cell and whose erosion clears every
    cell, as a kernel larger than a mixed mask does. *)
Definition spreading_cv : Features.OpenCV :=
  {| Features.grabCut := Features.grabCut (toy_cv false);
     Features.morphologyEx_close := Features.morphologyEx_close (toy_cv false);
     Features.dilate := fun m _ => Features.amap (fun _ => 1) m;
     Features.erode := fun m _ => Features.amap (fun _ => 0) m;
     Features.cvtColor_BGR2HSV := Features.cvtColor_BGR2HSV (toy_cv false);
     Features.cvtColor_BGR2GRAY := Features.cvtColor_BGR2GRAY (toy_cv false);
     Features.GaussianBlur := Features.GaussianBlur (toy_cv false);
     Features.Canny := Features.Canny (toy_cv false);
     Features.otsu_level := Features.otsu_level (toy_cv false) |}.

(** *** Notions for the registry, the endpoint and the address lookup

    [allowed_type] holds of the four content types that [assess] accepts.
    [toy_files] is a file system whose weight file says [bias: 0.5];
    [no_files] has no readable file; [toy_imdecode] decodes every non-empty
    upload to [toy_image].  [probe_unusable] holds when the socket block
    fails with [OSError] or yields an empty or loopback address. *)
Definition allowed_type (content_type : option string) : Prop :=
  exists t, content_type = Some t /\ In t Api.ALLOWED_MIME_TYPES.

Definition weights_file (root : string) : string := root +:+ "/config/weights.yaml".

Definition toy_files (path : string) : Py.result Scoring.yaml :=
  Py.Ok (Scoring.YMap [("bias", Scoring.YFloat f0_5)]).

Definition no_files (path : string) : Py.result Scoring.yaml :=
  Py.Raise Py.OSError.

(** A file system whose weight file says [bias: .nan]. *)
Definition nan_bias_files (path : string) : Py.result Scoring.yaml :=
  Py.Ok (Scoring.YMap [("bias", Scoring.YFloat S754_nan)]).

Definition toy_imdecode (contents : list Byte.byte)
    : Py.result (option Features.Image) :=
  match contents with
  | [] => Py.Ok None
  | _ => Py.Ok (Some toy_image)
  end.

Definition probe_unusable (probe : Py.result string) : Prop :=
  probe = Py.Raise Py.OSError \/
  exists ip, probe = Py.Ok ip /\ Network.unusable (Some ip) = true.

(** *** The printed intensity

    [d_dd text] holds of the four-character texts 0.00 to 0.99 and 1.00 in
    the shape that [format_2f] gives them; [hundredths_text n] is the text
    for [n] hundredths. *)
Definition hundredths_text (n : Z) : string :=
  pretty (n / 100) +:+ "." +:+ Py.two_digits (n mod 100).

Definition d_dd (text : string) : bool :=
  (String.length text =? 4)%nat &&
  (String.eqb text "1.00" || String.prefix "0." text).
(** A signal as the extractor produces it: positive zero, or a positive
    normal float with an exponent from -105 to -52 (a value in [2^-53, 1]). *)
Definition fraction_float (v : float) : Prop :=
  v = f0_0 \/
  exists p E, v = S754_finite false p E /\
              2 ^ 52 <= Zpos p < 2 ^ 53 /\ -105 <= E <= -52.


(* ===================================================================== *)
(** ** Facts about comparisons of floats *)
(* ===================================================================== *)

Section Comparisons.

Lemma SFcompare_antisym (a b : float) :
  SFcompare a b = option_map CompOpp (SFcompare b a).
Proof.
  destruct a as [sa|sa| |sa ma ea], b as [sb|sb| |sb mb eb]; simpl;
    try (destruct sa); try (destruct sb); try reflexivity;
    rewrite (Z.compare_antisym ea eb);
    destruct (ea ?= eb); simpl; try reflexivity;
    pose proof (Pos.compare_cont_antisym mb ma Eq) as H; simpl in H;
    rewrite <- H; destruct (Pos.compare_cont Eq mb ma); reflexivity.
Qed.

Lemma SFcompare_nan_l (b : float) : SFcompare S754_nan b = None.
Proof. reflexivity. Qed.

Lemma SFcompare_some (a b : float) :
  is_nan a = false -> is_nan b = false -> exists c, SFcompare a b = Some c.
Proof.
  destruct a, b; simpl; intros; try discriminate; eauto.
Qed.

(** [not (b > a)] on numbers means [a >= b], and so on. *)
Lemma not_fgt_fle (a b : float) :
  is_nan a = false -> is_nan b = false -> fgt a b = false -> fle a b = true.
Proof.
  intros Ha Hb. unfold fgt, fle, SFltb, SFleb.
  rewrite (SFcompare_antisym b a).
  destruct (SFcompare_some a b Ha Hb) as [c ->]. destruct c; simpl; congruence.
Qed.

Lemma not_flt_fge (a b : float) :
  is_nan a = false -> is_nan b = false -> flt a b = false -> fge a b = true.
Proof.
  intros Ha Hb. unfold flt, fge, SFltb, SFleb.
  rewrite (SFcompare_antisym b a).
  destruct (SFcompare_some a b Ha Hb) as [c ->]. destruct c; simpl; congruence.
Qed.

Lemma flt_not_fge (a b : float) : flt a b = true -> fge a b = false.
Proof.
  unfold flt, fge, SFltb, SFleb. rewrite (SFcompare_antisym b a).
  destruct (SFcompare a b) as [[]|]; simpl; congruence.
Qed.

Lemma fge_not_flt (a b : float) : fge a b = true -> flt a b = false.
Proof.
  unfold flt, fge, SFltb, SFleb. rewrite (SFcompare_antisym b a).
  destruct (SFcompare a b) as [[]|]; simpl; congruence.
Qed.

Lemma fle_not_nan (a b : float) :
  fle a b = true -> is_nan a = false /\ is_nan b = false.
Proof. destruct a, b; simpl; try discriminate; auto. Qed.

Lemma flt_fle (a b : float) : flt a b = true -> fle a b = true.
Proof.
  unfold flt, fle, SFltb, SFleb. destruct (SFcompare a b) as [[]|]; congruence.
Qed.

End Comparisons.

(* ===================================================================== *)
(** ** The clamp *)
(* ===================================================================== *)

Section Clamp.

Lemma clamp_nan : clamp S754_nan = S754_nan.
Proof. reflexivity. Qed.

Lemma clamp_not_nan (x : float) : is_nan x = false -> is_nan (clamp x) = false.
Proof.
  intros Hx. unfold clamp, Py.min, Py.max.
  destruct (fgt f0_0 x); [ reflexivity | ].
  destruct (flt f1_0 x); [ reflexivity | exact Hx ].
Qed.

Lemma clamp_bounds (x : float) :
  is_nan x = false -> fle f0_0 (clamp x) = true /\ fle (clamp x) f1_0 = true.
Proof.
  intros Hx. unfold clamp, Py.min, Py.max.
  destruct (fgt f0_0 x) eqn:H0.
  - split; reflexivity.
  - destruct (flt f1_0 x) eqn:H1.
    + split; reflexivity.
    + split.
      * apply not_fgt_fle; auto.
      * apply (not_flt_fge f1_0 x); auto.
Qed.

Lemma clamp_in_range_iff (x : float) :
  (fle f0_0 (clamp x) = true /\ fle (clamp x) f1_0 = true) <-> is_nan x = false.
Proof.
  split; [ | apply clamp_bounds ].
  destruct x; simpl; auto. intros [H _]. discriminate H.
Qed.

End Clamp.

(* ===================================================================== *)
(** ** The risk score is the clamped weighted sum (C1) *)
(* ===================================================================== *)

Section ClampedScore.
Import Scoring.

Lemma score_risk_score (self : RiskScorer) (sig : FeatureSignals)
    (sym : option SymptomInputs) :
  risk_score (score self sig sym) = clamp (fst (accumulate self sig sym)).
Proof.
  unfold score. destruct (accumulate self sig sym) as [ws ds]. reflexivity.
Qed.

Lemma score_risk_level (self : RiskScorer) (sig : FeatureSignals)
    (sym : option SymptomInputs) :
  risk_level (score self sig sym) = _risk_level (risk_score (score self sig sym)).
Proof.
  unfold score. destruct (accumulate self sig sym) as [ws ds]. reflexivity.
Qed.

Lemma score_signals (self : RiskScorer) (sig : FeatureSignals)
    (sym : option SymptomInputs) :
  signals (score self sig sym) = snd (accumulate self sig sym).
Proof.
  unfold score. destruct (accumulate self sig sym) as [ws ds]. reflexivity.
Qed.

(** A finite weight times the signal 0.0 is a zero, and adding a zero to
    5.0 leaves 5.0. *)
Lemma fmul_finite_zero (w : float) :
  is_finite w = true -> exists s, fmul w f0_0 = S754_zero s.
Proof. destruct w; simpl; try discriminate; eauto. Qed.

Lemma fadd_five_zero (s : bool) : fadd f5_0 (S754_zero s) = f5_0.
Proof. reflexivity. Qed.

Lemma loop_all_zero (self : RiskScorer) (items : list (string * float))
    (ds : list SignalDetail) :
  Forall (fun '(n, v) => is_finite (weights_get self n) = true /\ v = f0_0) items ->
  fst (score_loop self items f5_0 ds) = f5_0.
Proof.
  revert ds. induction items as [|[n v] rest IH]; intros ds H; [ reflexivity | ].
  inversion H as [|? ? Hhd Hrest]; subst. destruct Hhd as [Hw ->].
  cbn [score_loop].
  destruct (fmul_finite_zero _ Hw) as [s ->]. rewrite fadd_five_zero.
  apply IH, Hrest.
Qed.

Lemma score_loop_app (self : RiskScorer) (l1 l2 : list (string * float))
    (ws : float) (ds : list SignalDetail) :
  score_loop self (l1 ++ l2)%list ws ds =
  let '(ws1, ds1) := score_loop self l1 ws ds in score_loop self l2 ws1 ds1.
Proof.
  revert ws ds. induction l1 as [|[n v] l1 IH]; intros ws ds; simpl.
  - reflexivity.
  - apply IH.
Qed.

End ClampedScore.

(** The pairs that the two loops of [score] go through. *)
Lemma accumulate_items (self : Scoring.RiskScorer) (sig : FeatureSignals)
    (sym : option Scoring.SymptomInputs) :
  Scoring.accumulate self sig sym =
  Scoring.score_loop self
    (signals_as_dict sig ++
     match sym with Some sy => Scoring.symptoms_as_dict sy | None => [] end)%list
    (Scoring.weights_get self "bias") [].
Proof.
  unfold Scoring.accumulate. rewrite score_loop_app.
  destruct (Scoring.score_loop self (signals_as_dict sig) _ _) as [ws ds].
  destruct sym; reflexivity.
Qed.

(** C1, as the code has it.  The risk score returned by [score] is
    [min(max(accumulator, 0.0), 1.0)] for every signal value, every optional
    symptom record and every weight table.  It lies in the closed interval
    from 0.0 to 1.0 exactly when the accumulator is a number; when the
    accumulator is not-a-number, so is the score.  With a bias of 5.0, the
    nine other weights finite and every signal 0.0 (no symptoms, or all
    flags false), the score is exactly 1.0 and the level is "high". *)
Theorem score_is_clamped_sum (self : Scoring.RiskScorer) (sig : FeatureSignals)
    (sym : option Scoring.SymptomInputs) :
  let acc := fst (Scoring.accumulate self sig sym) in
  let r := Scoring.risk_score (Scoring.score self sig sym) in
  r = Py.min (Py.max acc f0_0) f1_0 /\
  ((fle f0_0 r = true /\ fle r f1_0 = true) <-> is_nan acc = false) /\
  (is_nan acc = true -> r = S754_nan) /\
  (Scoring.weights_get self "bias" = f5_0 ->
   Forall (fun n => is_finite (Scoring.weights_get self n) = true)
     (Scoring._visual_signal_names ++ Scoring._symptom_signal_names)%list ->
   sig = {| periwound_redness := f0_0; exudate_proxy := f0_0;
            dark_tissue_proxy := f0_0; swelling_proxy := f0_0 |} ->
   sym = None \/
   sym = Some (Scoring.Build_SymptomInputs false false false false false) ->
   r = f1_0 /\ Scoring.risk_level (Scoring.score self sig sym) = "high").
Proof.
  intros acc r. subst r. rewrite score_risk_score. fold acc.
  split; [ reflexivity | ].
  split; [ apply clamp_in_range_iff | ].
  split.
  - destruct acc; simpl; try discriminate. reflexivity.
  - intros Hb Hw Hsig Hsym.
    assert (Hacc : acc = f5_0).
    { subst acc. rewrite accumulate_items, Hb.
      apply loop_all_zero. subst sig.
      unfold Scoring._visual_signal_names, Scoring._symptom_signal_names in Hw.
      cbn [app] in Hw.
      repeat match goal with
             | H : Forall _ (_ :: _) |- _ => inversion_clear H
             end.
      unfold signals_as_dict, Scoring.symptoms_as_dict.
      destruct Hsym as [-> | ->];
        cbn [app periwound_redness exudate_proxy dark_tissue_proxy
             swelling_proxy Scoring.reported_pain Scoring.reported_warmth
             Scoring.reported_swelling Scoring.reported_drainage
             Scoring.reported_spreading_redness Py.float_of_flag];
        repeat (apply Forall_cons; split; [ split; [ assumption | reflexivity ] | ]);
        constructor. }
    rewrite score_risk_level, score_risk_score. fold acc. rewrite Hacc.
    split; reflexivity.
Qed.

Lemma score_is_clamped_sum_witness :
  Scoring.risk_score (Scoring.score bias5_scorer zero_signals None) = f1_0 /\
  Scoring.risk_level (Scoring.score bias5_scorer zero_signals None) = "high".
Proof.
  apply (score_is_clamped_sum bias5_scorer zero_signals None).
  - vm_compute. reflexivity.
  - repeat constructor.
  - reflexivity.
  - left. reflexivity.
Defined.

(** C1 as stated fails: with the weight table [{bias: nan}] and all signals
    0.0 the risk score is not-a-number, which is neither at least 0.0 nor at
    most 1.0. *)
Lemma score_nan_bias_out_of_range :
  let r := Scoring.risk_score (Scoring.score nan_bias_scorer zero_signals None) in
  r = S754_nan /\ ~ (fle f0_0 r = true /\ fle r f1_0 = true).
Proof.
  vm_compute. split; [ reflexivity | ]. intros [H _]. discriminate H.
Qed.

(* ===================================================================== *)
(** ** The threshold law of the risk level (C2) *)
(* ===================================================================== *)

Section Thresholds.

Lemma f0_33_eq : f0_33 = S754_finite false 5944751508129055 (-54).
Proof. vm_compute. reflexivity. Qed.

Lemma f0_66_eq : f0_66 = S754_finite false 5944751508129055 (-53).
Proof. vm_compute. reflexivity. Qed.

Lemma not_fge_flt (a b : float) :
  is_nan a = false -> is_nan b = false -> fge a b = false -> flt a b = true.
Proof.
  intros Ha Hb. unfold flt, fge, SFltb, SFleb.
  rewrite (SFcompare_antisym b a).
  destruct (SFcompare_some a b Ha Hb) as [c ->]. destruct c; simpl; congruence.
Qed.

(** At least 0.66 is at least 0.33. *)
Lemma fge_0_66_0_33 (s : float) : fge s f0_66 = true -> fge s f0_33 = true.
Proof.
  unfold fge, SFleb. rewrite f0_66_eq, f0_33_eq.
  destruct s as [sg|sg| |sg m e]; cbn -[Z.compare]; try (destruct sg);
    try discriminate; auto.
  destruct (Z.compare_spec (-53) e), (Z.compare_spec (-54) e);
    try lia; try discriminate; auto.
Qed.

Lemma string_neq_high_low : "high" <> "low".
Proof. discriminate. Qed.

End Thresholds.

(** C2.  On a score between 0.0 and 1.0 the level is "low" exactly below
    0.33, "medium" exactly from 0.33 up to but not including 0.66, and "high"
    exactly from 0.66 on; the two boundary values 0.33 and 0.66 are "medium"
    and "high". *)
Theorem risk_level_threshold_law (s : float) :
  fle f0_0 s = true -> fle s f1_0 = true ->
  (Scoring._risk_level s = "low" <-> flt s f0_33 = true) /\
  (Scoring._risk_level s = "medium" <->
     fle f0_33 s = true /\ flt s f0_66 = true) /\
  (Scoring._risk_level s = "high" <-> fle f0_66 s = true) /\
  Scoring._risk_level f0_33 = "medium" /\
  Scoring._risk_level f0_66 = "high".
Proof.
  intros H0 _. destruct (fle_not_nan _ _ H0) as [_ Hs].
  assert (N33 : is_nan f0_33 = false) by reflexivity.
  assert (N66 : is_nan f0_66 = false) by reflexivity.
  unfold Scoring._risk_level.
  change (fle f0_33 s) with (fge s f0_33). change (fle f0_66 s) with (fge s f0_66).
  destruct (fge s f0_66) eqn:H66.
  - pose proof (fge_0_66_0_33 s H66) as H33.
    pose proof (fge_not_flt _ _ H33) as L33.
    pose proof (fge_not_flt _ _ H66) as L66.
    rewrite L33, L66.
    repeat split; try reflexivity; try discriminate; intros; try tauto;
      try (destruct H; discriminate).
  - pose proof (not_fge_flt s f0_66 Hs N66 H66) as L66. rewrite L66.
    destruct (fge s f0_33) eqn:H33.
    + pose proof (fge_not_flt _ _ H33) as L33. rewrite L33.
      repeat split; try reflexivity; try discriminate; intros; try tauto.
    + pose proof (not_fge_flt s f0_33 Hs N33 H33) as L33. rewrite L33.
      repeat split; try reflexivity; try discriminate; intros; try tauto;
        try (destruct H; discriminate).
Qed.

Lemma risk_level_threshold_law_witness :
  (Scoring._risk_level f0_5 = "low" <-> flt f0_5 f0_33 = true) /\
  (Scoring._risk_level f0_5 = "medium" <->
     fle f0_33 f0_5 = true /\ flt f0_5 f0_66 = true) /\
  (Scoring._risk_level f0_5 = "high" <-> fle f0_66 f0_5 = true) /\
  Scoring._risk_level f0_33 = "medium" /\
  Scoring._risk_level f0_66 = "high".
Proof.
  apply (risk_level_threshold_law f0_5); vm_compute; reflexivity.
Defined.

(* ===================================================================== *)
(** ** The accumulation and the signal details (C3) *)
(* ===================================================================== *)

Section Accumulation.
Import Scoring.

Lemma score_loop_spec (self : RiskScorer) (items : list (string * float))
    (ws : float) (ds : list SignalDetail) :
  score_loop self items ws ds =
  (fold_left (fun acc '(n, v) => fadd acc (fmul (weights_get self n) v)) items ws,
   (ds ++ map (spec_detail self) items)%list).
Proof.
  revert ws ds. induction items as [|[n v] rest IH]; intros ws ds.
  - cbn [score_loop fold_left map]. rewrite app_nil_r. reflexivity.
  - cbn [score_loop fold_left map]. rewrite IH.
    rewrite <- app_assoc. reflexivity.
Qed.

Lemma accumulate_spec (self : RiskScorer) (sig : FeatureSignals)
    (sym : option SymptomInputs) :
  accumulate self sig sym =
  (spec_weighted_sum self (scored_items sig sym),
   map (spec_detail self) (scored_items sig sym)).
Proof.
  rewrite accumulate_items, score_loop_spec. reflexivity.
Qed.

End Accumulation.

(** C3, as the code has it.  [score] starts the accumulator at the bias (0.0
    when the table has none), adds [weight(name) * value] for the four visual
    signals in their declaration order and, only when symptoms are supplied,
    for the five symptom flags in theirs; every pair leaves a detail whose
    note is the signal's descriptive text followed by the value formatted
    with two decimals.  In the scenario of signals (0.9, 0.1, 0.1, 0.1), no
    symptoms and weights 0.0, 0.5, 0.3, 0.1, 0.1 the score is exactly 0.5 and
    the level is "medium". *)
Theorem score_accumulates_in_order (self : Scoring.RiskScorer)
    (sig : FeatureSignals) (sym : option Scoring.SymptomInputs) :
  let items := scored_items sig sym in
  (Scoring.weights self !! "bias" = None ->
     spec_weighted_sum self [] = f0_0) /\
  map fst (signals_as_dict sig) = Scoring._visual_signal_names /\
  (forall sy, sym = Some sy ->
     map fst items =
     (Scoring._visual_signal_names ++ Scoring._symptom_signal_names)%list) /\
  (sym = None -> map fst items = Scoring._visual_signal_names) /\
  Scoring.risk_score (Scoring.score self sig sym) =
    Py.min (Py.max (spec_weighted_sum self items) f0_0) f1_0 /\
  Scoring.signals (Scoring.score self sig sym) = map (spec_detail self) items /\
  Scoring.risk_score (Scoring.score scenario_scorer scenario_signals None) = f0_5 /\
  Scoring.risk_level (Scoring.score scenario_scorer scenario_signals None) = "medium".
Proof.
  intros items. subst items.
  split; [ | split; [ | split; [ | split; [ | split; [ | split; [ | split ]]]]]].
  - intros Hb. unfold spec_weighted_sum, Scoring.weights_get. cbn [fold_left].
    rewrite Hb. reflexivity.
  - reflexivity.
  - intros sy ->. reflexivity.
  - intros ->. reflexivity.
  - rewrite score_risk_score, accumulate_spec. reflexivity.
  - rewrite score_signals, accumulate_spec. reflexivity.
  - vm_compute. reflexivity.
  - vm_compute. reflexivity.
Qed.

Lemma score_accumulates_in_order_witness :
  map fst (scored_items scenario_signals None) = Scoring._visual_signal_names.
Proof.
  apply (score_accumulates_in_order scenario_scorer scenario_signals None).
  reflexivity.
Defined.

(** C3 as stated fails: in the scenario the products are 0.45, 0.03, 0.01 and
    0.01, whose sum is 0.5; the score is not 0.47. *)
Lemma scenario_score_is_not_0_47 :
  Scoring.risk_score (Scoring.score scenario_scorer scenario_signals None) <> f0_47 /\
  Py.format_2f
    (Scoring.risk_score (Scoring.score scenario_scorer scenario_signals None)) = "0.50".
Proof.
  split; [ vm_compute; discriminate | vm_compute; reflexivity ].
Qed.

(* ===================================================================== *)
(** ** Determinism (C6) *)
(* ===================================================================== *)

Section MethodCall.
Import Scoring.

Lemma call_score_loop_spec (items : list (string * float)) (ws : float)
    (ds : list SignalDetail) (self : RiskScorer) :
  call_score_loop items ws ds self = Py.Ok (score_loop self items ws ds, self).
Proof.
  revert ws ds. induction items as [|[n v] rest IH]; intros ws ds.
  - reflexivity.
  - cbn [call_score_loop score_loop].
    unfold mbind, Py.method_bind, Py.attr. cbv zeta. apply IH.
Qed.

(** A call of [score] returns, with what the function [score] gives for the
    scorer as it is, and leaves the scorer as it is. *)
Lemma call_score_spec (sig : FeatureSignals) (sym : option SymptomInputs)
    (self : RiskScorer) :
  call_score sig sym self = Py.Ok (score self sig sym, self).
Proof.
  unfold call_score, score, accumulate, weights_get.
  unfold mbind, Py.method_bind, Py.attr. cbv zeta.
  rewrite call_score_loop_spec.
  destruct (score_loop self (signals_as_dict sig) _ []) as [ws ds].
  destruct sym as [sy|].
  - rewrite call_score_loop_spec.
    destruct (score_loop self (symptoms_as_dict sy) ws ds) as [ws' ds'].
    reflexivity.
  - reflexivity.
Qed.


End MethodCall.


(* ===================================================================== *)
(** ** The weight table is read at ten keys only (C7) *)
(* ===================================================================== *)

Section WeightKeys.
Import Scoring.

Lemma score_loop_agree (s1 s2 : RiskScorer) (items : list (string * float))
    (ws : float) (ds : list SignalDetail) :
  Forall (fun k => weights_get s1 k = weights_get s2 k) (map fst items) ->
  score_loop s1 items ws ds = score_loop s2 items ws ds.
Proof.
  revert ws ds. induction items as [|[n v] rest IH]; intros ws ds H.
  - reflexivity.
  - cbn [map fst] in H. inversion_clear H as [|? ? Hn Hrest].
    cbn [score_loop]. rewrite Hn. apply IH, Hrest.
Qed.

Lemma scored_items_keys (sig : FeatureSignals) (sym : option SymptomInputs) :
  forall k, k ∈ map fst (scored_items sig sym) -> k ∈ relevant_keys.
Proof.
  intros k. unfold relevant_keys, scored_items.
  unfold _symptom_signal_names.
  destruct sym as [sy|]; cbn; rewrite !elem_of_cons, !elem_of_nil; tauto.
Qed.

Lemma score_agree (s1 s2 : RiskScorer) (sig : FeatureSignals)
    (sym : option SymptomInputs) :
  Forall (fun k => weights_get s1 k = weights_get s2 k) relevant_keys ->
  score s1 sig sym = score s2 sig sym.
Proof.
  intros H. unfold score. rewrite !accumulate_items.
  assert (Hb : weights_get s1 "bias" = weights_get s2 "bias").
  { rewrite Forall_forall in H. apply H. unfold relevant_keys. set_solver. }
  rewrite Hb.
  rewrite (score_loop_agree s1 s2); [ reflexivity | ].
  rewrite Forall_forall in H. apply Forall_forall. intros k Hk.
  apply H. eapply scored_items_keys, Hk.
Qed.

Lemma zero_weight_adds_nothing (v acc : float) :
  is_finite v = true -> same_number (fadd acc (fmul f0_0 v)) acc.
Proof.
  unfold same_number.
  destruct v as [sv|sv| |sv mv ev]; try discriminate; intros _;
    destruct acc as [sa|sa| |sa ma ea]; cbn; try (left; reflexivity);
    destruct sa, sv; cbn; eauto.
Qed.

End WeightKeys.

(** C7.  A key missing from the weight table reads as the weight 0.0, and
    such a weight leaves the accumulator at the same number for every finite
    signal value.  Two tables that read alike at the ten keys (the bias, the
    four visual names, the five symptom names) give equal results in every
    field for every input; in particular a key outside the ten can be added
    or changed without effect. *)
Theorem score_reads_ten_keys :
  (forall self k, Scoring.weights self !! k = None ->
     Scoring.weights_get self k = f0_0) /\
  (forall self k v acc, Scoring.weights self !! k = None -> is_finite v = true ->
     same_number (fadd acc (fmul (Scoring.weights_get self k) v)) acc) /\
  (forall s1 s2 sig sym,
     Forall (fun k => Scoring.weights_get s1 k = Scoring.weights_get s2 k)
       relevant_keys ->
     Scoring.score s1 sig sym = Scoring.score s2 sig sym) /\
  (forall self k v sig sym, k ∉ relevant_keys ->
     Scoring.score {| Scoring.weights := <[k := v]> (Scoring.weights self) |} sig sym
     = Scoring.score self sig sym).
Proof.
  split; [ | split; [ | split ]].
  - intros self k Hk. unfold Scoring.weights_get. rewrite Hk. reflexivity.
  - intros self k v acc Hk Hv. unfold Scoring.weights_get. rewrite Hk.
    apply zero_weight_adds_nothing, Hv.
  - intros s1 s2 sig sym H. apply score_agree, H.
  - intros self k v sig sym Hk. apply score_agree.
    apply Forall_forall. intros k' Hk'. unfold Scoring.weights_get. cbn.
    rewrite lookup_insert_ne; [ reflexivity | ].
    intros ->. apply Hk, Hk'.
Qed.

Lemma score_reads_ten_keys_witness :
  Scoring.score bias5_scorer zero_signals None =
  Scoring.score bias5_extra_scorer zero_signals None.
Proof.
  apply (proj1 (proj2 (proj2 score_reads_ten_keys))
           bias5_scorer bias5_extra_scorer zero_signals None).
  repeat (apply Forall_cons; split; [ vm_compute; reflexivity | ]).
  constructor.
Defined.


(* ===================================================================== *)
(** ** Weight loading (C8) *)
(* ===================================================================== *)

Section Loading.
Import Scoring.

Variable u : Py.Unicode.

Lemma convert_items_raise (items : list (string * yaml)) (acc : gmap string float) :
  (exists e, convert_items u items acc = Py.Raise e) <->
  Exists (fun kv => Py.is_ok (py_float u kv.2) = false) items.
Proof.
  revert acc. induction items as [|[k v] rest IH]; intros acc.
  - cbn. split.
    + intros [e He]. discriminate He.
    + intros H. inversion H.
  - cbn [convert_items]. rewrite Exists_cons. cbn [snd].
    destruct (py_float u v) as [f|e0]; cbn [Py.bind Py.is_ok].
    + rewrite IH. split; [ right; assumption | ].
      intros [H|H]; [ discriminate H | exact H ].
    + split; [ left; reflexivity | eauto ].
Qed.

Lemma convert_items_ok (items : list (string * yaml)) (acc w : gmap string float) :
  convert_items u items acc = Py.Ok w ->
  forall k,
    (k ∈ map fst items -> is_Some (w !! k)) /\
    (forall f, w !! k = Some f ->
       acc !! k = Some f \/ exists v, (k, v) ∈ items /\ py_float u v = Py.Ok f).
Proof.
  revert acc. induction items as [|[k0 v0] rest IH]; intros acc Hw k.
  - cbn in Hw. injection Hw as <-. split.
    + cbn. intros H. inversion H.
    + intros f Hf. left. exact Hf.
  - cbn [convert_items] in Hw.
    destruct (py_float u v0) as [f0|e0] eqn:Hv0; cbn [Py.bind] in Hw;
      [ | discriminate Hw ].
    destruct (IH _ Hw k) as [Hdom Hval]. split.
    + cbn [map fst]. rewrite elem_of_cons. intros [-> | Hin].
      * destruct (decide (k0 ∈ map fst rest)) as [Hin|Hnin];
          [ apply Hdom, Hin | ].
        clear Hdom Hval. revert Hw Hnin. clear.
        generalize (<[k0:=f0]> acc) (lookup_insert_eq acc k0 f0).
        induction rest as [|[k1 v1] rest IH]; intros m Hm Hw Hnin.
        -- cbn in Hw. injection Hw as <-. rewrite Hm. eauto.
        -- cbn [convert_items] in Hw.
           destruct (py_float u v1) as [f1|e1]; cbn [Py.bind] in Hw;
             [ | discriminate Hw ].
           cbn [map fst] in Hnin. rewrite not_elem_of_cons in Hnin.
           destruct Hnin as [Hne Hnin].
           apply (IH (<[k1:=f1]> m)); auto.
           rewrite lookup_insert_ne; auto.
      * apply Hdom, Hin.
    + intros f Hf. destruct (Hval f Hf) as [Hacc | (v & Hin & Hv)].
      * destruct (decide (k0 = k)) as [-> | Hne].
        -- rewrite lookup_insert_eq in Hacc. injection Hacc as ->.
           right. exists v0. split; [ left | exact Hv0 ].
        -- rewrite lookup_insert_ne in Hacc by exact Hne. left. exact Hacc.
      * right. exists v. split; [ right; exact Hin | exact Hv ].
Qed.

End Loading.

Section Reading.

Lemma digitpart_digit (s ds r : list ascii) :
  Py.digitpart s = Some (ds, r) ->
  exists c rest, s = c :: rest /\ Py.is_digit c = true.
Proof.
  destruct s as [|c rest]; [ discriminate | ].
  cbn [Py.digitpart]. destruct (Py.is_digit c) eqn:Hc; [ | discriminate ].
  intros _. exists c, rest. split; [ reflexivity | exact Hc ].
Qed.

Lemma number_digit (body id fd r : list ascii) :
  Py.number body = Some (id, fd, r) ->
  Exists (fun c => Py.is_digit c = true) body.
Proof.
  intros H.
  assert (Hcases : (exists ds r', Py.digitpart body = Some (ds, r')) \/
                   (exists rest ds r', body = "."%char :: rest /\
                                       Py.digitpart rest = Some (ds, r'))).
  { unfold Py.number in H. destruct body as [|c rest]; [ discriminate H | ].
    destruct (Ascii.eqb_spec c "."%char) as [->|Hne].
    - right. destruct (Py.digitpart rest) as [[ds r']|] eqn:Hd; [ | discriminate H ].
      exists rest, ds, r'. split; [ reflexivity | exact Hd ].
    - left.
      destruct (Py.digitpart (c :: rest)) as [[ds r']|] eqn:Hd.
      + exists ds, r'. reflexivity.
      + exfalso. destruct c as [[] [] [] [] [] [] [] []];
          first [ discriminate H | contradiction Hne; reflexivity ]. }
  destruct Hcases as [(ds & r' & Hd) | (rest & ds & r' & -> & Hd)].
  - destruct (digitpart_digit _ _ _ Hd) as (c & rest & -> & Hc).
    apply Exists_cons. left. exact Hc.
  - destruct (digitpart_digit _ _ _ Hd) as (c & rest' & -> & Hc).
    apply Exists_cons. right. apply Exists_cons. left. exact Hc.
Qed.

Lemma lstrip_incl (s : list ascii) (c : ascii) :
  In c (Py.lstrip s) -> In c s.
Proof.
  induction s as [|c0 s IH]; [ exact id | ].
  cbn [Py.lstrip]. destruct (Py.is_space c0); [ | exact id ].
  intros H. right. apply IH, H.
Qed.

Lemma strip_incl (s : list ascii) (c : ascii) : In c (Py.strip s) -> In c s.
Proof.
  unfold Py.strip. intros H.
  apply lstrip_incl. apply in_rev. apply lstrip_incl. apply in_rev. exact H.
Qed.

(** A text that is read as a finite number holds a digit. *)
Lemma float_of_chars_digit (s : list ascii) (f : float) :
  Py.float_of_chars s = Some f -> is_finite f = true ->
  Exists (fun c => Py.is_digit c = true) s.
Proof.
  unfold Py.float_of_chars. cbv zeta.
  set (t := Py.strip s).
  assert (Hsign : exists neg body,
            match t with
            | "+"%char :: r => (false, r)
            | "-"%char :: r => (true, r)
            | _ => (false, t)
            end = (neg, body) /\ (forall c, In c body -> In c t)).
  { destruct t as [|c r]; [ exists false, []; split; [ reflexivity | exact (fun _ H => H) ] | ].
    destruct (Ascii.eqb_spec c "+"%char) as [->|Hp].
    - exists false, r. split; [ reflexivity | intros c H; right; exact H ].
    - destruct (Ascii.eqb_spec c "-"%char) as [->|Hm].
      + exists true, r. split; [ reflexivity | intros c H; right; exact H ].
      + exists false, (c :: r). split; [ | exact (fun _ H => H) ].
        destruct c as [[] [] [] [] [] [] [] []];
          first [ reflexivity | contradiction Hp; reflexivity
                | contradiction Hm; reflexivity ]. }
  destruct Hsign as (neg & body & -> & Hbody).
  destruct (_ || _); [ intros H; injection H as <-; discriminate | ].
  destruct (String.eqb _ "nan"); [ intros H; injection H as <-; discriminate | ].
  destruct (Py.number body) as [[[id fd] r]|] eqn:Hn; [ | discriminate ].
  intros _ _. pose proof (number_digit _ _ _ _ Hn) as Hd.
  rewrite List.Exists_exists in Hd |- *. destruct Hd as (c & Hin & Hc).
  exists c. split; [ apply strip_incl, Hbody, Hin | exact Hc ].
Qed.

Variable u : Py.Unicode.

Lemma ascii_digit_code (ch : N) :
  (ch < 256)%N -> Py.is_digit (ascii_of_N ch) = true -> (48 <= ch <= 57)%N.
Proof.
  intros Hlt. unfold Py.is_digit, nat_of_ascii.
  rewrite (N_ascii_embedding ch Hlt). cbv zeta.
  intros H. apply andb_prop in H. destruct H as [H1 H2].
  apply Nat.leb_le in H1. apply Nat.leb_le in H2. lia.
Qed.

Lemma transform_chars_digit (s : Py.str) (chars : list ascii) :
  Py.transform_chars u s = Some chars ->
  Exists (fun c => Py.is_digit c = true) chars ->
  Exists (decimal_digit u) s.
Proof.
  revert chars. induction s as [|ch rest IH]; intros chars Ht Hd.
  - injection Ht as <-. inversion Hd.
  - cbn [Py.transform_chars] in Ht.
    destruct (N.ltb_spec ch 127) as [Hlt|Hge].
    + destruct (Py.transform_chars u rest) as [chars'|]; [ | discriminate Ht ].
      injection Ht as <-. apply Exists_cons in Hd. apply Exists_cons.
      destruct Hd as [Hd|Hd]; [ left | right; apply (IH chars' eq_refl Hd) ].
      left. apply ascii_digit_code; [ lia | exact Hd ].
    + destruct (Py.isspace u ch).
      * destruct (Py.transform_chars u rest) as [chars'|]; [ | discriminate Ht ].
        injection Ht as <-. apply Exists_cons in Hd. apply Exists_cons.
        destruct Hd as [Hd|Hd]; [ discriminate Hd | ].
        right. apply (IH chars' eq_refl Hd).
      * cbv zeta in Ht. destruct (Z.ltb_spec (Py.todecimal u ch) 0) as [|Hdec];
          [ discriminate Ht | ].
        destruct (Py.transform_chars u rest) as [chars'|]; [ | discriminate Ht ].
        injection Ht as <-. apply Exists_cons in Hd. apply Exists_cons.
        destruct Hd as [Hd|Hd]; [ left | right; apply (IH chars' eq_refl Hd) ].
        right. split; [ lia | exact Hdec ].
Qed.

Lemma to_ascii_digit (s : Py.str) (chars : list ascii) :
  Py.to_ascii u s = Some chars ->
  Exists (fun c => Py.is_digit c = true) chars ->
  Exists (decimal_digit u) s.
Proof.
  unfold Py.to_ascii.
  destruct (forallb (fun ch => (ch <? 128)%N) s) eqn:Hall;
    [ | apply transform_chars_digit ].
  intros H. injection H as <-. rewrite forallb_forall in Hall.
  rewrite !List.Exists_exists. intros (c & Hin & Hc).
  apply in_map_iff in Hin. destruct Hin as (ch & <- & Hin).
  exists ch. split; [ exact Hin | ]. left.
  specialize (Hall ch Hin). apply N.ltb_lt in Hall.
  apply ascii_digit_code; [ lia | exact Hc ].
Qed.

(** [float] turns a text into a finite number only if the text holds a
    decimal digit. *)
Lemma float_of_string_digit (s : Py.str) (f : float) :
  Py.float_of_string u s = Some f -> is_finite f = true ->
  Exists (decimal_digit u) s.
Proof.
  unfold Py.float_of_string.
  destruct (Py.to_ascii u s) as [chars|] eqn:Ht; [ | discriminate ].
  intros Hf Hfin. apply (to_ascii_digit s chars Ht).
  apply (float_of_chars_digit chars f Hf Hfin).
Qed.

End Reading.

(** C8, as the code has it.  Construction fails, inside weight loading,
    exactly when the document is not a mapping or [float()] refuses one of
    the weight values: null, a sequence and a mapping are refused, and so is
    a text that [float()] cannot read; a text is read as a finite number
    only if it holds a decimal digit; a boolean, an integer that fits and a
    text that spells a number are converted.  When construction succeeds
    every key of the file has a weight and every stored weight is
    [float(value)] of an entry of the file, none a default.  A failure to
    open or parse the file is passed on.  A call of [score] on a scorer
    returns a result, raises nothing and leaves the scorer as it was. *)
Theorem weights_convert_or_fail_at_construction (u : Py.Unicode) :
  (forall items,
     (exists e, Scoring.__init__ u (Py.Ok (Scoring.YMap items)) = Py.Raise e) <->
     Exists (fun kv => Py.is_ok (Scoring.py_float u kv.2) = false) items) /\
  (forall items self,
     Scoring.__init__ u (Py.Ok (Scoring.YMap items)) = Py.Ok self ->
     forall k,
       (k ∈ map fst items -> is_Some (Scoring.weights self !! k)) /\
       (forall f, Scoring.weights self !! k = Some f ->
          exists v, (k, v) ∈ items /\ Scoring.py_float u v = Py.Ok f)) /\
  (Scoring.py_float u Scoring.YNull = Py.Raise Py.TypeError /\
   (forall l, Scoring.py_float u (Scoring.YSeq l) = Py.Raise Py.TypeError) /\
   (forall m, Scoring.py_float u (Scoring.YMap m) = Py.Raise Py.TypeError) /\
   (forall s, Py.float_of_string u s = None ->
      Scoring.py_float u (Scoring.YStr s) = Py.Raise Py.ValueError) /\
   (forall s f, Py.float_of_string u s = Some f ->
      Scoring.py_float u (Scoring.YStr s) = Py.Ok f) /\
   (forall s f, Scoring.py_float u (Scoring.YStr s) = Py.Ok f ->
      is_finite f = true -> Exists (decimal_digit u) s) /\
   (forall b, Scoring.py_float u (Scoring.YBool b) = Py.Ok (Py.float_of_flag b)) /\
   (forall z, Scoring.py_float u (Scoring.YInt z) =
      if is_finite (of_Z z) then Py.Ok (of_Z z) else Py.Raise Py.OverflowError) /\
   (forall f, Scoring.py_float u (Scoring.YFloat f) = Py.Ok f)) /\
  (forall d, (forall items, d <> Scoring.YMap items) ->
     Scoring.__init__ u (Py.Ok d) = Py.Raise Py.AttributeError) /\
  (forall e, Scoring.__init__ u (Py.Raise e) = Py.Raise e) /\
  (forall self sig sym,
     Scoring.call_score sig sym self = Py.Ok (Scoring.score self sig sym, self)).
Proof.
  split; [ | split; [ | split; [ | split; [ | split ]]]].
  - intros items. rewrite <- (convert_items_raise u items ∅).
    unfold Scoring.__init__, Scoring._load_weights. cbn [Py.bind].
    destruct (Scoring.convert_items u items ∅) as [w|e]; cbn [Py.bind].
    + split; intros [e He]; discriminate He.
    + split; intros _; eauto.
  - intros items self Hinit k.
    unfold Scoring.__init__, Scoring._load_weights in Hinit. cbn [Py.bind] in Hinit.
    destruct (Scoring.convert_items u items ∅) as [w|e] eqn:Hw; cbn [Py.bind] in Hinit;
      [ | discriminate Hinit ].
    injection Hinit as <-. cbn [Scoring.weights].
    destruct (convert_items_ok u items ∅ w Hw k) as [Hdom Hval].
    split; [ exact Hdom | ].
    intros f Hf. destruct (Hval f Hf) as [Hempty | H]; [ | exact H ].
    rewrite lookup_empty in Hempty. discriminate Hempty.
  - repeat split; try reflexivity.
    + intros s Hs. cbn. rewrite Hs. reflexivity.
    + intros s f Hs. cbn. rewrite Hs. reflexivity.
    + intros s f Hs Hfin. cbn [Scoring.py_float] in Hs.
      destruct (Py.float_of_string u s) as [f'|] eqn:Hf; [ | discriminate Hs ].
      injection Hs as ->. apply (float_of_string_digit u s f Hf Hfin).
  - intros d Hd. destruct d; try reflexivity. exfalso. eapply Hd. reflexivity.
  - reflexivity.
  - intros self sig sym. apply call_score_spec.
Qed.

Lemma weights_convert_or_fail_at_construction_witness :
  exists e, Scoring.__init__ basic_unicode (Py.Ok word_bias_document) = Py.Raise e.
Proof.
  apply (proj1 (weights_convert_or_fail_at_construction basic_unicode)).
  apply Exists_cons. left. vm_compute. reflexivity.
Defined.

(** C8 as stated fails: the weight file [bias: "0.5"] carries a string, not a
    number, and the file [bias: true] a boolean; both scorers are constructed,
    with the weights 0.5 and 1.0. *)
Lemma non_numeric_weights_are_coerced :
  is_numeric (Scoring.YStr (Py.text "0.5")) = false /\
  Scoring.__init__ basic_unicode (Py.Ok quoted_bias_document) =
    Py.Ok (scorer_of [("bias", f0_5)]) /\
  is_numeric (Scoring.YBool true) = false /\
  Scoring.__init__ basic_unicode (Py.Ok boolean_bias_document) =
    Py.Ok (scorer_of [("bias", f1_0)]).
Proof.
  repeat split; vm_compute; reflexivity.
Qed.

(** What [float] makes of blanks and of digits outside ASCII: the blanks of
    ASCII and of the database are dropped at both ends, the file separator
    (code 28) is not; Arabic-Indic one, two reads as 12. *)
Example blanks_and_digits_of_a_text :
  Scoring.py_float basic_unicode (Scoring.YStr (Py.text "  1.5 ")) = Py.Ok (of_decimal false 15 (-1)) /\
  Scoring.py_float basic_unicode (Scoring.YStr (0xA0%N :: Py.text "1.5")) =
    Py.Ok (of_decimal false 15 (-1)) /\
  Scoring.py_float basic_unicode (Scoring.YStr (28%N :: Py.text "1.5")) =
    Py.Raise Py.ValueError /\
  Scoring.py_float basic_unicode (Scoring.YStr [0x661%N; 0x662%N]) = Py.Ok (of_Z 12) /\
  Scoring.py_float basic_unicode (Scoring.YStr (Py.text "1_000")) = Py.Ok (of_Z 1000) /\
  Scoring.py_float basic_unicode (Scoring.YStr (Py.text "-Infinity")) =
    Py.Ok (S754_infinity true).
Proof. repeat split; vm_compute; reflexivity. Qed.


(* ===================================================================== *)
(** ** Segmentation and its fallback (C9) *)
(* ===================================================================== *)

Section Segmentation.
Import Features.

Variable cv : OpenCV.

Lemma amap_amap {A B C} (f : A -> B) (g : B -> C) (a : ndarray A) :
  amap g (amap f a) = amap (fun x => g (f x)) a.
Proof.
  unfold amap. rewrite List.map_map. apply List.map_ext. intros row.
  apply List.map_map.
Qed.

Lemma amap_ext {A B} (f g : A -> B) (a : ndarray A) :
  (forall x, f x = g x) -> amap f a = amap g a.
Proof.
  intros H. unfold amap. apply List.map_ext. intros row.
  apply List.map_ext, H.
Qed.

(** The fallback mask marks the cells at or below the Otsu level. *)
Lemma fallback_otsu_dark_side (img : Image) :
  let blur := GaussianBlur cv (cvtColor_BGR2GRAY cv img) 5 in
  _fallback_otsu cv img =
  amap (fun v => if v <=? otsu_level cv blur then 1 else 0) blur.
Proof.
  intros blur. unfold _fallback_otsu, threshold_binary_otsu. fold blur.
  rewrite amap_amap. apply amap_ext. intros v.
  destruct (Z.gtb_spec v (otsu_level cv blur)), (Z.leb_spec v (otsu_level cv blur));
    try lia; reflexivity.
Qed.

Lemma segment_wound_cases (img : Image) :
  match grabCut cv img (rect_of img) 5 with
  | Py.Ok mask =>
      _segment_wound cv img =
      Py.Ok (morphologyEx_close cv
               (amap (fun v => if (v =? GC_FGD) || (v =? GC_PR_FGD) then 1 else 0) mask) 5)
  | Py.Raise Py.cv2_error =>
      _segment_wound cv img = Py.Ok (morphologyEx_close cv (_fallback_otsu cv img) 5)
  | Py.Raise e => _segment_wound cv img = Py.Raise e
  end.
Proof.
  unfold _segment_wound.
  destruct (grabCut cv img (rect_of img) 5) as [mask|e]; [ reflexivity | ].
  destruct e; reflexivity.
Qed.

Lemma extract_ok_iff_segment_ok (img : Image) :
  Py.is_ok (extract cv img) = Py.is_ok (_segment_wound cv img).
Proof.
  unfold extract. destruct (_segment_wound cv img); reflexivity.
Qed.

End Segmentation.

(** C9.  When [grabCut] fails with [cv2.error], [extract] does not pass the
    failure on: the wound mask is the closing of the fallback mask, the
    fallback mask is 1 exactly on the cells of the blurred grey image that
    are at or below its Otsu level, and [extract] returns the four proxies
    computed over that wound mask and over its ring.  When [grabCut]
    returns a labelled mask, the proxies are computed over the closing of
    its foreground cells.  When [cv2.error] is the only way [grabCut]
    fails, [extract] returns, for every image, the proxies over one of the
    two masks. *)
Theorem segmentation_falls_back_to_otsu (cv : Features.OpenCV) (img : Features.Image) :
  let blur :=
    Features.GaussianBlur cv (Features.cvtColor_BGR2GRAY cv img) 5 in
  let fallback :=
    Features.amap (fun v => if v <=? Features.otsu_level cv blur then 1 else 0) blur in
  let closed := Features.morphologyEx_close cv fallback 5 in
  let ring := Features._periwound_ring cv closed 18 in
  let foreground mask :=
    Features.morphologyEx_close cv
      (Features.amap (fun v => if (v =? 1) || (v =? 3) then 1 else 0) mask) 5 in
  Features._fallback_otsu cv img = fallback /\
  (Features.grabCut cv img (Features.rect_of img) 5 = Py.Raise Py.cv2_error ->
     Features._segment_wound cv img = Py.Ok closed /\
     Features.extract cv img =
       Py.Ok {| periwound_redness := Features._periwound_redness cv img ring;
                exudate_proxy := Features._exudate_proxy cv img closed;
                dark_tissue_proxy := Features._dark_tissue_proxy cv img closed;
                swelling_proxy := Features._swelling_proxy cv img ring |}) /\
  (forall mask,
     Features.grabCut cv img (Features.rect_of img) 5 = Py.Ok mask ->
     Features._segment_wound cv img = Py.Ok (foreground mask) /\
     Features.extract cv img = Py.Ok (signals_over cv img (foreground mask))) /\
  (raises_only_cv2_error cv ->
     Features.extract cv img = Py.Ok (signals_over cv img closed) \/
     exists mask,
       Features.grabCut cv img (Features.rect_of img) 5 = Py.Ok mask /\
       Features.extract cv img = Py.Ok (signals_over cv img (foreground mask))).
Proof.
  cbv zeta. pose proof (fallback_otsu_dark_side cv img) as Hfb. cbv zeta in Hfb.
  pose proof (segment_wound_cases cv img) as Hseg.
  split; [ exact Hfb | ].
  assert (Hfail :
    Features.grabCut cv img (Features.rect_of img) 5 = Py.Raise Py.cv2_error ->
    Features._segment_wound cv img =
      Py.Ok (Features.morphologyEx_close cv (Features._fallback_otsu cv img) 5) /\
    Features.extract cv img =
      Py.Ok (signals_over cv img
               (Features.morphologyEx_close cv (Features._fallback_otsu cv img) 5))).
  { intros Hg. rewrite Hg in Hseg. split; [ exact Hseg | ].
    unfold Features.extract. rewrite Hseg. reflexivity. }
  assert (Hok : forall mask,
    Features.grabCut cv img (Features.rect_of img) 5 = Py.Ok mask ->
    Features._segment_wound cv img =
      Py.Ok (Features.morphologyEx_close cv
               (Features.amap (fun v => if (v =? 1) || (v =? 3) then 1 else 0) mask) 5) /\
    Features.extract cv img =
      Py.Ok (signals_over cv img
               (Features.morphologyEx_close cv
                  (Features.amap (fun v => if (v =? 1) || (v =? 3) then 1 else 0)
                     mask) 5))).
  { intros mask Hg. rewrite Hg in Hseg. split; [ exact Hseg | ].
    unfold Features.extract. rewrite Hseg. reflexivity. }
  rewrite Hfb in Hfail.
  split; [ exact Hfail | ]. split; [ exact Hok | ].
  intros Honly.
  destruct (Features.grabCut cv img (Features.rect_of img) 5) as [mask|e] eqn:Hg.
  - right. exists mask. split; [ reflexivity | ]. apply (Hok mask eq_refl).
  - left. rewrite (Honly _ _ _ _ Hg) in Hfail. apply (Hfail eq_refl).
Qed.

Lemma segmentation_falls_back_to_otsu_witness :
  Features.grabCut (toy_cv true) toy_image (Features.rect_of toy_image) 5 =
    Py.Raise Py.cv2_error /\
  Features._segment_wound (toy_cv true) toy_image = Py.Ok [ [1; 0]; [0; 0] ] /\
  Features.extract (toy_cv true) toy_image =
    Py.Ok {| periwound_redness := f0_0; exudate_proxy := f0_0;
             dark_tissue_proxy := f1_0; swelling_proxy := f0_0 |}.
Proof.
  assert (Hg : Features.grabCut (toy_cv true) toy_image
                 (Features.rect_of toy_image) 5 = Py.Raise Py.cv2_error)
    by reflexivity.
  destruct (proj1 (proj2 (segmentation_falls_back_to_otsu (toy_cv true) toy_image)) Hg)
    as [Hseg Hex].
  split; [ exact Hg | ]. split.
  - rewrite Hseg. vm_compute. reflexivity.
  - rewrite Hex. vm_compute. reflexivity.
Defined.

(* ===================================================================== *)
(** ** The end-to-end path scores without symptoms (C10) *)
(* ===================================================================== *)

Section Predict.
Import Scoring.

Lemma string_append_assoc (a b c : string) : (a +:+ b) +:+ c = a +:+ (b +:+ c).
Proof.
  induction a as [|ch a IH]; [ reflexivity | ].
  change (String ch ((a +:+ b) +:+ c) = String ch (a +:+ (b +:+ c))).
  f_equal. exact IH.
Qed.

Lemma explanation_without_symptoms (self : RiskScorer) (sig : FeatureSignals) :
  contains no_symptoms_sentence (explanation (score self sig None)).
Proof.
  unfold score. rewrite accumulate_spec.
  cbn [explanation]. unfold _explanation.
  set (details := map (spec_detail self) (scored_items sig None)).
  assert (Hnone :
    filter (fun d => Is_true (Py.mem (name d) _symptom_signal_names
                              && fgt (value d) f0_5)) details = []).
  { reflexivity. }
  rewrite Hnone. cbn [_symptom_summary].
  set (level := _risk_level _). set (vs := _visual_summary _).
  exists ("Estimated risk level: " +:+ level +:+ ". " +:+ vs +:+ " "),
         (" " +:+ "This is a triage support estimate, not a diagnosis.").
  rewrite !string_append_assoc. reflexivity.
Qed.

Lemma score_without_symptoms_agree (s1 s2 : RiskScorer) (sig : FeatureSignals) :
  Forall (fun k => weights_get s1 k = weights_get s2 k)
    ("bias" :: _visual_signal_names) ->
  score s1 sig None = score s2 sig None.
Proof.
  intros H. unfold score. rewrite !accumulate_items.
  inversion_clear H as [|? ? Hb Hvis]. rewrite Hb.
  rewrite (score_loop_agree s1 s2); [ reflexivity | ].
  cbn [app]. rewrite app_nil_r. exact Hvis.
Qed.

End Predict.

(** C10.  Whatever the image, a result of [HeuristicRiskModel.predict] is the
    score of the extracted signals with no symptom record: its list of
    details has exactly the four visual entries, its explanation contains the
    sentence "No concerning symptoms were reported in the questionnaire.",
    and it is the same for any other weight table that reads alike at the
    bias and the four visual names, whatever the symptom weights are. *)
Theorem predict_scores_without_symptoms (cv : Features.OpenCV)
    (scorer : Scoring.RiskScorer) (img : Features.Image) (r : Scoring.RiskResult) :
  Features.predict cv scorer img = Py.Ok r ->
  (exists sig, Features.extract cv img = Py.Ok sig /\
               r = Scoring.score scorer sig None) /\
  map Scoring.name (Scoring.signals r) = Scoring._visual_signal_names /\
  length (Scoring.signals r) = 4%nat /\
  contains Scoring.no_symptoms_sentence (Scoring.explanation r) /\
  (forall scorer',
     Forall (fun k => Scoring.weights_get scorer k = Scoring.weights_get scorer' k)
       ("bias" :: Scoring._visual_signal_names) ->
     Features.predict cv scorer' img = Py.Ok r).
Proof.
  unfold Features.predict. intros Hp.
  destruct (Features.extract cv img) as [sig|e]; cbn [Py.bind] in *;
    [ | discriminate Hp ].
  injection Hp as <-.
  split; [ eauto | ].
  split; [ rewrite score_signals, accumulate_spec; reflexivity | ].
  split; [ rewrite score_signals, accumulate_spec; reflexivity | ].
  split; [ apply explanation_without_symptoms | ].
  intros scorer' H. f_equal. symmetry. apply score_without_symptoms_agree, H.
Qed.

Lemma predict_scores_without_symptoms_witness :
  length (Scoring.signals
            (Scoring.score scenario_scorer
               {| periwound_redness := f0_0; exudate_proxy := of_decimal false 25 (-2);
                  dark_tissue_proxy := of_decimal false 25 (-2);
                  swelling_proxy := f0_0 |} None)) = 4%nat.
Proof.
  apply (predict_scores_without_symptoms (toy_cv false) scenario_scorer toy_image).
  vm_compute. reflexivity.
Defined.


(* ===================================================================== *)
(** ** Rounding in binary64 *)
(* ===================================================================== *)

Section Rounding.

Lemma fexp_eq (e : Z) : fexp prec emax e = Z.max (e - 53) (-1074).
Proof. reflexivity. Qed.

Lemma digits2_size (p : positive) : digits2_pos p = Pos.size p.
Proof. induction p; cbn; congruence. Qed.

Lemma digits_log2 (p : positive) : Zpos (digits2_pos p) = Z.log2 (Zpos p) + 1.
Proof.
  rewrite digits2_size. destruct p; cbn [Z.log2 Pos.size]; lia.
Qed.

Lemma digits_bounds (p : positive) :
  2 ^ (Zpos (digits2_pos p) - 1) <= Zpos p < 2 ^ Zpos (digits2_pos p).
Proof.
  rewrite digits_log2. replace (Z.log2 (Zpos p) + 1 - 1) with (Z.log2 (Zpos p)) by lia.
  change (Z.log2 (Zpos p) + 1) with (Z.succ (Z.log2 (Zpos p))).
  apply Z.log2_spec. lia.
Qed.

Lemma digits_unique (p : positive) (d : Z) :
  2 ^ (d - 1) <= Zpos p < 2 ^ d -> Zpos (digits2_pos p) = d.
Proof.
  intros H. rewrite digits_log2.
  assert (0 <= d - 1).
  { destruct (Z.le_gt_cases 0 (d - 1)) as [|Hneg]; [ assumption | ].
    assert (d <= 0) by lia. 
    assert (2 ^ d <= 1).
    { destruct (Z.eq_dec d 0) as [->|]; [ cbn; lia | ].
      rewrite Z.pow_neg_r by lia. lia. }
    lia. }
  rewrite (Z.log2_unique (Zpos p) (d - 1)); [ lia | lia | ].
  replace (Z.succ (d - 1)) with d by lia. exact H.
Qed.

Lemma shr_1_spec (m : Z) (r s : bool) :
  0 <= m ->
  shr_1 {| shr_m := m; shr_r := r; shr_s := s |} =
  {| shr_m := m / 2; shr_r := Z.odd m; shr_s := r || s |}.
Proof.
  intros Hm. rewrite <- Z.div2_div.
  destruct m as [|p|p]; [ reflexivity | | lia ].
  destruct p; reflexivity.
Qed.

Lemma mod_pow2_succ (X k : Z) :
  0 <= k ->
  X mod 2 ^ (k + 1) = X mod 2 ^ k + 2 ^ k * Z.b2z (Z.testbit X k).
Proof.
  intros Hk.
  assert (Hp : 0 < 2 ^ k) by (apply Z.pow_pos_nonneg; lia).
  rewrite Z.pow_add_r by lia. change (2 ^ 1) with 2.
  rewrite Z.testbit_odd, Z.shiftr_div_pow2 by lia.
  pose proof (Z.div_mod X (2 ^ k) ltac:(lia)) as H1.
  pose proof (Z.mod_pos_bound X (2 ^ k) Hp) as H2.
  pose proof (Z.div_mod (X / 2 ^ k) 2 ltac:(lia)) as H3.
  pose proof (Z.mod_pos_bound (X / 2 ^ k) 2 ltac:(lia)) as H4.
  set (q := X / 2 ^ k) in *.
  destruct (Z.odd q) eqn:Ho; cbn [Z.b2z].
  - apply Z.odd_spec in Ho. destruct Ho as [j Hj].
    symmetry. apply Z.mod_unique with (q := j); [ left; lia | nia ].
  - assert (He : Z.even q = true) by (rewrite <- Z.negb_odd, Ho; reflexivity).
    apply Z.even_spec in He. destruct He as [j Hj].
    symmetry. apply Z.mod_unique with (q := j); [ left; lia | nia ].
Qed.

Lemma shr_1_shifted (X k : Z) :
  0 <= X -> 0 <= k -> shr_1 (shifted X k) = shifted X (k + 1).
Proof.
  intros HX Hk. unfold shifted.
  assert (Hp : 0 < 2 ^ (k + 2)) by (apply Z.pow_pos_nonneg; lia).
  rewrite shr_1_spec by (apply Z.div_pos; lia).
  f_equal.
  - rewrite Z.div_div by lia. f_equal.
    replace (k + 1 + 2) with (k + 2 + 1) by lia.
    rewrite (Z.pow_add_r 2 (k + 2) 1) by lia. reflexivity.
  - replace (k + 1 + 1) with (k + 2) by lia.
    rewrite Z.testbit_odd, Z.shiftr_div_pow2 by lia. reflexivity.
  - rewrite (mod_pow2_succ X (k + 1)) by lia.
    assert (Hq : 0 < 2 ^ (k + 1)) by (apply Z.pow_pos_nonneg; lia).
    pose proof (Z.mod_pos_bound X (2 ^ (k + 1)) Hq).
    destruct (Z.testbit X (k + 1)); cbn [Z.b2z orb].
    + symmetry. apply negb_true_iff, Z.eqb_neq. lia.
    + f_equal. f_equal. lia.
Qed.

Lemma iter_shr_shifted (X : Z) (n : positive) :
  0 <= X -> forall k, 0 <= k ->
  SpecFloat.iter_pos shr_1 n (shifted X k) = shifted X (k + Zpos n).
Proof.
  intros HX. induction n as [n IH|n IH|]; intros k Hk; cbn [SpecFloat.iter_pos].
  - rewrite shr_1_shifted, IH, IH by lia. f_equal. lia.
  - rewrite IH, IH by lia. f_equal. lia.
  - apply shr_1_shifted; assumption.
Qed.


Lemma record_of_loc_shifted (m : Z) (l : location) :
  0 <= m -> shr_record_of_loc m l = shifted (4 * m + loc_code l) 0.
Proof.
  intros Hm. unfold shifted. change (0 + 2) with 2. change (0 + 1) with 1.
  assert (Hc : 0 <= loc_code l < 4) by (destruct l as [|[]]; cbn; lia).
  assert (Hdiv : (4 * m + loc_code l) / 2 ^ 2 = m).
  { change (2 ^ 2) with 4. symmetry. apply Z.div_unique with (r := loc_code l); lia. }
  rewrite Hdiv.
  assert (Hs : (4 * m + loc_code l) mod 2 ^ 1 = loc_code l mod 2).
  { change (2 ^ 1) with 2.
    replace (4 * m + loc_code l) with (loc_code l + (2 * m) * 2) by lia.
    apply Z.mod_add. lia. }
  assert (Hr : Z.testbit (4 * m + loc_code l) 1 = Z.odd (loc_code l / 2)).
  { rewrite Z.testbit_odd, Z.shiftr_div_pow2 by lia. change (2 ^ 1) with 2.
    replace (4 * m + loc_code l) with (loc_code l + (2 * m) * 2) by lia.
    rewrite Z.div_add by lia. apply Z.odd_add_mul_2. }
  rewrite Hs, Hr. destruct l as [|[]]; reflexivity.
Qed.

Lemma round_shifted (X k : Z) :
  0 <= X -> 0 <= k ->
  round_nearest_even (shr_m (shifted X k)) (loc_of_shr_record (shifted X k)) =
  rne X (k + 2).
Proof.
  intros HX Hk. unfold rne.
  assert (Hm : X mod 2 ^ (k + 2) =
               X mod 2 ^ (k + 1) + 2 ^ (k + 1) * Z.b2z (Z.testbit X (k + 1))).
  { replace (k + 2) with (k + 1 + 1) by lia. apply mod_pow2_succ. lia. }
  assert (Hpw : 2 ^ (k + 2) = 2 ^ (k + 1) * 2).
  { replace (k + 2) with (k + 1 + 1) by lia. apply Z.pow_add_r; lia. }
  assert (Hq : 0 < 2 ^ (k + 1)) by (apply Z.pow_pos_nonneg; lia).
  pose proof (Z.mod_pos_bound X (2 ^ (k + 1)) Hq) as Hb.
  unfold shifted. cbn [shr_m loc_of_shr_record].
  rewrite Hm. set (q := X / 2 ^ (k + 2)). rewrite Hpw.
  destruct (Z.testbit X (k + 1)); cbn [Z.b2z];
    destruct (Z.eqb_spec (X mod 2 ^ (k + 1)) 0) as [Hz|Hz]; cbn [negb round_nearest_even].
  - rewrite Hz. replace (2 * (0 + 2 ^ (k + 1) * 1)) with (2 ^ (k + 1) * 2) by lia.
    rewrite Z.compare_refl. reflexivity.
  - destruct (Z.compare_spec (2 * (X mod 2 ^ (k + 1) + 2 ^ (k + 1) * 1)) (2 ^ (k + 1) * 2));
      try lia; reflexivity.
  - rewrite Hz.
    destruct (Z.compare_spec (2 * (0 + 2 ^ (k + 1) * 0)) (2 ^ (k + 1) * 2));
      try lia; reflexivity.
  - destruct (Z.compare_spec (2 * (X mod 2 ^ (k + 1) + 2 ^ (k + 1) * 0)) (2 ^ (k + 1) * 2));
      try lia; reflexivity.
Qed.

Lemma rne_bounds (X k : Z) : X / 2 ^ k <= rne X k <= X / 2 ^ k + 1.
Proof.
  unfold rne. destruct (_ ?= _); try destruct (Z.even _); lia.
Qed.

Lemma rne_exact (m k : Z) : 0 <= k -> rne (m * 2 ^ k) k = m.
Proof.
  intros Hk. unfold rne.
  assert (Hp : 0 < 2 ^ k) by (apply Z.pow_pos_nonneg; lia).
  rewrite Z.mod_mul, Z.div_mul by lia.
  destruct (Z.compare_spec (2 * 0) (2 ^ k)); try lia; reflexivity.
Qed.

Lemma rne_scale (X k j : Z) :
  0 <= k -> 0 <= j -> rne (X * 2 ^ j) (k + j) = rne X k.
Proof.
  intros Hk Hj. unfold rne.
  assert (Hpj : 0 < 2 ^ j) by (apply Z.pow_pos_nonneg; lia).
  assert (Hpk : 0 < 2 ^ k) by (apply Z.pow_pos_nonneg; lia).
  rewrite (Z.pow_add_r 2 k j) by lia.
  rewrite Z.div_mul_cancel_r by lia.
  rewrite Z.mul_mod_distr_r by lia.
  replace (2 * (X mod 2 ^ k * 2 ^ j)) with (2 * (X mod 2 ^ k) * 2 ^ j) by lia.
  rewrite <- Zmult_compare_compat_r by lia. reflexivity.
Qed.

Lemma rne_mono (X Y k : Z) : 0 <= k -> X <= Y -> rne X k <= rne Y k.
Proof.
  intros Hk HXY.
  assert (Hp : 0 < 2 ^ k) by (apply Z.pow_pos_nonneg; lia).
  pose proof (Z.div_le_mono X Y (2 ^ k) Hp HXY) as Hq.
  destruct (Z.eq_dec (X / 2 ^ k) (Y / 2 ^ k)) as [Heq|Hne].
  - pose proof (Z.div_mod X (2 ^ k) ltac:(lia)) as HX.
    pose proof (Z.div_mod Y (2 ^ k) ltac:(lia)) as HY.
    assert (Hr : X mod 2 ^ k <= Y mod 2 ^ k) by nia.
    unfold rne. rewrite <- Heq.
    destruct (Z.compare_spec (2 * (X mod 2 ^ k)) (2 ^ k)),
             (Z.compare_spec (2 * (Y mod 2 ^ k)) (2 ^ k));
      try lia; destruct (Z.even (X / 2 ^ k)); lia.
  - pose proof (rne_bounds X k). pose proof (rne_bounds Y k). lia.
Qed.

End Rounding.

Section RoundAux.

Lemma pow2_pos (k : Z) : 0 <= k -> 0 < 2 ^ k.
Proof. intros. apply Z.pow_pos_nonneg; lia. Qed.

Lemma digits_le (p : positive) (d : Z) :
  0 <= d -> Zpos p < 2 ^ d -> Zpos (digits2_pos p) <= d.
Proof.
  intros Hd Hp. pose proof (digits_bounds p) as [Hlo _].
  destruct (Z.le_gt_cases (Zpos (digits2_pos p)) d) as [|Hgt]; [ assumption | ].
  assert (2 ^ d <= 2 ^ (Zpos (digits2_pos p) - 1)) by (apply Z.pow_le_mono_r; lia).
  lia.
Qed.

Lemma shr_fexp_spec (m : positive) (e : Z) (l : location) :
  let n := fexp prec emax (Zpos (digits2_pos m) + e) - e in
  0 <= n ->
  shr_fexp prec emax (Zpos m) e l = (shifted (4 * Zpos m + loc_code l) n, e + n).
Proof.
  intros n Hn. unfold shr_fexp, shr. cbn [Zdigits2]. fold n.
  assert (Hc : 0 <= loc_code l < 4) by (destruct l as [|[]]; cbn; lia).
  rewrite record_of_loc_shifted by lia.
  destruct n as [|p|p] eqn:Hp; [ | | lia ].
  - rewrite Z.add_0_r. reflexivity.
  - rewrite iter_shr_shifted by lia. reflexivity.
Qed.

Lemma shr_fexp_id (q e : Z) :
  0 <= q -> fexp prec emax (Zdigits2 q + e) - e <= 0 ->
  shr_fexp prec emax q e loc_Exact =
  ({| shr_m := q; shr_r := false; shr_s := false |}, e).
Proof.
  intros Hq Hn. unfold shr_fexp, shr.
  destruct (fexp prec emax (Zdigits2 q + e) - e); [ reflexivity | lia | reflexivity ].
Qed.

Lemma binary_round_aux_spec (s : bool) (m : positive) (e : Z) (l : location) :
  let n := fexp prec emax (Zpos (digits2_pos m) + e) - e in
  0 <= n ->
  binary_round_aux prec emax s (Zpos m) e l =
  assemble s (rne (4 * Zpos m + loc_code l) (n + 2)) (e + n).
Proof.
  intros n Hn. unfold binary_round_aux.
  rewrite (shr_fexp_spec m e l Hn). fold n.
  rewrite round_shifted by (destruct l as [|[]]; cbn; lia).
  set (X := 4 * Zpos m + loc_code l).
  set (q1 := rne X (n + 2)). set (E := e + n).
  assert (Hc : 0 <= loc_code l < 4) by (destruct l as [|[]]; cbn; lia).
  assert (HE : E = Z.max (Zpos (digits2_pos m) + e - 53) (-1074)).
  { unfold E, n. rewrite fexp_eq. lia. }
  pose proof (digits_bounds m) as [_ Hm].
  assert (Hq : 0 <= X / 2 ^ (n + 2) < 2 ^ 53).
  { assert (Hdd : X / 2 ^ (n + 2) = Zpos m / 2 ^ n).
    { rewrite Z.add_comm, (Z.pow_add_r 2 2 n) by lia. rewrite <- Z.div_div by (try apply pow2_pos; lia).
      f_equal. change (2 ^ 2) with 4. symmetry.
      apply Z.div_unique with (r := loc_code l); unfold X; lia. }
    rewrite Hdd. split; [ apply Z.div_pos; [ lia | apply pow2_pos; lia ] | ].
    apply Z.div_lt_upper_bound; [ apply pow2_pos; lia | ].
    rewrite <- Z.pow_add_r by lia.
    eapply Z.lt_le_trans; [ exact Hm | ]. apply Z.pow_le_mono_r; lia. }
  pose proof (rne_bounds X (n + 2)) as Hb. fold q1 in Hb.
  assert (Hq1 : 0 <= q1 <= 2 ^ 53) by lia.
  destruct (Z.eq_dec q1 (2 ^ 53)) as [Htop|Hntop].
  - rewrite Htop. unfold shr_fexp. change (Zdigits2 (2 ^ 53)) with 54.
    replace (fexp prec emax (54 + E) - E) with 1 by (rewrite fexp_eq; lia).
    reflexivity.
  - destruct q1 as [|p|p] eqn:Hp; [ | | lia ].
    + rewrite shr_fexp_id by (cbn [Zdigits2]; try rewrite fexp_eq; lia).
      reflexivity.
    + assert (Zpos (digits2_pos p) <= 53) by (apply digits_le; lia).
      rewrite shr_fexp_id by (cbn [Zdigits2]; try rewrite fexp_eq; lia).
      cbn [shr_m]. unfold assemble.
      destruct (Z.eqb_spec (Zpos p) (2 ^ 53)); [ lia | ]. reflexivity.
Qed.

End RoundAux.

Section BinaryRound.

Lemma iter_xO (p d : positive) : Zpos (Pos.iter xO p d) = Zpos p * 2 ^ Zpos d.
Proof.
  induction d as [|d IH] using Pos.peano_ind.
  - cbn [Pos.iter]. lia.
  - rewrite Pos.iter_succ, Pos2Z.inj_succ, Z.pow_succ_r by lia.
    rewrite Pos2Z.inj_xO, IH. lia.
Qed.

Lemma rne_0 (X : Z) : rne X 0 = X.
Proof.
  unfold rne. change (2 ^ 0) with 1. rewrite Z.mod_1_r, Z.div_1_r. reflexivity.
Qed.

Lemma shl_align_spec (mx : positive) (ex ex' : Z) :
  ex' <= ex ->
  snd (shl_align mx ex ex') = ex' /\
  Zpos (fst (shl_align mx ex ex')) = Zpos mx * 2 ^ (ex - ex').
Proof.
  intros H. unfold shl_align. destruct (ex' - ex) as [|d|d] eqn:Hd; [ | lia | ].
  - cbn [fst snd]. replace (ex - ex') with 0 by lia. split; lia.
  - cbn [fst snd]. rewrite iter_xO. replace (ex - ex') with (Zpos d) by lia.
    split; reflexivity.
Qed.

Lemma digits_mul_pow2 (p q : positive) (k : Z) :
  0 <= k -> Zpos q = Zpos p * 2 ^ k ->
  Zpos (digits2_pos q) = Zpos (digits2_pos p) + k.
Proof.
  intros Hk Hq. apply digits_unique. rewrite Hq.
  pose proof (digits_bounds p) as [Hlo Hhi].
  pose proof (pow2_pos k Hk).
  replace (Zpos (digits2_pos p) + k - 1) with (Zpos (digits2_pos p) - 1 + k) by lia.
  rewrite !Z.pow_add_r by lia. nia.
Qed.

(** What [binary_round] returns, by the position of the exponent. *)
Lemma binary_round_spec (s : bool) (m : positive) (e : Z) :
  let E := fexp prec emax (Zpos (digits2_pos m) + e) in
  binary_round prec emax s m e =
  if E <? e then assemble s (Zpos m * 2 ^ (e - E)) E
  else assemble s (rne (Zpos m) (E - e)) E.
Proof.
  intros E. unfold binary_round. fold E.
  destruct (Z.ltb_spec E e) as [Hlt|Hge].
  - destruct (shl_align_spec m e E ltac:(lia)) as [He Hm].
    destruct (shl_align m e E) as [mz ez]. cbn [fst snd] in He, Hm. subst ez.
    pose proof (digits_mul_pow2 m mz (e - E) ltac:(lia) Hm) as Hd.
    assert (Hn : fexp prec emax (Zpos (digits2_pos mz) + E) - E = 0).
    { rewrite Hd. replace (Zpos (digits2_pos m) + (e - E) + E)
        with (Zpos (digits2_pos m) + e) by lia. fold E. lia. }
    rewrite binary_round_aux_spec by lia. rewrite Hn. cbn [loc_code].
    replace (E + 0) with E by lia. change (0 + 2) with 2.
    replace (4 * Zpos mz + 0) with (Zpos mz * 2 ^ 2) by lia.
    rewrite rne_exact by lia. rewrite Hm. reflexivity.
  - assert (Hs : shl_align m e E = (m, e)).
    { unfold shl_align. destruct (E - e) eqn:Hd; try reflexivity. lia. }
    rewrite Hs. rewrite binary_round_aux_spec by (fold E; lia). fold E.
    cbn [loc_code]. replace (4 * Zpos m + 0) with (Zpos m * 2 ^ 2) by lia.
    rewrite rne_scale by lia. f_equal. lia.
Qed.

Lemma of_Z_small (p : positive) :
  Zpos p < 2 ^ 53 ->
  exists m, of_Z (Zpos p) = S754_finite false m (Zpos (digits2_pos p) - 53) /\
            Zpos m = Zpos p * 2 ^ (53 - Zpos (digits2_pos p)) /\
            2 ^ 52 <= Zpos m < 2 ^ 53.
Proof.
  intros Hp. unfold of_Z. cbn [binary_normalize].
  rewrite binary_round_spec. rewrite Z.add_0_r, fexp_eq.
  pose proof (digits_le p 53 ltac:(lia) Hp) as Hd.
  pose proof (digits_bounds p) as [Hlo Hhi].
  set (d := Zpos (digits2_pos p)) in *.
  replace (Z.max (d - 53) (-1074)) with (d - 53) by lia.
  assert (Hm : 2 ^ 52 <= Zpos p * 2 ^ (53 - d) < 2 ^ 53).
  { assert (1 <= d) by (unfold d; lia).
    pose proof (pow2_pos (53 - d) ltac:(lia)).
    assert (H52 : 2 ^ 52 = 2 ^ (d - 1) * 2 ^ (53 - d)).
    { rewrite <- Z.pow_add_r by lia. f_equal. lia. }
    assert (H53 : 2 ^ 53 = 2 ^ d * 2 ^ (53 - d)).
    { rewrite <- Z.pow_add_r by lia. f_equal. lia. }
    rewrite H52, H53. nia. }
  destruct (Z.ltb_spec (d - 53) 0) as [Hlt|Hge].
  - replace (0 - (d - 53)) with (53 - d) by lia.
    destruct (Zpos p * 2 ^ (53 - d)) as [|q|q] eqn:Hq; try lia.
    exists q. unfold assemble.
    destruct (Z.eqb_spec (Zpos q) (2 ^ 53)); [ lia | ].
    unfold fin_or_inf. destruct (Z.leb_spec (d - 53) 971); [ | lia ].
    split; [ reflexivity | lia ].
  - assert (d = 53) by lia. replace (53 - d) with 0 in Hm by lia.
    replace (d - 53 - 0) with 0 by lia.
    rewrite rne_0.
    exists p. unfold assemble.
    destruct (Z.eqb_spec (Zpos p) (2 ^ 53)); [ lia | ].
    unfold fin_or_inf. destruct (Z.leb_spec (d - 53) 971); [ | lia ].
    split; [ reflexivity | ]. replace (53 - d) with 0 by lia. lia.
Qed.

End BinaryRound.

Section Quotient.

Lemma f1_0_eq : f1_0 = S754_finite false 4503599627370496 (-52).
Proof. vm_compute. reflexivity. Qed.

Lemma new_location_zero (d : Z) : new_location d 0 = loc_Exact.
Proof. unfold new_location. destruct (Z.even d); reflexivity. Qed.

Lemma digits_normal (p : positive) :
  2 ^ 52 <= Zpos p < 2 ^ 53 -> Zpos (digits2_pos p) = 53.
Proof. intros H. apply digits_unique. exact H. Qed.

(** The quotient of two normal numbers, the first no larger than the
    second, is between 0.0 and 1.0. *)
Lemma fdiv_normal_le_one (mx my : positive) (ex ey : Z) :
  2 ^ 52 <= Zpos mx < 2 ^ 53 -> 2 ^ 52 <= Zpos my < 2 ^ 53 ->
  -52 <= ex <= 0 -> -52 <= ey <= 0 ->
  ex < ey \/ (ex = ey /\ Zpos mx <= Zpos my) ->
  fle f0_0 (fdiv (S754_finite false mx ex) (S754_finite false my ey)) = true /\
  fle (fdiv (S754_finite false mx ex) (S754_finite false my ey)) f1_0 = true.
Proof.
  intros Hmx Hmy Hex Hey Hord.
  unfold fdiv, SFdiv, SFdiv_core_binary. cbn [Zdigits2 xorb].
  rewrite (digits_normal mx Hmx), (digits_normal my Hmy).
  replace (Z.min (fexp prec emax (53 + ex - (53 + ey))) (ex - ey))
    with (ex - ey - 53) by (rewrite fexp_eq; lia).
  replace (ex - ey - (ex - ey - 53)) with 53 by lia.
  rewrite Z.shiftl_mul_pow2 by lia.
  pose proof (Z_div_mod (Zpos mx * 2 ^ 53) (Zpos my) ltac:(lia)) as Hdm.
  destruct (Z.div_eucl (Zpos mx * 2 ^ 53) (Zpos my)) as [q r].
  destruct Hdm as [Hq Hr].
  set (e' := ex - ey - 53).
  assert (Hqlo : 2 ^ 52 <= q).
  { assert (Zpos my * 2 ^ 52 < Zpos my * (q + 1)) by lia.
    assert (2 ^ 52 < q + 1) by (apply (Z.mul_lt_mono_pos_l (Zpos my)); lia). lia. }
  assert (Hqhi : q < 2 ^ 54).
  { assert (Zpos my * q < Zpos my * 2 ^ 54).
    { change (2 ^ 54) with (2 * 2 ^ 53). change (2 ^ 52) with 4503599627370496 in *.
      change (2 ^ 53) with 9007199254740992 in *. nia. }
    apply (Z.mul_lt_mono_pos_l (Zpos my)); lia. }
  destruct q as [|pq|pq]; try (change (2 ^ 52) with 4503599627370496 in Hqlo; lia).
  set (c := loc_code (new_location (Zpos my) r)).
  assert (Hc : 0 <= c < 4) by (unfold c; destruct (new_location _ _) as [|[]]; cbn; lia).
  set (d := Zpos (digits2_pos pq)).
  assert (Hd : d = 53 \/ d = 54).
  { destruct (Z.lt_ge_cases (Zpos pq) (2 ^ 53)) as [Hlt|Hge].
    - left. apply digits_unique. lia.
    - right. apply digits_unique. change (54 - 1) with 53. lia. }
  assert (Hn : fexp prec emax (d + e') - e' = d - 53).
  { rewrite fexp_eq. unfold e'. lia. }
  rewrite binary_round_aux_spec by (fold d; rewrite Hn; lia).
  fold d c. rewrite Hn.
  set (q1 := rne (4 * Zpos pq + c) (d - 53 + 2)).
  set (E := e' + (d - 53)).
  assert (Hdiv : (4 * Zpos pq + c) / 2 ^ (d - 53 + 2) = Zpos pq / 2 ^ (d - 53)).
  { replace (d - 53 + 2) with (2 + (d - 53)) by lia.
    rewrite (Z.pow_add_r 2 2 (d - 53)) by lia.
    rewrite <- Z.div_div by (try apply pow2_pos; lia).
    f_equal. change (2 ^ 2) with 4. symmetry.
    apply Z.div_unique with (r := c); lia. }
  pose proof (rne_bounds (4 * Zpos pq + c) (d - 53 + 2)) as Hb.
  fold q1 in Hb. rewrite Hdiv in Hb.
  pose proof (digits_bounds pq) as [Hdlo Hdhi]. fold d in Hdlo, Hdhi.
  assert (Hq1 : 2 ^ 52 <= q1 <= 2 ^ 53).
  { destruct Hd as [Hd|Hd]; rewrite Hd in *.
    - change (2 ^ (53 - 53)) with 1 in Hb. rewrite Z.div_1_r in Hb.
      change (53 - 1) with 52 in Hdlo. lia.
    - change (2 ^ (54 - 53)) with 2 in Hb.
      change (2 ^ (54 - 1)) with (2 ^ 52 * 2) in Hdlo.
      change (2 ^ 54) with (2 ^ 53 * 2) in Hdhi.
      assert (2 ^ 52 <= Zpos pq / 2) by (apply Z.div_le_lower_bound; lia).
      assert (Zpos pq / 2 < 2 ^ 53) by (apply Z.div_lt_upper_bound; lia).
      lia. }
  assert (HE : E <= -53 \/ (E = -52 /\ q1 = 2 ^ 52)).
  { destruct Hord as [Hlt | [Heq Hle]].
    - left. unfold E, e'. lia.
    - destruct (Z.eq_dec (Zpos mx) (Zpos my)) as [Hsame|Hdiff].
      + right.
        assert (Hq53 : Zpos pq = 2 ^ 53 /\ r = 0).
        { rewrite Hsame in Hq.
          assert (Zpos my * (2 ^ 53 - Zpos pq) = r) by lia.
          assert (2 ^ 53 - Zpos pq = 0) by nia. lia. }
        destruct Hq53 as [Hq53 Hr0].
        assert (d = 54) by (apply digits_unique; rewrite Hq53; change (54 - 1) with 53; lia).
        split; [ unfold E, e'; lia | ].
        unfold q1, c. rewrite Hr0, new_location_zero. cbn [loc_code].
        replace (d - 53 + 2) with 3 by lia. rewrite Hq53.
        replace (4 * 2 ^ 53 + 0) with (2 ^ 52 * 2 ^ 3) by reflexivity.
        apply rne_exact. lia.
      + left.
        assert (Zpos pq < 2 ^ 53).
        { assert (Zpos my * Zpos pq < Zpos my * 2 ^ 53) by nia.
          apply (Z.mul_lt_mono_pos_l (Zpos my)); lia. }
        assert (d = 53) by (apply digits_unique; lia).
        unfold E, e'. lia. }
  rewrite f1_0_eq. unfold assemble, fin_or_inf.
  change (2 ^ 52) with 4503599627370496 in *.
  change (2 ^ 53) with 9007199254740992 in *.
  destruct q1 as [|p1|p1]; try lia.
  destruct (Z.eqb_spec (Zpos p1) 9007199254740992) as [Htop|Hntop].
  - destruct (Z.leb_spec (E + 1) 971); [ | lia ].
    split; [ reflexivity | ].
    unfold fle, SFleb, SFcompare.
    destruct (Z.compare_spec (E + 1) (-52));
      [ rewrite Pos.compare_cont_refl; reflexivity | reflexivity | lia ].
  - destruct (Z.leb_spec E 971); [ | lia ].
    split; [ reflexivity | ].
    unfold fle, SFleb, SFcompare.
    destruct (Z.compare_spec E (-52)); [ | reflexivity | lia ].
    destruct HE as [|[_ Hq1eq]]; [ lia | ].
    injection Hq1eq as ->. rewrite Pos.compare_cont_refl. reflexivity.
Qed.

End Quotient.

(* ===================================================================== *)
(** ** The four proxies are fractions (C4) *)
(* ===================================================================== *)

Section Proxies.
Import Features.

Lemma digits_mono (p q : positive) :
  Zpos p <= Zpos q -> Zpos (digits2_pos p) <= Zpos (digits2_pos q).
Proof.
  intros H. pose proof (digits_bounds q) as [_ Hq].
  apply digits_le; lia.
Qed.

(** The mean of a non-empty array of booleans is between 0.0 and 1.0. *)
Lemma mean_bounds (cells : list bool) :
  (0 < length cells)%nat -> Z.of_nat (length cells) < 2 ^ 53 ->
  fle f0_0 (mean cells) = true /\ fle (mean cells) f1_0 = true.
Proof.
  intros Hpos Hsmall. unfold mean.
  pose proof (List.filter_length_le id cells) as Hle.
  set (k := Z.of_nat (length (List.filter id cells))) in *.
  set (n := Z.of_nat (length cells)) in *.
  assert (Hkn : 0 <= k <= n) by lia.
  assert (Hn : 0 < n) by lia.
  destruct n as [|pn|pn]; try lia.
  destruct (of_Z_small pn Hsmall) as (mn & -> & Hmn & Hbn).
  destruct k as [|pk|pk]; try lia.
  - split; reflexivity.
  - assert (Hpk : Zpos pk < 2 ^ 53) by lia.
    destruct (of_Z_small pk Hpk) as (mk & -> & Hmk & Hbk).
    pose proof (digits_mono pk pn ltac:(lia)) as Hd.
    pose proof (digits_le pn 53 ltac:(lia) Hsmall).
    apply fdiv_normal_le_one; try assumption; try lia.
    destruct (Z.eq_dec (Zpos (digits2_pos pk)) (Zpos (digits2_pos pn))) as [He|Hne].
    + right. split; [ lia | ].
      rewrite Hmk, Hmn, He.
      apply Z.mul_le_mono_nonneg_r; [ apply Z.pow_nonneg; lia | lia ].
    + left. lia.
Qed.

Lemma same_shape_refl {A} (a : ndarray A) : same_shape a a.
Proof. reflexivity. Qed.

Lemma same_shape_sym {A B} (a : ndarray A) (b : ndarray B) :
  same_shape a b -> same_shape b a.
Proof. unfold same_shape. congruence. Qed.

Lemma same_shape_trans {A B C} (a : ndarray A) (b : ndarray B) (c : ndarray C) :
  same_shape a b -> same_shape b c -> same_shape a c.
Proof. unfold same_shape. congruence. Qed.

Lemma same_shape_amap {A B} (f : A -> B) (a : ndarray A) :
  same_shape (amap f a) a.
Proof.
  unfold same_shape, amap. rewrite List.map_map. apply List.map_ext.
  intros row. apply List.length_map.
Qed.

Lemma same_shape_azip {A B C} (f : A -> B -> C) (a : ndarray A) (b : ndarray B) :
  same_shape a b -> same_shape (azip f a b) a.
Proof.
  unfold same_shape, azip. revert b.
  induction a as [|ra a IH]; intros [|rb b] H; try discriminate; [ reflexivity | ].
  cbn in *. injection H as Hr Hrest. f_equal.
  - rewrite length_zip_with. lia.
  - apply IH, Hrest.
Qed.

Lemma ncells_same_shape {A B} (a : ndarray A) (b : ndarray B) :
  same_shape a b -> ncells a = ncells b.
Proof.
  unfold same_shape, ncells. intros H. rewrite !List.length_concat, H. reflexivity.
Qed.

Lemma count_true_le (region : ndarray bool) : count_true region <= ncells region.
Proof.
  unfold count_true, ncells.
  pose proof (List.filter_length_le id (concat region)). lia.
Qed.

Lemma select_row_length {A} (rr : list bool) (ra : list A) :
  length rr = length ra ->
  length (omap (fun '(b, x) => if b : bool then Some x else None) (zip rr ra)) =
  length (List.filter id rr).
Proof.
  revert ra. induction rr as [|b rr IH]; intros [|x ra] H; try discriminate;
    [ reflexivity | ].
  cbn in H. injection H as H. cbn. destruct b; cbn; rewrite IH by exact H; reflexivity.
Qed.

Lemma select_length {A} (region : ndarray bool) (a : ndarray A) :
  same_shape region a ->
  Z.of_nat (length (select region a)) = count_true region.
Proof.
  unfold same_shape, select, count_true. revert a.
  induction region as [|rr region IH]; intros [|ra a] H; try discriminate;
    [ reflexivity | ].
  cbn in H. injection H as Hr Hrest. cbn.
  rewrite List.filter_app, !length_app, select_row_length by exact Hr.
  specialize (IH a Hrest). lia.
Qed.

(** A fraction over a region is between 0.0 and 1.0. *)
Lemma region_fraction_bounds (marked : ndarray bool) (mask : ndarray Z) :
  same_shape marked mask -> ncells mask < 2 ^ 53 ->
  fle f0_0 (region_fraction marked mask) = true /\
  fle (region_fraction marked mask) f1_0 = true.
Proof.
  intros Hshape Hsmall. unfold region_fraction.
  destruct (Z.eqb_spec (count_true (astype_bool mask)) 0) as [Hz|Hnz].
  - split; reflexivity.
  - assert (Hsh : same_shape (astype_bool mask) marked).
    { eapply same_shape_trans; [ apply same_shape_amap | apply same_shape_sym, Hshape ]. }
    pose proof (select_length (astype_bool mask) marked Hsh) as Hlen.
    pose proof (count_true_le (astype_bool mask)) as Hle.
    rewrite (ncells_same_shape (astype_bool mask) mask (same_shape_amap _ _)) in Hle.
    assert (0 <= count_true (astype_bool mask)) by (unfold count_true; lia).
    apply mean_bounds; lia.
Qed.

Lemma region_fraction_empty (marked : ndarray bool) (mask : ndarray Z) :
  count_true (astype_bool mask) = 0 -> region_fraction marked mask = f0_0.
Proof. intros H. unfold region_fraction. rewrite H. reflexivity. Qed.

Variable cv : OpenCV.
Hypothesis cv_shapes : shape_preserving cv.

Lemma segment_wound_shape (img : Image) (w : ndarray Z) :
  _segment_wound cv img = Py.Ok w -> same_shape w img.
Proof.
  intros Hseg. pose proof (segment_wound_cases cv img) as Hc.
  destruct (grabCut cv img (rect_of img) 5) as [mask|e] eqn:Hg.
  - rewrite Hc in Hseg. injection Hseg as <-.
    eapply same_shape_trans; [ apply (close_shape cv cv_shapes) | ].
    eapply same_shape_trans; [ apply same_shape_amap | ].
    apply (grabCut_shape cv cv_shapes _ _ _ _ Hg).
  - destruct e; rewrite Hc in Hseg; try discriminate Hseg.
    injection Hseg as <-.
    eapply same_shape_trans; [ apply (close_shape cv cv_shapes) | ].
    rewrite fallback_otsu_dark_side.
    eapply same_shape_trans; [ apply same_shape_amap | ].
    eapply same_shape_trans; [ apply (blur_shape cv cv_shapes) | ].
    apply (gray_shape cv cv_shapes).
Qed.

Lemma periwound_ring_shape (w : ndarray Z) (k : Z) :
  same_shape (_periwound_ring cv w k) w.
Proof.
  unfold _periwound_ring.
  eapply same_shape_trans; [ apply same_shape_azip | apply (dilate_shape cv cv_shapes) ].
  eapply same_shape_trans; [ apply (dilate_shape cv cv_shapes) | ].
  apply same_shape_sym, (erode_shape cv cv_shapes).
Qed.

Lemma extract_bounds (img : Image) (sig : FeatureSignals) :
  ncells img < 2 ^ 53 -> extract cv img = Py.Ok sig ->
  Forall (fun v => fle f0_0 v = true /\ fle v f1_0 = true)
    [ periwound_redness sig; exudate_proxy sig;
      dark_tissue_proxy sig; swelling_proxy sig ].
Proof.
  intros Hsmall Hex. unfold extract in Hex.
  destruct (_segment_wound cv img) as [w|e] eqn:Hseg; cbn [Py.bind] in Hex;
    [ | discriminate Hex ].
  injection Hex as <-. cbn [periwound_redness exudate_proxy dark_tissue_proxy swelling_proxy].
  pose proof (segment_wound_shape img w Hseg) as Hw.
  pose proof (periwound_ring_shape w 18) as Hring.
  assert (Hwn : ncells w < 2 ^ 53) by (rewrite (ncells_same_shape w img Hw); exact Hsmall).
  assert (Hrn : ncells (_periwound_ring cv w 18) < 2 ^ 53)
    by (rewrite (ncells_same_shape _ w Hring); exact Hwn).
  assert (Hhsv : forall B (f : Z * Z * Z -> B),
            same_shape (amap f (cvtColor_BGR2HSV cv img)) img).
  { intros B f. eapply same_shape_trans; [ apply same_shape_amap | ].
    apply (hsv_shape cv cv_shapes). }
  assert (Hedges : forall B (f : Z -> B),
            same_shape (amap f (Canny cv (cvtColor_BGR2GRAY cv img) 60 120)) img).
  { intros B f. eapply same_shape_trans; [ apply same_shape_amap | ].
    eapply same_shape_trans; [ apply (canny_shape cv cv_shapes) | ].
    apply (gray_shape cv cv_shapes). }
  assert (Himg_w : same_shape img w) by (apply same_shape_sym, Hw).
  assert (Himg_r : same_shape img (_periwound_ring cv w 18)).
  { eapply same_shape_trans; [ exact Himg_w | apply same_shape_sym, Hring ]. }
  repeat (apply Forall_cons; split; [ | ]); try apply Forall_nil; try exact I.
  - apply region_fraction_bounds; [ | exact Hrn ].
    eapply same_shape_trans; [ apply Hhsv | exact Himg_r ].
  - apply region_fraction_bounds; [ | exact Hwn ].
    eapply same_shape_trans; [ apply Hhsv | exact Himg_w ].
  - apply region_fraction_bounds; [ | exact Hwn ].
    eapply same_shape_trans; [ apply Hhsv | exact Himg_w ].
  - apply region_fraction_bounds; [ | exact Hrn ].
    eapply same_shape_trans; [ apply Hedges | exact Himg_r ].
Qed.

End Proxies.

Lemma toy_cv_shapes (fails : bool) : shape_preserving (toy_cv fails).
Proof.
  split; cbn; intros.
  - destruct fails; [ discriminate | ].
    match goal with H : Py.Ok _ = Py.Ok _ |- _ => injection H as <- end.
    apply same_shape_amap.
  - reflexivity.
  - reflexivity.
  - reflexivity.
  - reflexivity.
  - apply same_shape_amap.
  - reflexivity.
  - apply same_shape_amap.
Qed.

(** C4.  When the OpenCV routines return arrays of the size of their input
    and the image has fewer than 2^53 pixels, each of the four values that
    [extract] returns is at least 0.0 and at most 1.0.  Over a mask with no
    pixel set each proxy is exactly 0.0. *)
Theorem signals_bounded_and_zero_on_empty_mask (cv : Features.OpenCV)
    (img : Features.Image) :
  (forall sig, shape_preserving cv -> ncells img < 2 ^ 53 ->
     Features.extract cv img = Py.Ok sig ->
     Forall (fun v => fle f0_0 v = true /\ fle v f1_0 = true)
       [ periwound_redness sig; exudate_proxy sig;
         dark_tissue_proxy sig; swelling_proxy sig ]) /\
  (forall mask, Features.count_true (Features.astype_bool mask) = 0 ->
     Features._periwound_redness cv img mask = f0_0 /\
     Features._exudate_proxy cv img mask = f0_0 /\
     Features._dark_tissue_proxy cv img mask = f0_0 /\
     Features._swelling_proxy cv img mask = f0_0).
Proof.
  split.
  - intros sig Hcv Hsmall Hex. exact (extract_bounds cv Hcv img sig Hsmall Hex).
  - intros mask Hempty.
    unfold Features._periwound_redness, Features._exudate_proxy,
      Features._dark_tissue_proxy, Features._swelling_proxy.
    rewrite !region_fraction_empty by exact Hempty. repeat split.
Qed.

Lemma signals_bounded_and_zero_on_empty_mask_witness :
  Forall (fun v => fle f0_0 v = true /\ fle v f1_0 = true)
    [ f0_0; of_decimal false 25 (-2); of_decimal false 25 (-2); f0_0 ] /\
  Features._periwound_redness (toy_cv false) toy_image [ [0; 0]; [0; 0] ] = f0_0.
Proof.
  split.
  - apply (proj1 (signals_bounded_and_zero_on_empty_mask (toy_cv false) toy_image)
             {| periwound_redness := f0_0;
                exudate_proxy := of_decimal false 25 (-2);
                dark_tissue_proxy := of_decimal false 25 (-2);
                swelling_proxy := f0_0 |}).
    + apply toy_cv_shapes.
    + vm_compute. reflexivity.
    + vm_compute. reflexivity.
  - apply (proj2 (signals_bounded_and_zero_on_empty_mask (toy_cv false) toy_image)
             [ [0; 0]; [0; 0] ]).
    reflexivity.
Defined.


(* ===================================================================== *)
(** ** Rounded addition is monotone *)
(* ===================================================================== *)

Section Nearest.

Lemma binary_round_aux_exact (s : bool) (m : positive) (e : Z) :
  let n := fexp prec emax (Zpos (digits2_pos m) + e) - e in
  0 <= n ->
  binary_round_aux prec emax s (Zpos m) e loc_Exact =
  assemble s (rne (Zpos m) n) (e + n).
Proof.
  intros n Hn. rewrite binary_round_aux_spec by exact Hn. fold n.
  cbn [loc_code]. replace (4 * Zpos m + 0) with (Zpos m * 2 ^ 2) by lia.
  rewrite rne_scale by lia. reflexivity.
Qed.

(** The rounded mantissa has at most 53 bits, and exactly 53 above the
    lowest exponent. *)
Lemma rne_range (m : positive) (e : Z) :
  let n := fexp prec emax (Zpos (digits2_pos m) + e) - e in
  0 <= n ->
  0 <= rne (Zpos m) n <= 2 ^ 53 /\
  (-1074 < e + n -> 2 ^ 52 <= rne (Zpos m) n).
Proof.
  intros n Hn. pose proof (rne_bounds (Zpos m) n) as Hb.
  pose proof (digits_bounds m) as [Hlo Hhi].
  assert (HE : e + n = Z.max (Zpos (digits2_pos m) + e - 53) (-1074)).
  { unfold n. rewrite fexp_eq. lia. }
  pose proof (pow2_pos n Hn) as Hpn.
  assert (Hq : 0 <= Zpos m / 2 ^ n < 2 ^ 53).
  { split; [ apply Z.div_pos; lia | ].
    apply Z.div_lt_upper_bound; [ lia | ].
    rewrite <- Z.pow_add_r by lia.
    eapply Z.lt_le_trans; [ exact Hhi | ]. apply Z.pow_le_mono_r; lia. }
  split; [ lia | ].
  intros Hnorm.
  assert (Hn' : n = Zpos (digits2_pos m) - 53) by lia.
  assert (2 ^ 52 <= Zpos m / 2 ^ n); [ | lia ].
  apply Z.div_le_lower_bound; [ lia | ].
  rewrite <- Z.pow_add_r by lia.
  replace (n + 52) with (Zpos (digits2_pos m) - 1) by lia. exact Hlo.
Qed.

Lemma assemble_valid (s : bool) (q E : Z) :
  0 <= q <= 2 ^ 53 -> -1074 <= E -> (-1074 < E -> 2 ^ 52 <= q) ->
  valid (assemble s q E) = true.
Proof.
  intros Hq HE Hnorm. unfold assemble.
  destruct q as [|p|p]; [ reflexivity | | lia ].
  destruct (Z.eqb_spec (Zpos p) (2 ^ 53)) as [Htop|Hntop]; unfold fin_or_inf.
  - destruct (Z.leb_spec (E + 1) 971); [ | reflexivity ].
    unfold valid, valid_binary, bounded, canonical_mantissa.
    change (Zpos (digits2_pos (2 ^ 52))) with 53. rewrite fexp_eq.
    change (emax - prec) with 971.
    apply andb_true_intro. split; [ apply Z.eqb_eq; lia | apply Z.leb_le; lia ].
  - destruct (Z.leb_spec E 971); [ | reflexivity ].
    unfold valid, valid_binary, bounded, canonical_mantissa. rewrite fexp_eq.
    pose proof (digits_le p 53 ltac:(lia) ltac:(lia)) as Hd.
    change (emax - prec) with 971.
    apply andb_true_intro. split; [ apply Z.eqb_eq | apply Z.leb_le; lia ].
    destruct (Z.eq_dec E (-1074)) as [->|Hne]; [ lia | ].
    assert (Zpos (digits2_pos p) = 53) by (apply digits_unique; lia).
    lia.
Qed.

Lemma assemble_not_nan (s : bool) (q E : Z) : is_nan (assemble s q E) = false.
Proof.
  unfold assemble, fin_or_inf. destruct q; try reflexivity.
  destruct (_ =? _); destruct (_ <=? _); reflexivity.
Qed.

(** Rounding [m * 2^e] is rounding the same number written at the lowest
    exponent. *)
Lemma binary_round_shift (s : bool) (m q : positive) (e : Z) :
  -1074 <= e -> Zpos q = Zpos m * 2 ^ (e + 1074) ->
  binary_round prec emax s m e = binary_round prec emax s q (-1074).
Proof.
  intros He Hq. rewrite !binary_round_spec.
  rewrite (digits_mul_pow2 m q (e + 1074) ltac:(lia) Hq).
  replace (Zpos (digits2_pos m) + (e + 1074) + -1074)
    with (Zpos (digits2_pos m) + e) by lia.
  set (E := fexp prec emax (Zpos (digits2_pos m) + e)).
  assert (HE : -1074 <= E) by (unfold E; rewrite fexp_eq; lia).
  destruct (Z.ltb_spec E (-1074)) as [|_]; [ lia | ].
  rewrite Hq. destruct (Z.ltb_spec E e) as [Hlt|Hge].
  - replace (Zpos m * 2 ^ (e + 1074))
      with (Zpos m * 2 ^ (e - E) * 2 ^ (E - -1074)).
    + rewrite rne_exact by lia. reflexivity.
    + rewrite <- Z.mul_assoc, <- Z.pow_add_r by lia. do 2 f_equal. lia.
  - replace (E - -1074) with (E - e + (e + 1074)) by lia.
    rewrite rne_scale by lia. reflexivity.
Qed.

Lemma nearest_pos (s : bool) (p : positive) :
  let k := Z.max 0 (Zpos (digits2_pos p) - 53) in
  binary_round prec emax s p (-1074) = assemble s (rne (Zpos p) k) (k - 1074).
Proof.
  intros k. rewrite binary_round_spec. rewrite fexp_eq.
  assert (HE : Z.max (Zpos (digits2_pos p) + -1074 - 53) (-1074) = k - 1074)
    by (unfold k; lia).
  rewrite HE. destruct (Z.ltb_spec (k - 1074) (-1074)) as [|_]; [ unfold k in *; lia | ].
  f_equal. f_equal. lia.
Qed.

Lemma nearest_range (p : positive) :
  let k := Z.max 0 (Zpos (digits2_pos p) - 53) in
  0 <= rne (Zpos p) k <= 2 ^ 53 /\ (0 < k -> 2 ^ 52 <= rne (Zpos p) k) /\
  (k = 0 -> rne (Zpos p) k = Zpos p).
Proof.
  intros k.
  pose proof (rne_range p (-1074)) as H. cbn zeta in H. rewrite fexp_eq in H.
  replace (Z.max (Zpos (digits2_pos p) + -1074 - 53) (-1074) - -1074)
    with k in H by (unfold k; lia).
  destruct (H ltac:(unfold k; lia)) as [Hr Hn].
  split; [ exact Hr | split ].
  - intros Hk. apply Hn. lia.
  - intros ->. apply rne_0.
Qed.

Lemma nearest_valid (N : Z) : valid (nearest N) = true.
Proof.
  unfold nearest, binary_normalize.
  destruct N as [|p|p]; [ reflexivity | | ];
    rewrite nearest_pos; destruct (nearest_range p) as (Hr & Hn & _);
    apply assemble_valid; try lia.
Qed.

Lemma nearest_not_nan (N : Z) : is_nan (nearest N) = false.
Proof.
  unfold nearest, binary_normalize.
  destruct N as [|p|p]; [ reflexivity | | ]; rewrite nearest_pos;
    apply assemble_not_nan.
Qed.

End Nearest.

Section Order.

Lemma valid_finite_inv (s : bool) (m : positive) (e : Z) :
  valid (S754_finite s m e) = true ->
  e = Z.max (Zpos (digits2_pos m) + e - 53) (-1074) /\ e <= 971.
Proof.
  unfold valid, valid_binary, bounded, canonical_mantissa. rewrite fexp_eq.
  change (emax - prec) with 971.
  intros H. apply andb_prop in H. destruct H as [H1 H2].
  apply Z.eqb_eq in H1. apply Z.leb_le in H2. lia.
Qed.

Lemma binary_normalize_shift (M e : Z) :
  -1074 <= e ->
  binary_normalize prec emax M e false = nearest (M * 2 ^ (e + 1074)).
Proof.
  intros He. unfold nearest.
  pose proof (pow2_pos (e + 1074) ltac:(lia)) as Hp.
  destruct M as [|p|p].
  - reflexivity.
  - destruct (Zpos p * 2 ^ (e + 1074)) as [|q|q] eqn:Hq; try lia.
    cbn [binary_normalize]. apply binary_round_shift; [ exact He | lia ].
  - destruct (Zneg p * 2 ^ (e + 1074)) as [|q|q] eqn:Hq; try lia.
    cbn [binary_normalize]. apply binary_round_shift; [ exact He | lia ].
Qed.

(** The sum of two finite numbers is the float nearest to the exact sum. *)
Lemma fadd_finite (sa st : bool) (ma mt : positive) (ea et : Z) :
  -1074 <= ea -> -1074 <= et ->
  fadd (S754_finite sa ma ea) (S754_finite st mt et) =
  nearest (val (S754_finite sa ma ea) + val (S754_finite st mt et)).
Proof.
  intros Ha Ht. unfold fadd. cbn [SFadd].
  set (ez := Z.min ea et).
  destruct (shl_align_spec ma ea ez ltac:(unfold ez; lia)) as [_ HA].
  destruct (shl_align_spec mt et ez ltac:(unfold ez; lia)) as [_ HT].
  rewrite binary_normalize_shift by (unfold ez; lia).
  f_equal. rewrite HA, HT. cbn [val].
  assert (Hea : 2 ^ (ea + 1074) = 2 ^ (ea - ez) * 2 ^ (ez + 1074)).
  { rewrite <- Z.pow_add_r by (unfold ez; lia). f_equal. lia. }
  assert (Het : 2 ^ (et + 1074) = 2 ^ (et - ez) * 2 ^ (ez + 1074)).
  { rewrite <- Z.pow_add_r by (unfold ez; lia). f_equal. lia. }
  rewrite Hea, Het. destruct sa, st; cbn [cond_Zopp]; lia.
Qed.

(** A valid finite float is the float nearest to its own value. *)
Lemma nearest_val (s : bool) (m : positive) (e : Z) :
  valid (S754_finite s m e) = true ->
  nearest (val (S754_finite s m e)) = S754_finite s m e.
Proof.
  intros Hv. destruct (valid_finite_inv s m e Hv) as [Hc Hb].
  assert (He : -1074 <= e) by lia.
  pose proof (pow2_pos (e + 1074) ltac:(lia)) as Hp.
  assert (Hround : binary_round prec emax s m e = S754_finite s m e).
  { rewrite binary_round_spec, fexp_eq, <- Hc.
    destruct (Z.ltb_spec e e) as [|_]; [ lia | ].
    rewrite Z.sub_diag, rne_0. unfold assemble.
    pose proof (digits_bounds m) as [_ Hhi].
    assert (Zpos m < 2 ^ 53).
    { eapply Z.lt_le_trans; [ exact Hhi | ]. apply Z.pow_le_mono_r; lia. }
    destruct (Z.eqb_spec (Zpos m) (2 ^ 53)); [ lia | ].
    unfold fin_or_inf. destruct (Z.leb_spec e 971); [ reflexivity | lia ]. }
  unfold nearest, val.
  destruct (Zpos m * 2 ^ (e + 1074)) as [|q|q] eqn:Hq; try lia.
  destruct s.
  - replace (-1 * Zpos q) with (Zneg q) by lia. cbn [binary_normalize].
    rewrite <- Hround. symmetry. apply binary_round_shift; [ exact He | lia ].
  - replace (1 * Zpos q) with (Zpos q) by lia. cbn [binary_normalize].
    rewrite <- Hround. symmetry. apply binary_round_shift; [ exact He | lia ].
Qed.

Lemma assemble_opp (q E : Z) : assemble true q E = SFopp (assemble false q E).
Proof.
  unfold assemble, fin_or_inf. destruct q; try reflexivity.
  destruct (_ =? _); destruct (_ <=? _); reflexivity.
Qed.

Lemma SFcompare_opp (x y : float) : SFcompare (SFopp x) (SFopp y) = SFcompare y x.
Proof.
  rewrite (SFcompare_antisym y x).
  destruct x as [sx|sx| |sx mx ex], y as [sy|sy| |sy my ey]; cbn -[Z.compare];
    try destruct sx; try destruct sy; cbn -[Z.compare]; try reflexivity;
    destruct (ex ?= ey); cbn; try reflexivity;
    destruct (Pos.compare_cont Eq mx my); reflexivity.
Qed.

Lemma fle_opp (x y : float) : fle (SFopp x) (SFopp y) = fle y x.
Proof. unfold fle, SFleb. rewrite SFcompare_opp. reflexivity. Qed.

Lemma fle_fin_or_inf (q q' : positive) (E E' : Z) :
  E < E' \/ (E = E' /\ (q <= q')%positive) ->
  fle (fin_or_inf false q E) (fin_or_inf false q' E') = true.
Proof.
  intros H. unfold fin_or_inf.
  destruct (Z.leb_spec E 971), (Z.leb_spec E' 971); try reflexivity; try lia.
  unfold fle, SFleb, SFcompare.
  destruct (Z.compare_spec E E'); try reflexivity; try lia.
  destruct H as [|[_ Hq]]; [ lia | ].
  rewrite Pos.compare_cont_spec. cbn [Pos.switch_Eq].
  apply Pos.compare_le_iff in Hq.
  destruct (q ?= q')%positive; try reflexivity. contradiction.
Qed.

Lemma fle_zero_assemble (s : bool) (q E : Z) :
  fle (S754_zero s) (assemble false q E) = true.
Proof.
  unfold assemble, fin_or_inf. destruct q; try reflexivity.
  destruct (_ =? _); destruct (_ <=? _); reflexivity.
Qed.

Lemma fle_assemble_zero (s : bool) (q E : Z) :
  fle (assemble true q E) (S754_zero s) = true.
Proof.
  unfold assemble, fin_or_inf. destruct q; try reflexivity.
  destruct (_ =? _); destruct (_ <=? _); reflexivity.
Qed.

Lemma fle_assemble_signs (q q' E E' : Z) :
  fle (assemble true q E) (assemble false q' E') = true.
Proof.
  unfold assemble, fin_or_inf. destruct q, q'; try reflexivity;
    repeat match goal with
           | |- context [if ?b then _ else _] => destruct b
           end; reflexivity.
Qed.

Lemma round_pos_mono (p p' : positive) :
  Zpos p <= Zpos p' ->
  fle (binary_round prec emax false p (-1074))
      (binary_round prec emax false p' (-1074)) = true.
Proof.
  intros Hle. rewrite !nearest_pos.
  destruct (nearest_range p) as (Hr & Hn & Hz).
  destruct (nearest_range p') as (Hr' & Hn' & Hz').
  pose proof (digits_mono p p' Hle) as Hd.
  set (k := Z.max 0 (Zpos (digits2_pos p) - 53)) in *.
  set (k' := Z.max 0 (Zpos (digits2_pos p') - 53)) in *.
  assert (Hk : 0 <= k <= k') by (unfold k, k'; lia).
  assert (Hmono : k = k' -> rne (Zpos p) k <= rne (Zpos p') k').
  { intros <-. apply rne_mono; lia. }
  set (q := rne (Zpos p) k) in *. set (q' := rne (Zpos p') k') in *.
  assert (Hqpos : 0 < q).
  { destruct (Z.eq_dec k 0) as [Hk0|Hk0]; [ rewrite (Hz Hk0); lia | ].
    assert (2 ^ 52 <= q) by (apply Hn; lia).
    assert (0 < 2 ^ 52) by (apply pow2_pos; lia). lia. }
  assert (Hqpos' : 0 < q').
  { destruct (Z.eq_dec k' 0) as [Hk0|Hk0]; [ rewrite (Hz' Hk0); lia | ].
    assert (2 ^ 52 <= q') by (apply Hn'; lia).
    assert (0 < 2 ^ 52) by (apply pow2_pos; lia). lia. }
  unfold assemble.
  destruct q as [|pq|pq]; try lia. destruct q' as [|pq'|pq']; try lia.
  change (2 ^ 52) with 4503599627370496 in *.
  change (2 ^ 53) with 9007199254740992 in *.
  destruct (Z.eqb_spec (Zpos pq) 9007199254740992) as [Ht|Ht],
           (Z.eqb_spec (Zpos pq') 9007199254740992) as [Ht'|Ht'];
    apply fle_fin_or_inf.
  - destruct (Z.eq_dec k k'); [ right; split; [ lia | reflexivity ] | left; lia ].
  - destruct (Z.eq_dec (k + 1) k') as [He|He]; [ | left; lia ].
    right. split; [ lia | ].
    assert (4503599627370496 <= Zpos pq') by (apply Hn'; lia).
    apply Pos2Z.pos_le_pos. assumption.
  - left. lia.
  - destruct (Z.eq_dec k k') as [He|He]; [ | left; lia ].
    right. split; [ lia | ]. apply Pos2Z.pos_le_pos. apply Hmono, He.
Qed.

(** Rounding to the nearest float is monotone. *)
Lemma nearest_mono (N N' : Z) : N <= N' -> fle (nearest N) (nearest N') = true.
Proof.
  intros H. unfold nearest.
  destruct N as [|p|p], N' as [|p'|p']; cbn [binary_normalize]; try lia.
  - reflexivity.
  - rewrite nearest_pos. apply fle_zero_assemble.
  - apply round_pos_mono. lia.
  - rewrite nearest_pos. apply fle_assemble_zero.
  - rewrite !nearest_pos. apply fle_assemble_signs.
  - rewrite !nearest_pos, !assemble_opp, fle_opp, <- !nearest_pos.
    apply round_pos_mono. lia.
Qed.

End Order.

Section AdditionOrder.

Lemma fle_refl (x : float) : is_nan x = false -> fle x x = true.
Proof.
  unfold fle, SFleb. destruct x as [s|s| |s m e]; try discriminate; intros _.
  - reflexivity.
  - destruct s; reflexivity.
  - unfold SFcompare. rewrite Z.compare_refl, Pos.compare_cont_refl.
    destruct s; reflexivity.
Qed.

Lemma fle_trans (x y z : float) :
  fle x y = true -> fle y z = true -> fle x z = true.
Proof.
  unfold fle, SFleb.
  destruct x as [sx|sx| |sx mx ex], y as [sy|sy| |sy my ey],
           z as [sz|sz| |sz mz ez];
    cbn -[Z.compare Pos.compare_cont];
    try destruct sx; try destruct sy; try destruct sz;
    try discriminate; try reflexivity;
    rewrite ?Pos.compare_cont_spec; cbn [Pos.switch_Eq];
    destruct (Z.compare_spec ex ey), (Z.compare_spec ey ez),
             (Z.compare_spec ex ez); try lia; try discriminate; try reflexivity;
    destruct (Pos.compare_spec mx my), (Pos.compare_spec my mz),
             (Pos.compare_spec mx mz); cbn; try lia; try discriminate;
    try reflexivity.
Qed.

Lemma fle_same_number (x x' y y' : float) :
  same_number x x' -> same_number y y' -> fle x y = fle x' y'.
Proof.
  intros [->|(s1 & s2 & -> & ->)] [->|(s3 & s4 & -> & ->)]; reflexivity.
Qed.

Lemma self_nearest (x : float) :
  valid x = true -> is_finite x = true -> same_number x (nearest (val x)).
Proof.
  intros Hv Hf. destruct x as [s|s| |s m e]; try discriminate.
  - right. exists s, false. split; reflexivity.
  - left. symmetry. apply nearest_val, Hv.
Qed.

Lemma compare_eq_val (x y : float) :
  is_finite x = true -> is_finite y = true ->
  SFcompare x y = Some Eq -> val x = val y.
Proof.
  destruct x as [sx|sx| |sx mx ex], y as [sy|sy| |sy my ey]; try discriminate;
    intros _ _; cbn -[Z.compare Pos.compare_cont val].
  - reflexivity.
  - destruct sy; discriminate.
  - destruct sx; discriminate.
  - rewrite Pos.compare_cont_spec. cbn [Pos.switch_Eq].
    destruct sx, sy; try discriminate;
      destruct (Z.compare_spec ex ey); try discriminate;
      destruct (Pos.compare_spec mx my); try discriminate; subst; reflexivity.
Qed.

(** On valid finite floats the comparison is the comparison of values. *)
Lemma fle_val (x y : float) :
  valid x = true -> valid y = true -> is_finite x = true -> is_finite y = true ->
  fle x y = true -> val x <= val y.
Proof.
  intros Vx Vy Fx Fy Hle.
  destruct (Z.le_gt_cases (val x) (val y)) as [|Hgt]; [ assumption | ].
  pose proof (nearest_mono (val y) (val x) ltac:(lia)) as Hm.
  rewrite <- (fle_same_number y (nearest (val y)) x (nearest (val x))) in Hm
    by (apply self_nearest; assumption).
  assert (Heq : SFcompare x y = Some Eq).
  { unfold fle, SFleb in Hle, Hm. rewrite (SFcompare_antisym y x) in Hm.
    destruct (SFcompare x y) as [[]|]; cbn in Hm; congruence. }
  pose proof (compare_eq_val x y Fx Fy Heq). lia.
Qed.

Lemma fadd_fin (a t : float) :
  valid a = true -> valid t = true -> is_finite a = true -> is_finite t = true ->
  same_number (fadd a t) (nearest (val a + val t)).
Proof.
  intros Va Vt Fa Ft.
  destruct a as [sa|sa| |sa ma ea], t as [st|st| |st mt et]; try discriminate.
  - right. destruct sa, st; cbn; eauto.
  - left. cbn [val]. rewrite Z.add_0_l. symmetry. apply nearest_val, Vt.
  - left. cbn [val]. rewrite Z.add_0_r. symmetry. apply nearest_val, Va.
  - left. destruct (valid_finite_inv _ _ _ Va), (valid_finite_inv _ _ _ Vt).
    apply fadd_finite; lia.
Qed.

Lemma fadd_mono_fin (a a' t t' : float) :
  valid a = true -> valid a' = true -> valid t = true -> valid t' = true ->
  is_finite a = true -> is_finite a' = true ->
  is_finite t = true -> is_finite t' = true ->
  fle a a' = true -> fle t t' = true ->
  fle (fadd a t) (fadd a' t') = true.
Proof.
  intros Va Va' Vt Vt' Fa Fa' Ft Ft' Ha Ht.
  rewrite (fle_same_number _ _ _ _ (fadd_fin a t Va Vt Fa Ft)
             (fadd_fin a' t' Va' Vt' Fa' Ft')).
  apply nearest_mono.
  pose proof (fle_val a a' Va Va' Fa Fa' Ha).
  pose proof (fle_val t t' Vt Vt' Ft Ft' Ht). lia.
Qed.

Lemma float_cases (x : float) :
  is_nan x = false ->
  x = S754_infinity true \/ x = S754_infinity false \/ is_finite x = true.
Proof. destruct x as [s|[|]| |s m e]; try discriminate; auto. Qed.

Lemma fadd_ninf_l (t : float) :
  is_nan (fadd (S754_infinity true) t) = false ->
  fadd (S754_infinity true) t = S754_infinity true.
Proof. destruct t as [s|[|]| |s m e]; try discriminate; reflexivity. Qed.

Lemma fadd_ninf_r (a : float) :
  is_nan (fadd a (S754_infinity true)) = false ->
  fadd a (S754_infinity true) = S754_infinity true.
Proof. destruct a as [s|[|]| |s m e]; try discriminate; reflexivity. Qed.

Lemma fadd_pinf_l (t : float) :
  is_nan (fadd (S754_infinity false) t) = false ->
  fadd (S754_infinity false) t = S754_infinity false.
Proof. destruct t as [s|[|]| |s m e]; try discriminate; reflexivity. Qed.

Lemma fadd_pinf_r (a : float) :
  is_nan (fadd a (S754_infinity false)) = false ->
  fadd a (S754_infinity false) = S754_infinity false.
Proof. destruct a as [s|[|]| |s m e]; try discriminate; reflexivity. Qed.

Lemma fle_ninf (x : float) : is_nan x = false -> fle (S754_infinity true) x = true.
Proof. destruct x as [s|[|]| |s m e]; try discriminate; reflexivity. Qed.

Lemma fle_pinf (x : float) : is_nan x = false -> fle x (S754_infinity false) = true.
Proof. destruct x as [s|[|]| |[|] m e]; try discriminate; reflexivity. Qed.

Lemma fle_pinf_inv (x : float) :
  fle (S754_infinity false) x = true -> x = S754_infinity false.
Proof. destruct x as [s|[|]| |[|] m e]; try discriminate; reflexivity. Qed.

Lemma fle_ninf_inv (x : float) :
  fle x (S754_infinity true) = true -> x = S754_infinity true.
Proof. destruct x as [s|[|]| |[|] m e]; try discriminate; reflexivity. Qed.

(** Addition is monotone in both arguments, as long as it yields numbers. *)
Lemma fadd_mono (a a' t t' : float) :
  valid a = true -> valid a' = true -> valid t = true -> valid t' = true ->
  fle a a' = true -> fle t t' = true ->
  is_nan (fadd a t) = false -> is_nan (fadd a' t') = false ->
  fle (fadd a t) (fadd a' t') = true.
Proof.
  intros Va Va' Vt Vt' Ha Ht N1 N2.
  destruct (fle_not_nan _ _ Ha) as [Na Na'].
  destruct (fle_not_nan _ _ Ht) as [Nt Nt'].
  destruct (float_cases a Na) as [->|[->|Fa]].
  { rewrite fadd_ninf_l by exact N1. apply fle_ninf, N2. }
  { apply fle_pinf_inv in Ha. subst a'.
    rewrite (fadd_pinf_l t') by exact N2. apply fle_pinf, N1. }
  destruct (float_cases t Nt) as [->|[->|Ft]].
  { rewrite fadd_ninf_r by exact N1. apply fle_ninf, N2. }
  { apply fle_pinf_inv in Ht. subst t'.
    rewrite (fadd_pinf_r a') by exact N2. apply fle_pinf, N1. }
  destruct (float_cases a' Na') as [->|[->|Fa']].
  { apply fle_ninf_inv in Ha. subst a. discriminate Fa. }
  { rewrite fadd_pinf_l by exact N2. apply fle_pinf, N1. }
  destruct (float_cases t' Nt') as [->|[->|Ft']].
  { apply fle_ninf_inv in Ht. subst t. discriminate Ft. }
  { rewrite fadd_pinf_r by exact N2. apply fle_pinf, N1. }
  apply fadd_mono_fin; assumption.
Qed.

Lemma fadd_valid (a t : float) :
  valid a = true -> valid t = true -> valid (fadd a t) = true.
Proof.
  intros Va Vt.
  destruct a as [sa|sa| |sa ma ea], t as [st|st| |st mt et];
    try (destruct sa, st; first [ reflexivity | assumption ]);
    try reflexivity; try assumption.
  destruct (valid_finite_inv _ _ _ Va), (valid_finite_inv _ _ _ Vt).
  rewrite fadd_finite by lia. apply nearest_valid.
Qed.

Lemma fadd_nan_l (t : float) : fadd S754_nan t = S754_nan.
Proof. reflexivity. Qed.

Lemma fadd_nan_r (a : float) : fadd a S754_nan = S754_nan.
Proof. destruct a; reflexivity. Qed.

End AdditionOrder.


(* ===================================================================== *)
(** ** Raising a symptom flag never lowers the score *)
(* ===================================================================== *)

Section Products.

Lemma digits_mul_ge (p q : positive) :
  Zpos (digits2_pos p) + Zpos (digits2_pos q) - 1 <= Zpos (digits2_pos (p * q)).
Proof.
  pose proof (digits_bounds p) as [Hp _].
  pose proof (digits_bounds q) as [Hq _].
  pose proof (digits_bounds (p * q)) as [_ Hpq].
  set (dp := Zpos (digits2_pos p)) in *. set (dq := Zpos (digits2_pos q)) in *.
  set (d := Zpos (digits2_pos (p * q))) in *.
  assert (1 <= dp) by (unfold dp; lia). assert (1 <= dq) by (unfold dq; lia).
  assert (H2 : 2 ^ (dp - 1 + (dq - 1)) < 2 ^ d).
  { rewrite Z.pow_add_r by lia. rewrite Pos2Z.inj_mul in Hpq.
    pose proof (pow2_pos (dp - 1) ltac:(lia)). pose proof (pow2_pos (dq - 1) ltac:(lia)).
    nia. }
  apply Z.pow_lt_mono_r_iff in H2; [ lia | lia | unfold d; lia ].
Qed.

Lemma fmul_finite (sw sv : bool) (mw mv : positive) (ew ev : Z) :
  valid (S754_finite sw mw ew) = true -> valid (S754_finite sv mv ev) = true ->
  exists q E,
    fmul (S754_finite sw mw ew) (S754_finite sv mv ev) = assemble (xorb sw sv) q E /\
    valid (assemble (xorb sw sv) q E) = true.
Proof.
  intros Vw Vv.
  destruct (valid_finite_inv _ _ _ Vw) as [Hcw _].
  destruct (valid_finite_inv _ _ _ Vv) as [Hcv _].
  pose proof (digits_mul_ge mw mv) as Hd.
  set (n := fexp prec emax (Zpos (digits2_pos (mw * mv)) + (ew + ev)) - (ew + ev)).
  assert (Hn : 0 <= n).
  { unfold n. rewrite fexp_eq.
    assert (1 <= Zpos (digits2_pos mw)) by lia.
    assert (1 <= Zpos (digits2_pos mv)) by lia. lia. }
  exists (rne (Zpos (mw * mv)) n), (ew + ev + n).
  unfold fmul. cbn [SFmul].
  rewrite binary_round_aux_exact by (fold n; exact Hn). fold n.
  split; [ reflexivity | ].
  destruct (rne_range (mw * mv) (ew + ev) Hn) as [Hr Hnorm]. fold n in Hr, Hnorm.
  apply assemble_valid; [ exact Hr | | exact Hnorm ].
  unfold n. rewrite fexp_eq. lia.
Qed.

Lemma fmul_valid (w v : float) :
  valid w = true -> valid v = true -> valid (fmul w v) = true.
Proof.
  intros Vw Vv.
  destruct w as [sw|sw| |sw mw ew], v as [sv|sv| |sv mv ev]; try reflexivity.
  destruct (fmul_finite sw sv mw mv ew ev Vw Vv) as (q & E & -> & Hv). exact Hv.
Qed.

Lemma valid_flag (b : bool) : valid (Py.float_of_flag b) = true.
Proof. destruct b; vm_compute; reflexivity. Qed.

Lemma f1_0_valid : valid f1_0 = true.
Proof. vm_compute. reflexivity. Qed.

(** A non-negative weight times a raised flag is no less than the weight
    times the lowered flag, if both are numbers. *)
Lemma raised_flag_term (w : float) :
  valid w = true -> fle f0_0 w = true ->
  no_worse (fmul w (Py.float_of_flag false)) (fmul w (Py.float_of_flag true)).
Proof.
  intros Vw Hw. unfold no_worse.
  split; [ apply fmul_valid; [ exact Vw | apply valid_flag ] | ].
  split; [ apply fmul_valid; [ exact Vw | apply valid_flag ] | ].
  cbn [Py.float_of_flag].
  destruct w as [sw|[|]| |[|] mw ew]; try discriminate Hw.
  - right; right. destruct sw; reflexivity.
  - left. reflexivity.
  - right; right. rewrite f1_0_eq.
    destruct (fmul_finite false false mw 4503599627370496 ew (-52) Vw)
      as (q & E & Heq & _); [ rewrite <- f1_0_eq; apply f1_0_valid | ].
    rewrite Heq. cbn [xorb]. apply (fle_zero_assemble false).
Qed.

Lemma no_worse_refl (t : float) : valid t = true -> no_worse t t.
Proof.
  intros Vt. unfold no_worse. split; [ exact Vt | split; [ exact Vt | ] ].
  destruct (is_nan t) eqn:Hn; [ left; reflexivity | ].
  right; right. apply fle_refl, Hn.
Qed.

Lemma no_worse_fadd (a a' t t' : float) :
  no_worse a a' -> no_worse t t' -> no_worse (fadd a t) (fadd a' t').
Proof.
  intros (Va & Va' & Ha) (Vt & Vt' & Ht). unfold no_worse.
  split; [ apply fadd_valid; assumption | ].
  split; [ apply fadd_valid; assumption | ].
  destruct (is_nan (fadd a t)) eqn:N1; [ left; reflexivity | ].
  destruct (is_nan (fadd a' t')) eqn:N2; [ right; left; reflexivity | ].
  right; right.
  destruct Ha as [Ha|[Ha|Ha]].
  { destruct a; try discriminate Ha. discriminate N1. }
  { destruct a'; try discriminate Ha. discriminate N2. }
  destruct Ht as [Ht|[Ht|Ht]].
  { destruct t; try discriminate Ht. rewrite fadd_nan_r in N1. discriminate N1. }
  { destruct t'; try discriminate Ht. rewrite fadd_nan_r in N2. discriminate N2. }
  apply fadd_mono; assumption.
Qed.

End Products.

Section ClampOrder.

Lemma clamp_mono (a a' : float) :
  fle a a' = true -> fle (clamp a) (clamp a') = true.
Proof.
  intros Hle. destruct (fle_not_nan _ _ Hle) as [Na Na'].
  assert (Z0 : is_nan f0_0 = false) by reflexivity.
  assert (Z1 : is_nan f1_0 = false) by reflexivity.
  assert (H01 : fle f0_0 f1_0 = true) by reflexivity.
  destruct (clamp_bounds a Na) as [Hlo Hhi].
  destruct (clamp_bounds a' Na') as [Hlo' Hhi'].
  unfold clamp, Py.min, Py.max in *.
  destruct (fgt f0_0 a) eqn:Ha0.
  - (* a below 0.0 *)
    change (flt f1_0 f0_0) with false. cbn iota.
    change (flt f1_0 f0_0) with false in Hlo. exact Hlo'.
  - pose proof (not_fgt_fle f0_0 a Z0 Na Ha0) as H0a.
    pose proof (fle_trans _ _ _ H0a Hle) as H0a'.
    assert (Ha0' : fgt f0_0 a' = false).
    { change (fgt f0_0 a') with (flt a' f0_0). apply fge_not_flt. exact H0a'. }
    rewrite Ha0' in *.
    destruct (flt f1_0 a) eqn:Ha1.
    + (* a above 1.0: so is a' *)
      assert (Ha1' : flt f1_0 a' = true).
      { destruct (flt f1_0 a') eqn:E; [ reflexivity | ].
        pose proof (not_flt_fge f1_0 a' Z1 Na' E) as Hge.
        change (fge f1_0 a') with (fle a' f1_0) in Hge.
        pose proof (fle_trans _ _ _ Hle Hge) as Hc.
        change (fle a f1_0) with (fge f1_0 a) in Hc.
        apply fge_not_flt in Hc. congruence. }
      rewrite Ha1'. reflexivity.
    + destruct (flt f1_0 a') eqn:Ha1'.
      * pose proof (not_flt_fge f1_0 a Z1 Na Ha1) as Hge. exact Hge.
      * exact Hle.
Qed.

End ClampOrder.
Section Monotonicity.
Import Scoring.

Lemma score_loop_terms (self : RiskScorer) (items : list (string * float))
    (ws : float) (ds : list SignalDetail) :
  fst (score_loop self items ws ds) = fold_left fadd (terms self items) ws.
Proof.
  revert ws ds. induction items as [|[n v] rest IH]; intros ws ds.
  - reflexivity.
  - cbn [score_loop terms map fold_left]. apply IH.
Qed.

Lemma fold_no_worse (ts ts' : list float) (a a' : float) :
  Forall2 no_worse ts ts' -> no_worse a a' ->
  no_worse (fold_left fadd ts a) (fold_left fadd ts' a').
Proof.
  intros H. revert a a'. induction H as [|t t' ts ts' Ht _ IH]; intros a a' Ha.
  - exact Ha.
  - cbn [fold_left]. apply IH. apply no_worse_fadd; assumption.
Qed.

Lemma flag_term (w : float) (b b' : bool) :
  valid w = true -> fle f0_0 w = true -> (b = true -> b' = true) ->
  no_worse (fmul w (Py.float_of_flag b)) (fmul w (Py.float_of_flag b')).
Proof.
  intros Vw Hw Hb. destruct b, b'.
  - apply no_worse_refl, fmul_valid; [ exact Vw | apply valid_flag ].
  - specialize (Hb eq_refl). discriminate Hb.
  - apply raised_flag_term; assumption.
  - apply no_worse_refl, fmul_valid; [ exact Vw | apply valid_flag ].
Qed.

Lemma accumulate_no_worse (self : RiskScorer) (sig : FeatureSignals)
    (sy sy' : SymptomInputs) :
  Forall (fun k => valid (weights_get self k) = true) relevant_keys ->
  Forall (fun v => valid v = true)
    [ periwound_redness sig; exudate_proxy sig;
      dark_tissue_proxy sig; swelling_proxy sig ] ->
  Forall (fun k => fle f0_0 (weights_get self k) = true) _symptom_signal_names ->
  flags_le sy sy' ->
  no_worse (fst (accumulate self sig (Some sy)))
           (fst (accumulate self sig (Some sy'))).
Proof.
  intros Hvw Hvs Hnn (Hp & Hw & Hs & Hd & Hr).
  rewrite !accumulate_items, !score_loop_terms.
  unfold relevant_keys, _visual_signal_names, _symptom_signal_names in *.
  cbn [app] in Hvw.
  repeat match goal with
         | H : Forall _ (_ :: _) |- _ => apply Forall_cons in H; destruct H as [? H]
         end.
  apply fold_no_worse; [ | apply no_worse_refl; assumption ].
  unfold terms, signals_as_dict, symptoms_as_dict. cbn [app map].
  repeat (apply Forall2_cons; split;
          [ first [ apply flag_term; assumption
                  | apply no_worse_refl, fmul_valid; assumption ] | ]).
  apply Forall2_nil. exact I.
Qed.

End Monotonicity.

Lemma clamp_no_worse (a a' : float) :
  no_worse a a' ->
  flt (clamp a') (clamp a) = false /\
  (is_nan (clamp a) = false -> is_nan (clamp a') = false ->
   fle (clamp a) (clamp a') = true).
Proof.
  intros (_ & _ & [H|[H|H]]).
  - destruct a; try discriminate H. rewrite clamp_nan.
    split; [ | discriminate ].
    unfold flt, SFltb. destruct (clamp a'); reflexivity.
  - destruct a'; try discriminate H. rewrite clamp_nan.
    split; [ reflexivity | discriminate ].
  - pose proof (clamp_mono a a' H) as Hc. split.
    + apply fge_not_flt. exact Hc.
    + intros _ _. exact Hc.
Qed.

(** X1.  For valid floats throughout (as every Python float is), fixed visual
    signals and a weight table whose five symptom weights are at least 0.0,
    raising symptom flags from false to true never decreases the risk score:
    the new score is not below the old one, and is at least the old one
    whenever both are numbers. *)
Theorem symptom_flags_never_decrease_score (self : Scoring.RiskScorer)
    (sig : FeatureSignals) (sy sy' : Scoring.SymptomInputs) :
  Forall (fun k => valid (Scoring.weights_get self k) = true) relevant_keys ->
  Forall (fun v => valid v = true)
    [ periwound_redness sig; exudate_proxy sig;
      dark_tissue_proxy sig; swelling_proxy sig ] ->
  Forall (fun k => fle f0_0 (Scoring.weights_get self k) = true)
    Scoring._symptom_signal_names ->
  flags_le sy sy' ->
  let old := Scoring.risk_score (Scoring.score self sig (Some sy)) in
  let new := Scoring.risk_score (Scoring.score self sig (Some sy')) in
  flt new old = false /\
  (is_nan old = false -> is_nan new = false -> fle old new = true).
Proof.
  intros Hvw Hvs Hnn Hfl. cbv zeta. rewrite !score_risk_score.
  apply clamp_no_worse. apply accumulate_no_worse; assumption.
Qed.

Lemma symptom_flags_never_decrease_score_witness :
  flt (Scoring.risk_score (Scoring.score drainage_scorer zero_signals (Some drainage_only)))
      (Scoring.risk_score (Scoring.score drainage_scorer zero_signals (Some no_symptoms)))
  = false.
Proof.
  apply (symptom_flags_never_decrease_score drainage_scorer zero_signals
           no_symptoms drainage_only).
  - repeat (apply Forall_cons; split; [ vm_compute; reflexivity | ]). constructor.
  - repeat (apply Forall_cons; split; [ vm_compute; reflexivity | ]). constructor.
  - repeat (apply Forall_cons; split; [ vm_compute; reflexivity | ]). constructor.
  - unfold flags_le. cbn. repeat split; intros H; try discriminate H; reflexivity.
Defined.

(** The drainage scenario of the specification: no visual signal, drainage
    reported with weight 0.4. *)
Example drainage_scenario :
  let r := Scoring.score drainage_scorer zero_signals (Some drainage_only) in
  Scoring.risk_score r = f0_4 /\ Scoring.risk_level r = "medium" /\
  Scoring.explanation r =
    "Estimated risk level: medium. No strong visual cues like redness, drainage, or swelling were detected. Reported symptoms include drainage/pus. This is a triage support estimate, not a diagnosis.".
Proof. vm_compute. repeat split; reflexivity. Qed.

Section Explanation.
Import Scoring.

Lemma visual_summary_of_signals (self : RiskScorer) (sig : FeatureSignals) :
  _visual_summary (map (spec_detail self) (signals_as_dict sig)) =
  visual_fragment sig.
Proof.
  unfold _visual_summary, visual_fragment, visual_cues, cue_if, signal_map.
  cbn [signals_as_dict map fold_left spec_detail name value fst snd].
  rewrite !lookup_insert_eq.
  rewrite !(lookup_insert_ne _ "swelling_proxy") by discriminate.
  rewrite !lookup_insert_eq.
  rewrite !(lookup_insert_ne _ "dark_tissue_proxy") by discriminate.
  rewrite !lookup_insert_eq.
  rewrite !(lookup_insert_ne _ "exudate_proxy") by discriminate.
  rewrite !lookup_insert_eq.
  cbn [default from_option]. unfold id.
  destruct (fge (periwound_redness sig) f0_35),
           (fge (exudate_proxy sig) f0_25),
           (fge (dark_tissue_proxy sig) f0_2),
           (fge (swelling_proxy sig) f0_2); reflexivity.
Qed.


Lemma symptom_summary_of_flags (self : RiskScorer) (sig : FeatureSignals)
    (sy : SymptomInputs) :
  _symptom_summary
    (filter (fun d => Is_true (Py.mem (name d) _symptom_signal_names
                               && fgt (value d) f0_5))
       (map (spec_detail self) (scored_items sig (Some sy)))) =
  symptom_fragment (Some sy).
Proof.
  destruct sy as [[] [] [] [] []]; reflexivity.
Qed.

End Explanation.

Section ExplanationText.
Import Scoring.

Lemma explanation_spec (self : RiskScorer) (sig : FeatureSignals)
    (sym : option SymptomInputs) :
  explanation (score self sig sym) =
  "Estimated risk level: " +:+ risk_level (score self sig sym) +:+ ". "
    +:+ visual_fragment sig +:+ " " +:+ symptom_fragment sym +:+ " "
    +:+ "This is a triage support estimate, not a diagnosis.".
Proof.
  unfold score. rewrite accumulate_spec.
  cbn [explanation risk_level]. unfold _explanation. cbv zeta.
  assert (Hvis :
    filter (fun d => Is_true (Py.mem (name d) _visual_signal_names))
      (map (spec_detail self) (scored_items sig sym)) =
    map (spec_detail self) (signals_as_dict sig)).
  { destruct sym; reflexivity. }
  rewrite Hvis, visual_summary_of_signals.
  destruct sym as [sy|].
  - rewrite symptom_summary_of_flags. reflexivity.
  - reflexivity.
Qed.

Lemma risk_level_cases (x : float) :
  _risk_level x = "low" \/ _risk_level x = "medium" \/ _risk_level x = "high".
Proof.
  unfold _risk_level.
  destruct (fge x f0_66); [ auto | ]. destruct (fge x f0_33); auto.
Qed.

Lemma risk_level_nan (x : float) : is_nan x = true -> _risk_level x = "low".
Proof. destruct x; try discriminate. reflexivity. Qed.

Lemma score_steps (self : RiskScorer) (sig : FeatureSignals)
    (sym : option SymptomInputs) :
  recommended_next_steps (score self sig sym) =
  _recommended_steps (risk_level (score self sig sym)).
Proof.
  unfold score. destruct (accumulate self sig sym) as [ws ds]. reflexivity.
Qed.

End ExplanationText.

(** X2.  The explanation text of every result is the sentence naming the
    risk level, then the visual fragment, then the symptom fragment, then
    the fixed closing sentence.  The visual fragment depends on the four
    signal values only (each compared with its own threshold, in the fixed
    order); the symptom fragment depends on the flags only (the phrases of
    the raised flags in declaration order, or the fixed sentence when no
    flag is raised or no questionnaire is given).  The weight table enters
    the text through the risk level alone: a raised flag is listed even when
    its weight is zero or missing. *)
Theorem explanation_is_level_visual_and_symptom_fragments
    (self : Scoring.RiskScorer) (sig : FeatureSignals)
    (sym : option Scoring.SymptomInputs) :
  Scoring.explanation (Scoring.score self sig sym) =
  "Estimated risk level: " +:+ Scoring.risk_level (Scoring.score self sig sym)
    +:+ ". " +:+ visual_fragment sig +:+ " " +:+ symptom_fragment sym
    +:+ " This is a triage support estimate, not a diagnosis.".
Proof. apply explanation_spec. Qed.

(** X3.  Whatever the weights, signals and symptoms, the risk level of a
    result is one of low, medium and high, and the result carries exactly
    two recommended steps; a score that is not a number gets the level low
    and the steps of the level low. *)
Theorem level_is_one_of_three_and_nan_is_low (self : Scoring.RiskScorer)
    (sig : FeatureSignals) (sym : option Scoring.SymptomInputs) :
  let r := Scoring.score self sig sym in
  (Scoring.risk_level r = "low" \/ Scoring.risk_level r = "medium" \/
   Scoring.risk_level r = "high") /\
  length (Scoring.recommended_next_steps r) = 2%nat /\
  (is_nan (Scoring.risk_score r) = true ->
   Scoring.risk_level r = "low" /\
   Scoring.recommended_next_steps r = Scoring._recommended_steps "low").
Proof.
  cbv zeta. rewrite score_steps, score_risk_level.
  set (x := Scoring.risk_score _).
  split; [ apply risk_level_cases | ]. split.
  - destruct (risk_level_cases x) as [H|[H|H]]; rewrite H; reflexivity.
  - intros Hn. rewrite (risk_level_nan x Hn). split; reflexivity.
Qed.

Lemma level_is_one_of_three_and_nan_is_low_witness :
  is_nan (Scoring.risk_score (Scoring.score nan_bias_scorer zero_signals None)) = true /\
  Scoring.risk_level (Scoring.score nan_bias_scorer zero_signals None) = "low".
Proof.
  assert (H : is_nan (Scoring.risk_score
                        (Scoring.score nan_bias_scorer zero_signals None)) = true).
  { vm_compute. reflexivity. }
  split; [ exact H | ].
  exact (proj1 (proj2 (proj2
    (level_is_one_of_three_and_nan_is_low nan_bias_scorer zero_signals None)) H)).
Defined.

Section NoFlags.
Import Scoring.

Lemma same_number_refl (a : float) : same_number a a.
Proof. left. reflexivity. Qed.

Lemma fadd_zero_same_number (a b : float) (s : bool) :
  same_number a b -> same_number (fadd a (S754_zero s)) b.
Proof.
  intros [->|(s1 & s2 & -> & ->)].
  - destruct b as [s'|s'| |s' m e]; try (left; reflexivity).
    right. destruct s, s'; eexists _, _; split; reflexivity.
  - right. destruct s, s1; eexists _, _; split; reflexivity.
Qed.

Lemma fold_zero_terms (ts : list float) (a b : float) :
  Forall (fun t => exists s, t = S754_zero s) ts ->
  same_number a b -> same_number (fold_left fadd ts a) b.
Proof.
  intros H. revert a. induction H as [|t ts [s ->] _ IH]; intros a Hab.
  - exact Hab.
  - cbn [fold_left]. apply IH, fadd_zero_same_number, Hab.
Qed.

Lemma clamp_same_number (a b : float) :
  same_number a b -> same_number (clamp a) (clamp b).
Proof.
  intros [->|(s1 & s2 & -> & ->)]; [ left; reflexivity | ].
  right. exists s1, s2. destruct s1, s2; split; reflexivity.
Qed.

Lemma risk_level_same_number (a b : float) :
  same_number a b -> _risk_level a = _risk_level b.
Proof.
  intros [->|(s1 & s2 & -> & ->)]; [ reflexivity | ].
  destruct s1, s2; reflexivity.
Qed.

Lemma no_flag_terms (self : RiskScorer) :
  Forall (fun k => is_finite (weights_get self k) = true) _symptom_signal_names ->
  Forall (fun t => exists s, t = S754_zero s)
    (terms self (symptoms_as_dict no_symptoms)).
Proof.
  intros H. unfold _symptom_signal_names in H.
  rewrite !Forall_cons in H. destruct H as (H1 & H2 & H3 & H4 & H5 & _).
  cbn [terms map symptoms_as_dict no_symptoms reported_pain reported_warmth
       reported_swelling reported_drainage reported_spreading_redness
       Py.float_of_flag].
  repeat constructor; apply fmul_finite_zero; assumption.
Qed.

Lemma accumulate_no_flags (self : RiskScorer) (sig : FeatureSignals) :
  Forall (fun k => is_finite (weights_get self k) = true) _symptom_signal_names ->
  same_number (fst (accumulate self sig (Some no_symptoms)))
              (fst (accumulate self sig None)).
Proof.
  intros H. rewrite !accumulate_items, !score_loop_terms.
  rewrite app_nil_r. unfold terms at 1. rewrite map_app, fold_left_app.
  apply fold_zero_terms; [ apply no_flag_terms, H | apply same_number_refl ].
Qed.

End NoFlags.

(** X4.  A questionnaire with no flag raised is scored like no
    questionnaire at all, as long as the five symptom weights are finite:
    the score is the same number, and the risk level, the explanation and
    the recommended steps are equal.  (An infinite symptom weight breaks
    it: infinity times 0.0 is not a number.) *)
Theorem no_flags_raised_scores_like_no_questionnaire
    (self : Scoring.RiskScorer) (sig : FeatureSignals) :
  Forall (fun k => is_finite (Scoring.weights_get self k) = true)
    Scoring._symptom_signal_names ->
  let r := Scoring.score self sig (Some no_symptoms) in
  let r0 := Scoring.score self sig None in
  same_number (Scoring.risk_score r) (Scoring.risk_score r0) /\
  Scoring.risk_level r = Scoring.risk_level r0 /\
  Scoring.explanation r = Scoring.explanation r0 /\
  Scoring.recommended_next_steps r = Scoring.recommended_next_steps r0.
Proof.
  intros H. cbv zeta.
  assert (Hs : same_number
                 (Scoring.risk_score (Scoring.score self sig (Some no_symptoms)))
                 (Scoring.risk_score (Scoring.score self sig None))).
  { rewrite !score_risk_score. apply clamp_same_number, accumulate_no_flags, H. }
  assert (Hl : Scoring.risk_level (Scoring.score self sig (Some no_symptoms)) =
               Scoring.risk_level (Scoring.score self sig None)).
  { rewrite !score_risk_level. apply risk_level_same_number, Hs. }
  split; [ exact Hs | ]. split; [ exact Hl | ]. split.
  - rewrite !explanation_spec, Hl. reflexivity.
  - rewrite !score_steps, Hl. reflexivity.
Qed.

Lemma no_flags_raised_scores_like_no_questionnaire_witness :
  Forall (fun k => is_finite (Scoring.weights_get drainage_scorer k) = true)
    Scoring._symptom_signal_names /\
  Scoring.explanation (Scoring.score drainage_scorer scenario_signals (Some no_symptoms)) =
  Scoring.explanation (Scoring.score drainage_scorer scenario_signals None).
Proof.
  assert (H : Forall (fun k => is_finite (Scoring.weights_get drainage_scorer k) = true)
                Scoring._symptom_signal_names).
  { repeat constructor. }
  split; [ exact H | ].
  exact (proj1 (proj2 (proj2
    (no_flags_raised_scores_like_no_questionnaire drainage_scorer scenario_signals H)))).
Defined.

(** An infinite symptom weight: the unraised flag turns the score into
    not-a-number. *)
Example infinite_weight_breaks_no_flags :
  let self := scorer_of [("bias", f0_5); ("reported_pain", S754_infinity false)] in
  Scoring.risk_score (Scoring.score self zero_signals None) = f0_5 /\
  Scoring.risk_score (Scoring.score self zero_signals (Some no_symptoms)) = S754_nan.
Proof. split; vm_compute; reflexivity. Qed.

(* ===================================================================== *)
(** ** The periwound ring and the failures of segmentation *)
(* ===================================================================== *)

Section Ring.
Import Features.

Lemma zip_with_ext_Forall {A B C} (P : A -> Prop) (Q : B -> Prop)
    (f g : A -> B -> C) (a : list A) (b : list B) :
  (forall x y, P x -> Q y -> f x y = g x y) ->
  Forall P a -> Forall Q b -> zip_with f a b = zip_with g a b.
Proof.
  intros Hfg Ha. revert b. induction Ha as [|x a Hx _ IH]; intros b Hb.
  - reflexivity.
  - destruct Hb as [|y b Hy Hb]; [ reflexivity | ].
    cbn [zip_with]. rewrite (Hfg x y Hx Hy), (IH b Hb). reflexivity.
Qed.

Lemma azip_ext_Forall {A B C} (P : A -> Prop) (Q : B -> Prop)
    (f g : A -> B -> C) (a : ndarray A) (b : ndarray B) :
  (forall x y, P x -> Q y -> f x y = g x y) ->
  Forall (Forall P) a -> Forall (Forall Q) b -> azip f a b = azip g a b.
Proof.
  intros Hfg Ha Hb. unfold azip.
  apply (zip_with_ext_Forall (Forall P) (Forall Q)); [ | exact Ha | exact Hb ].
  intros ra rb Hra Hrb. apply (zip_with_ext_Forall P Q); assumption.
Qed.

Lemma ring_cell (d e : Z) :
  0 <= d <= 255 -> 0 <= e <= 255 ->
  Z.min (Z.max ((d - e) mod 256) 0) 1 = if d =? e then 0 else 1.
Proof.
  intros Hd He. destruct (Z.eqb_spec d e) as [->|Hne].
  - rewrite Z.sub_diag. reflexivity.
  - destruct (Z.lt_ge_cases d e) as [Hlt|Hge].
    + rewrite <- (Z.mod_unique (d - e) 256 (-1) (d - e + 256)); lia.
    + rewrite Z.mod_small; lia.
Qed.

Lemma ring_cell_binary (d e : Z) :
  let v := Z.min (Z.max ((d - e) mod 256) 0) 1 in v = 0 \/ v = 1.
Proof. cbv zeta. pose proof (Z.mod_pos_bound (d - e) 256 ltac:(lia)). lia. Qed.

Lemma azip_Forall {A B C} (R : C -> Prop) (f : A -> B -> C)
    (a : ndarray A) (b : ndarray B) :
  (forall x y, R (f x y)) -> Forall (Forall R) (azip f a b).
Proof.
  intros HR. unfold azip. revert b.
  induction a as [|ra a IH]; intros [|rb b]; try constructor; [ | apply IH ].
  revert rb. induction ra as [|x ra IHr]; intros [|y rb]; constructor;
    [ apply HR | apply IHr ].
Qed.

End Ring.

(** X5.  Every cell of the periwound ring is 0 or 1.  When the dilated and
    the eroded mask hold unsigned bytes, the ring is 1 exactly on the cells
    where the two differ: the byte subtraction wraps around, so a cell whose
    eroded value exceeds its dilated value is marked as well. *)
Theorem periwound_ring_marks_differences (cv : Features.OpenCV)
    (wound_mask : Features.ndarray Z) (ring_width : Z) :
  Forall (Forall (fun v => v = 0 \/ v = 1))
    (Features._periwound_ring cv wound_mask ring_width) /\
  (byte_cells (Features.dilate cv wound_mask ring_width) ->
   byte_cells (Features.erode cv wound_mask ring_width) ->
   Features._periwound_ring cv wound_mask ring_width =
   differ (Features.dilate cv wound_mask ring_width)
          (Features.erode cv wound_mask ring_width)).
Proof.
  split.
  - unfold Features._periwound_ring. apply azip_Forall.
    intros d e. apply ring_cell_binary.
  - intros Hd He. unfold Features._periwound_ring, differ.
    apply (azip_ext_Forall (fun v => 0 <= v <= 255) (fun v => 0 <= v <= 255));
      [ apply ring_cell | exact Hd | exact He ].
Qed.

Lemma periwound_ring_marks_differences_witness :
  byte_cells (Features.dilate spreading_cv [[1; 0]; [0; 0]] 18) /\
  byte_cells (Features.erode spreading_cv [[1; 0]; [0; 0]] 18) /\
  Features._periwound_ring spreading_cv [[1; 0]; [0; 0]] 18 = [[1; 1]; [1; 1]].
Proof.
  assert (Hd : byte_cells (Features.dilate spreading_cv [[1; 0]; [0; 0]] 18)).
  { repeat constructor; lia. }
  assert (He : byte_cells (Features.erode spreading_cv [[1; 0]; [0; 0]] 18)).
  { repeat constructor; lia. }
  split; [ exact Hd | ]. split; [ exact He | ].
  rewrite (proj2 (periwound_ring_marks_differences spreading_cv [[1; 0]; [0; 0]] 18)
             Hd He).
  reflexivity.
Defined.

Section Failures.
Import Features.

Variable cv : OpenCV.

Lemma extract_raise_iff (img : Image) (e : Py.exn) :
  extract cv img = Py.Raise e <->
  grabCut cv img (rect_of img) 5 = Py.Raise e /\ e <> Py.cv2_error.
Proof.
  unfold extract.
  pose proof (segment_wound_cases cv img) as Hc.
  destruct (grabCut cv img (rect_of img) 5) as [mask|e'].
  - rewrite Hc. cbn [Py.bind]. split; [ discriminate | ].
    intros [H _]. discriminate H.
  - destruct e'; rewrite Hc; cbn [Py.bind];
      first [ split; [ discriminate | intros [H Hne]; congruence ]
            | split; [ intros H; split; congruence | intros [H _]; congruence ] ].
Qed.

Lemma predict_raise_iff (scorer : Scoring.RiskScorer) (img : Image) (e : Py.exn) :
  predict cv scorer img = Py.Raise e <-> extract cv img = Py.Raise e.
Proof.
  unfold predict.
  destruct (extract cv img) as [sig|e']; cbn [Py.bind]; split;
    first [ discriminate | congruence ].
Qed.

End Failures.

(** X6.  [extract] and [predict] fail on exactly one occasion: [grabCut]
    raises something other than [cv2.error].  That exception is then the
    one they raise; the Otsu fallback is not tried and no result is
    produced, whatever the scorer. *)
Theorem extract_fails_exactly_on_uncaught_grabcut_errors
    (cv : Features.OpenCV) (scorer : Scoring.RiskScorer)
    (img : Features.Image) (e : Py.exn) :
  (Features.extract cv img = Py.Raise e <->
   Features.grabCut cv img (Features.rect_of img) 5 = Py.Raise e /\
   e <> Py.cv2_error) /\
  (Features.predict cv scorer img = Py.Raise e <->
   Features.extract cv img = Py.Raise e).
Proof.
  split; [ apply extract_raise_iff | apply predict_raise_iff ].
Qed.

(** A type error of [grabCut], as for an image of the wrong depth, reaches
    the caller of [predict]. *)
Example type_error_reaches_the_caller :
  Features.predict (failing_cv Py.TypeError) bias5_scorer toy_image =
  Py.Raise Py.TypeError.
Proof. reflexivity. Qed.
(* ===================================================================== *)
(** ** The extremes of a fraction over a region *)
(* ===================================================================== *)

Section Extremes.
Import Features.

(** A normal number divided by itself is 1.0. *)
Lemma fdiv_self (m : positive) (e : Z) :
  2 ^ 52 <= Zpos m < 2 ^ 53 ->
  fdiv (S754_finite false m e) (S754_finite false m e) = f1_0.
Proof.
  intros Hm.
  unfold fdiv, SFdiv, SFdiv_core_binary. cbn [Zdigits2 xorb].
  rewrite (digits_normal m Hm).
  replace (Z.min (fexp prec emax (53 + e - (53 + e))) (e - e))
    with (-53) by (rewrite fexp_eq; lia).
  replace (e - e - -53) with 53 by lia.
  rewrite Z.shiftl_mul_pow2 by lia.
  pose proof (Z_div_mod (Zpos m * 2 ^ 53) (Zpos m) ltac:(lia)) as Hdm.
  destruct (Z.div_eucl (Zpos m * 2 ^ 53) (Zpos m)) as [q r].
  destruct Hdm as [Hq Hr].
  assert (Hq53 : q = 2 ^ 53 /\ r = 0).
  { assert (Zpos m * (2 ^ 53 - q) = r) by lia.
    assert (2 ^ 53 - q = 0) by nia. lia. }
  destruct Hq53 as [-> ->].
  rewrite new_location_zero. vm_compute. reflexivity.
Qed.

Lemma of_Z_self_quotient (n : Z) :
  0 < n < 2 ^ 53 -> fdiv (of_Z n) (of_Z n) = f1_0.
Proof.
  intros Hn. destruct n as [|p|p]; try lia.
  destruct (of_Z_small p ltac:(lia)) as (m & -> & _ & Hm).
  apply fdiv_self, Hm.
Qed.

Lemma of_Z_zero_quotient (n : Z) :
  0 < n < 2 ^ 53 -> fdiv (of_Z 0) (of_Z n) = f0_0.
Proof.
  intros Hn. destruct n as [|p|p]; try lia.
  destruct (of_Z_small p ltac:(lia)) as (m & -> & _ & Hm).
  reflexivity.
Qed.

Lemma filter_all (cells : list bool) :
  Forall (fun b => b = true) cells -> List.filter id cells = cells.
Proof.
  induction 1 as [|b cells -> _ IH]; [ reflexivity | ].
  cbn. rewrite IH. reflexivity.
Qed.

Lemma filter_none (cells : list bool) :
  Forall (fun b => b = false) cells -> List.filter id cells = [].
Proof.
  induction 1 as [|b cells -> _ IH]; [ reflexivity | ]. cbn. exact IH.
Qed.

Lemma mean_extremes (cells : list bool) :
  (0 < length cells)%nat -> Z.of_nat (length cells) < 2 ^ 53 ->
  (Forall (fun b => b = true) cells -> mean cells = f1_0) /\
  (Forall (fun b => b = false) cells -> mean cells = f0_0).
Proof.
  intros Hpos Hsmall. unfold mean. split; intros H.
  - rewrite (filter_all cells H). apply of_Z_self_quotient. lia.
  - rewrite (filter_none cells H). apply of_Z_zero_quotient. lia.
Qed.

Lemma region_fraction_extremes (marked : ndarray bool) (mask : ndarray Z) :
  same_shape marked mask -> ncells mask < 2 ^ 53 ->
  count_true (astype_bool mask) <> 0 ->
  (Forall (fun b => b = true) (select (astype_bool mask) marked) ->
   region_fraction marked mask = f1_0) /\
  (Forall (fun b => b = false) (select (astype_bool mask) marked) ->
   region_fraction marked mask = f0_0).
Proof.
  intros Hshape Hsmall Hne. unfold region_fraction.
  destruct (Z.eqb_spec (count_true (astype_bool mask)) 0) as [Hz|_];
    [ contradiction | ].
  assert (Hsh : same_shape (astype_bool mask) marked).
  { eapply same_shape_trans; [ apply same_shape_amap | apply same_shape_sym, Hshape ]. }
  pose proof (select_length (astype_bool mask) marked Hsh) as Hlen.
  pose proof (count_true_le (astype_bool mask)) as Hle.
  rewrite (ncells_same_shape (astype_bool mask) mask (same_shape_amap _ _)) in Hle.
  assert (0 <= count_true (astype_bool mask)) by (unfold count_true; lia).
  apply mean_extremes; lia.
Qed.

Lemma select_amap {A B} (f : A -> B) (region : ndarray bool) (a : ndarray A) :
  select region (amap f a) = map f (select region a).
Proof.
  unfold select, amap. revert a.
  induction region as [|rr region IH]; intros [|ra a]; try reflexivity.
  cbn [map zip_with concat]. rewrite map_app, <- IH. f_equal.
  clear. revert ra. induction rr as [|b rr IHr]; intros [|x ra]; try reflexivity.
  cbn. destruct b; cbn; rewrite IHr; reflexivity.
Qed.

End Extremes.

Section ProxyExtremes.
Import Features.

Lemma predicate_fraction_extremes {A} (p : A -> bool) (a : ndarray A)
    (mask : ndarray Z) :
  same_shape a mask -> ncells mask < 2 ^ 53 ->
  count_true (astype_bool mask) <> 0 ->
  (Forall (fun x => p x = true) (select (astype_bool mask) a) ->
   region_fraction (amap p a) mask = f1_0) /\
  (Forall (fun x => p x = false) (select (astype_bool mask) a) ->
   region_fraction (amap p a) mask = f0_0).
Proof.
  intros Hshape Hsmall Hne.
  assert (Hsh : same_shape (amap p a) mask).
  { eapply same_shape_trans; [ apply same_shape_amap | exact Hshape ]. }
  destruct (region_fraction_extremes (amap p a) mask Hsh Hsmall Hne) as [H1 H0].
  rewrite select_amap in H1, H0.
  split; intros H; [ apply H1 | apply H0 ]; apply List.Forall_map; exact H.
Qed.

End ProxyExtremes.

(** X7.  Over a non-empty region of an image of fewer than 2^53 pixels,
    each proxy is exactly 1.0 when every pixel of the region passes its
    test, and exactly 0.0 when none does: dark tissue tests the value
    channel below 40, exudate tests hue strictly between 20 and 90 with
    saturation above 60 and value above 80, redness tests hue below 10 or
    above 160 with saturation above 80, swelling tests for an edge cell. *)
Theorem proxies_reach_their_extremes (cv : Features.OpenCV)
    (img : Features.Image) (mask : Features.ndarray Z) :
  shape_preserving cv -> same_shape mask img -> ncells img < 2 ^ 53 ->
  Features.count_true (Features.astype_bool mask) <> 0 ->
  let region := Features.astype_bool mask in
  let pixels := Features.select region (Features.cvtColor_BGR2HSV cv img) in
  let edges :=
    Features.select region
      (Features.Canny cv (Features.cvtColor_BGR2GRAY cv img) 60 120) in
  let dark := fun '(_, _, v) => v <? 40 in
  let exudate := fun '(h, s, v) => (h >? 20) && (h <? 90) && (s >? 60) && (v >? 80) in
  let red := fun '(h, s, _) => ((h <? 10) || (h >? 160)) && (s >? 80) in
  (Forall (fun px : Z * Z * Z => dark px = true) pixels ->
     Features._dark_tissue_proxy cv img mask = f1_0) /\
  (Forall (fun px : Z * Z * Z => dark px = false) pixels ->
     Features._dark_tissue_proxy cv img mask = f0_0) /\
  (Forall (fun px : Z * Z * Z => exudate px = true) pixels ->
     Features._exudate_proxy cv img mask = f1_0) /\
  (Forall (fun px : Z * Z * Z => exudate px = false) pixels ->
     Features._exudate_proxy cv img mask = f0_0) /\
  (Forall (fun px : Z * Z * Z => red px = true) pixels ->
     Features._periwound_redness cv img mask = f1_0) /\
  (Forall (fun px : Z * Z * Z => red px = false) pixels ->
     Features._periwound_redness cv img mask = f0_0) /\
  (Forall (fun v => (v >? 0) = true) edges ->
     Features._swelling_proxy cv img mask = f1_0) /\
  (Forall (fun v => (v >? 0) = false) edges ->
     Features._swelling_proxy cv img mask = f0_0).
Proof.
  intros Hcv Hshape Hsmall Hne. cbv zeta.
  assert (Hmask : ncells mask < 2 ^ 53).
  { rewrite (ncells_same_shape mask img Hshape). exact Hsmall. }
  assert (Hhsv : same_shape (Features.cvtColor_BGR2HSV cv img) mask).
  { eapply same_shape_trans; [ apply (hsv_shape cv Hcv) | ].
    apply same_shape_sym, Hshape. }
  assert (Hedge : same_shape
            (Features.Canny cv (Features.cvtColor_BGR2GRAY cv img) 60 120) mask).
  { eapply same_shape_trans; [ apply (canny_shape cv Hcv) | ].
    eapply same_shape_trans; [ apply (gray_shape cv Hcv) | ].
    apply same_shape_sym, Hshape. }
  unfold Features._dark_tissue_proxy, Features._exudate_proxy,
    Features._periwound_redness, Features._swelling_proxy. cbv zeta.
  repeat split;
    first [ apply (predicate_fraction_extremes _ _ mask Hhsv Hmask Hne)
          | apply (predicate_fraction_extremes _ _ mask Hedge Hmask Hne) ].
Qed.

Lemma proxies_reach_their_extremes_witness :
  shape_preserving (toy_cv false) /\
  same_shape [[1; 0]; [0; 0]] toy_image /\
  Features._dark_tissue_proxy (toy_cv false) toy_image [[1; 0]; [0; 0]] = f1_0 /\
  Features._exudate_proxy (toy_cv false) toy_image [[1; 0]; [0; 0]] = f0_0.
Proof.
  assert (Hsh : same_shape (B := Z * Z * Z) [[1; 0]; [0; 0]] toy_image)
    by reflexivity.
  assert (Hn : ncells toy_image < 2 ^ 53) by (vm_compute; reflexivity).
  assert (Hne : Features.count_true (Features.astype_bool [[1; 0]; [0; 0]]) <> 0)
    by (vm_compute; discriminate).
  pose proof (proxies_reach_their_extremes (toy_cv false) toy_image
                [[1; 0]; [0; 0]] (toy_cv_shapes false) Hsh Hn Hne) as H.
  cbv zeta in H.
  destruct H as (Hdark & _ & _ & Hexu & _).
  split; [ apply toy_cv_shapes | ]. split; [ exact Hsh | ]. split.
  - apply Hdark. repeat constructor.
  - apply Hexu. repeat constructor.
Defined.

(* ===================================================================== *)
(** ** The registry *)
(* ===================================================================== *)

Section RegistryFacts.

Variable u : Py.Unicode.
Variable files : string -> Py.result Scoring.yaml.

Lemma load_model_other_name (model_name weights_path : string)
    (model_path : option string) :
  model_name <> "torch" ->
  Registry.load_model u files model_name weights_path model_path =
  Py.bind (Scoring.__init__ u (files weights_path)) (fun scorer =>
    Py.Ok (Registry.HeuristicRiskModel weights_path scorer)).
Proof.
  intros Hne. unfold Registry.load_model.
  destruct (String.eqb_spec model_name "torch"); [ contradiction | reflexivity ].
Qed.

Lemma load_heuristic (weights_path : string) :
  Registry.load_model u files "heuristic" weights_path None =
  Py.bind (Scoring.__init__ u (files weights_path)) (fun scorer =>
    Py.Ok (Registry.HeuristicRiskModel weights_path scorer)).
Proof. apply load_model_other_name. discriminate. Qed.

End RegistryFacts.

(** X8.  [load_model] knows one special name.  Under any name other than
    the exact string torch it builds the heuristic model, whatever
    [model_path] is: loading fails exactly as the construction of the scorer
    from the weight file fails, and the loaded model predicts what extractor
    and scorer give.  Under the name torch the weight file is not read:
    without a model path the call raises [ValueError], with one it returns
    the stub, and the stub's [predict] raises [NotImplementedError] for
    every image. *)
Theorem load_model_has_one_special_name (u : Py.Unicode)
    (files : string -> Py.result Scoring.yaml) (model_name weights_path : string)
    (model_path : option string) (cv : Features.OpenCV) (img : Features.Image) :
  (model_name <> "torch" ->
   Registry.load_model u files model_name weights_path model_path =
     Registry.load_model u files "heuristic" weights_path None /\
   (forall e, Registry.load_model u files model_name weights_path model_path = Py.Raise e <->
              Scoring.__init__ u (files weights_path) = Py.Raise e) /\
   (forall model,
      Registry.load_model u files model_name weights_path model_path = Py.Ok model ->
      exists scorer,
        Scoring.__init__ u (files weights_path) = Py.Ok scorer /\
        Registry.predict cv model img =
          Registry.lift (Features.predict cv scorer img))) /\
  (model_name = "torch" ->
   (forall files',
      Registry.load_model u files model_name weights_path model_path =
      Registry.load_model u files' model_name weights_path model_path) /\
   (model_path = None ->
      Registry.load_model u files model_name weights_path model_path =
      Py.Raise Py.ValueError) /\
   (forall model,
      Registry.load_model u files model_name weights_path model_path = Py.Ok model ->
      Registry.predict cv model img = Registry.Raise Registry.NotImplementedError)).
Proof.
  split.
  - intros Hne. rewrite load_heuristic, (load_model_other_name _ _ _ _ _ Hne).
    split; [ reflexivity | ].
    destruct (Scoring.__init__ u (files weights_path)) as [scorer|e0]; cbn [Py.bind].
    + split; [ intros e; split; discriminate | ].
      intros model H. injection H as <-. exists scorer. split; reflexivity.
    + split; [ intros e; split; congruence | ]. intros model H. discriminate H.
  - intros ->. unfold Registry.load_model. cbn [String.eqb Ascii.eqb Bool.eqb].
    split; [ reflexivity | ]. split.
    + intros ->. reflexivity.
    + intros model H. destruct model_path; [ | discriminate H ].
      injection H as <-. reflexivity.
Qed.

Lemma load_model_has_one_special_name_witness :
  "Torch" <> "torch" /\
  Registry.load_model basic_unicode toy_files "Torch" "weights.yaml" (Some "model.pt") =
  Registry.load_model basic_unicode toy_files "heuristic" "weights.yaml" None /\
  Registry.load_model basic_unicode no_files "torch" "weights.yaml" None = Py.Raise Py.ValueError.
Proof.
  assert (Hne : "Torch" <> "torch") by discriminate.
  split; [ exact Hne | ]. split.
  - exact (proj1 (proj1 (load_model_has_one_special_name basic_unicode toy_files "Torch"
             "weights.yaml" (Some "model.pt") (toy_cv false) toy_image) Hne)).
  - exact (proj1 (proj2 (proj2 (load_model_has_one_special_name basic_unicode no_files "torch"
             "weights.yaml" None (toy_cv false) toy_image) eq_refl)) eq_refl).
Defined.
(* ===================================================================== *)
(** ** The upload endpoint *)
(* ===================================================================== *)

Section Endpoint.

Lemma not_allowed_false_iff (content_type : option string) :
  Api.not_allowed content_type = false <-> allowed_type content_type.
Proof.
  unfold allowed_type, Api.not_allowed. destruct content_type as [t|].
  - rewrite negb_false_iff. unfold Py.mem. rewrite existsb_exists. split.
    + intros (x & Hin & Heq). apply String.eqb_eq in Heq. subst x.
      exists t. split; [ reflexivity | exact Hin ].
    + intros (t' & Ht & Hin). injection Ht as <-.
      exists t. split; [ exact Hin | apply String.eqb_refl ].
  - split; [ discriminate | ]. intros (t & Ht & _). discriminate Ht.
Qed.

Lemma not_allowed_true_iff (content_type : option string) :
  Api.not_allowed content_type = true <-> ~ allowed_type content_type.
Proof.
  rewrite <- not_allowed_false_iff.
  destruct (Api.not_allowed content_type); split; congruence.
Qed.

(** The rendering refuses a result exactly when its score, or the value or
    weight of one of its signals, is not-a-number or infinite. *)
Lemma json_compliant_spec (r : Scoring.RiskResult) :
  is_finite (Scoring.risk_score r) = false \/
  Exists (fun d => is_finite (Scoring.value d) = false \/
                   is_finite (Scoring.weight d) = false) (Scoring.signals r) <->
  Api.json_compliant (Api.AssessResponse_of r) = false.
Proof.
  unfold Api.json_compliant.
  cbn [Api.AssessResponse_of Api.risk_score Api.signals].
  rewrite andb_false_iff. apply or_iff_compat_l.
  induction (Scoring.signals r) as [|d ds IH].
  - split; [ intros H; inversion H | discriminate ].
  - cbn [map forallb Api.Signal_of Api.value Api.weight].
    rewrite Exists_cons, andb_false_iff, andb_false_iff, IH. reflexivity.
Qed.

Variable u : Py.Unicode.
Variable cv : Features.OpenCV.
Variable imdecode : list Byte.byte -> Py.result (option Features.Image).
Variable files : string -> Py.result Scoring.yaml.
Variable root : string.

(** What [assess] does once the upload has passed the three checks. *)
Lemma assess_accepted (content_type : option string)
    (contents : list Byte.byte) (image : Features.Image) :
  allowed_type content_type ->
  Z.of_nat (length contents) <= 5242880 ->
  Api._decode_image imdecode contents = Some image ->
  Api.assess u cv imdecode files root content_type contents =
  match Scoring.__init__ u (files (weights_file root)) with
  | Py.Raise e => Api.Unhandled (Registry.Builtin e)
  | Py.Ok scorer =>
      match Features.extract cv image with
      | Py.Raise e => Api.Unhandled (Registry.Builtin e)
      | Py.Ok sig =>
          let content := Api.AssessResponse_of (Scoring.score scorer sig None) in
          if Api.json_compliant content then Api.JSONResponse content
          else Api.Unhandled (Registry.Builtin Py.ValueError)
      end
  end.
Proof.
  intros Ha Hlen Hdec. unfold Api.assess.
  apply not_allowed_false_iff in Ha. rewrite Ha.
  destruct (Z.gtb_spec (Z.of_nat (length contents)) Api.MAX_FILE_BYTES) as [Hgt|_].
  { unfold Api.MAX_FILE_BYTES in Hgt. lia. }
  rewrite Hdec, load_heuristic. fold (weights_file root).
  destruct (Scoring.__init__ u (files (weights_file root))) as [scorer|e];
    cbn [Py.bind]; [ | reflexivity ].
  cbn [Registry.predict]. unfold Features.predict.
  destruct (Features.extract cv image) as [sig|e]; reflexivity.
Qed.

Lemma assess_cases (content_type : option string) (contents : list Byte.byte) :
  (~ allowed_type content_type /\
   Api.assess u cv imdecode files root content_type contents =
   Api.HTTPException 400
     "Unsupported file type. Please upload a JPG or PNG image.") \/
  (allowed_type content_type /\ 5242880 < Z.of_nat (length contents) /\
   Api.assess u cv imdecode files root content_type contents =
   Api.HTTPException 400 "File too large. Limit is 5MB.") \/
  (allowed_type content_type /\ Z.of_nat (length contents) <= 5242880 /\
   Api._decode_image imdecode contents = None /\
   Api.assess u cv imdecode files root content_type contents =
   Api.HTTPException 400 "Unable to decode image.") \/
  (allowed_type content_type /\ Z.of_nat (length contents) <= 5242880 /\
   exists image, Api._decode_image imdecode contents = Some image).
Proof.
  unfold Api.assess.
  destruct (Api.not_allowed content_type) eqn:Ha.
  { left. split; [ apply not_allowed_true_iff, Ha | reflexivity ]. }
  apply not_allowed_false_iff in Ha. right.
  destruct (Z.gtb_spec (Z.of_nat (length contents)) Api.MAX_FILE_BYTES) as [Hgt|Hle];
    unfold Api.MAX_FILE_BYTES in *.
  { left. split; [ exact Ha | ]. split; [ lia | reflexivity ]. }
  right. destruct (Api._decode_image imdecode contents) as [image|] eqn:Hdec.
  - right. split; [ exact Ha | ]. split; [ lia | ]. exists image. reflexivity.
  - left. split; [ exact Ha | ]. split; [ lia | ]. split; reflexivity.
Qed.

Lemma accepted_is_not_rejected (content_type : option string)
    (contents : list Byte.byte) (image : Features.Image)
    (status : Z) (detail : string) :
  allowed_type content_type ->
  Z.of_nat (length contents) <= 5242880 ->
  Api._decode_image imdecode contents = Some image ->
  Api.assess u cv imdecode files root content_type contents <>
  Api.HTTPException status detail.
Proof.
  intros Ha Hlen Hdec. rewrite (assess_accepted _ _ image Ha Hlen Hdec).
  destruct (Scoring.__init__ _ _); [ | discriminate ].
  destruct (Features.extract cv image); [ | discriminate ].
  cbv zeta. destruct (Api.json_compliant _); discriminate.
Qed.

Lemma names_of_result (scorer : Scoring.RiskScorer) (sig : FeatureSignals) :
  map Api.name (Api.signals (Api.AssessResponse_of (Scoring.score scorer sig None))) =
  Scoring._visual_signal_names.
Proof.
  cbn [Api.AssessResponse_of Api.signals]. rewrite score_signals, accumulate_spec.
  reflexivity.
Qed.

End Endpoint.

(** X9.  [assess] raises an [HTTPException] in three situations and no
    other, always with status 400: the content type is missing or is not one
    of the four accepted ones (whatever the bytes are); else the upload is
    longer than 5242880 bytes (an upload of exactly 5242880 bytes passes);
    else the bytes do not decode to an image.  The checks come in this
    order, and neither the weight file nor the image routines can turn an
    accepted upload into an [HTTPException]. *)
Theorem assess_rejects_with_400_in_three_cases (u : Py.Unicode) (cv : Features.OpenCV)
    (imdecode : list Byte.byte -> Py.result (option Features.Image))
    (files : string -> Py.result Scoring.yaml) (root : string)
    (content_type : option string) (contents : list Byte.byte)
    (status : Z) (detail : string) :
  Api.assess u cv imdecode files root content_type contents =
    Api.HTTPException status detail <->
  status = 400 /\
  ((~ allowed_type content_type /\
    detail = "Unsupported file type. Please upload a JPG or PNG image.") \/
   (allowed_type content_type /\ 5242880 < Z.of_nat (length contents) /\
    detail = "File too large. Limit is 5MB.") \/
   (allowed_type content_type /\ Z.of_nat (length contents) <= 5242880 /\
    Api._decode_image imdecode contents = None /\
    detail = "Unable to decode image.")).
Proof.
  destruct (assess_cases u cv imdecode files root content_type contents)
    as [(Hna & Heq) | [(Ha & Hlen & Heq) | [(Ha & Hlen & Hdec & Heq)
        | (Ha & Hlen & image & Hdec)]]].
  - rewrite Heq. split.
    + intros H. injection H as <- <-. split; [ reflexivity | ]. left. split;
        [ exact Hna | reflexivity ].
    + intros (-> & [(_ & ->) | [(Ha & _) | (Ha & _)]]);
        [ reflexivity | contradiction | contradiction ].
  - rewrite Heq. split.
    + intros H. injection H as <- <-. split; [ reflexivity | ]. right. left.
      split; [ exact Ha | ]. split; [ exact Hlen | reflexivity ].
    + intros (-> & [(Hna & _) | [(_ & _ & ->) | (_ & Hle & _)]]);
        [ contradiction | reflexivity | lia ].
  - rewrite Heq. split.
    + intros H. injection H as <- <-. split; [ reflexivity | ]. right. right.
      split; [ exact Ha | ]. split; [ exact Hlen | ]. split; [ exact Hdec | reflexivity ].
    + intros (-> & [(Hna & _) | [(_ & Hgt & _) | (_ & _ & _ & ->)]]);
        [ contradiction | lia | reflexivity ].
  - split.
    + intros H. exfalso.
      exact (accepted_is_not_rejected u cv imdecode files root content_type contents
               image status detail Ha Hlen Hdec H).
    + intros (_ & [(Hna & _) | [(_ & Hgt & _) | (_ & _ & Hnone & _)]]);
        [ contradiction | lia | congruence ].
Qed.

(** X10.  When [assess] returns a response, the upload had an accepted
    content type, at most 5242880 bytes and decoded to an image; the weight
    file gave a scorer and the extractor gave signals; the content is the
    result of scoring those signals without symptoms, field for field.  So
    the response lists the four visual signals and no symptom, and its
    explanation carries the sentence that no symptoms were reported. *)
Theorem assess_response_is_the_symptomless_score (u : Py.Unicode) (cv : Features.OpenCV)
    (imdecode : list Byte.byte -> Py.result (option Features.Image))
    (files : string -> Py.result Scoring.yaml) (root : string)
    (content_type : option string) (contents : list Byte.byte)
    (content : Api.AssessResponse) :
  Api.assess u cv imdecode files root content_type contents =
    Api.JSONResponse content ->
  allowed_type content_type /\ Z.of_nat (length contents) <= 5242880 /\
  (exists image scorer sig,
     Api._decode_image imdecode contents = Some image /\
     Scoring.__init__ u (files (weights_file root)) = Py.Ok scorer /\
     Features.extract cv image = Py.Ok sig /\
     content = Api.AssessResponse_of (Scoring.score scorer sig None)) /\
  map Api.name (Api.signals content) = Scoring._visual_signal_names /\
  contains Scoring.no_symptoms_sentence (Api.explanation content).
Proof.
  intros H.
  destruct (assess_cases u cv imdecode files root content_type contents)
    as [(_ & Heq) | [(_ & _ & Heq) | [(_ & _ & _ & Heq)
        | (Ha & Hlen & image & Hdec)]]];
    try (rewrite Heq in H; discriminate H).
  rewrite (assess_accepted u cv imdecode files root _ _ image Ha Hlen Hdec) in H.
  destruct (Scoring.__init__ u (files (weights_file root))) as [scorer|e] eqn:Hinit;
    [ | discriminate H ].
  destruct (Features.extract cv image) as [sig|e] eqn:Hex; [ | discriminate H ].
  cbv zeta in H.
  destruct (Api.json_compliant _); [ | discriminate H ].
  injection H as <-.
  split; [ exact Ha | ]. split; [ exact Hlen | ]. split.
  - exists image, scorer, sig. repeat split; assumption.
  - split; [ apply names_of_result | ].
    cbn [Api.AssessResponse_of Api.explanation]. apply explanation_without_symptoms.
Qed.

Lemma assess_response_is_the_symptomless_score_witness :
  exists content,
    Api.assess basic_unicode (toy_cv false) toy_imdecode toy_files "/srv" (Some "image/png")
      [Byte.x89] = Api.JSONResponse content /\
    map Api.name (Api.signals content) = Scoring._visual_signal_names.
Proof.
  assert (H : Api.assess basic_unicode (toy_cv false) toy_imdecode toy_files "/srv"
                (Some "image/png") [Byte.x89] =
              Api.JSONResponse (Api.AssessResponse_of
                (Scoring.score (scorer_of [("bias", f0_5)])
                   {| periwound_redness := f0_0; exudate_proxy := f0_25;
                      dark_tissue_proxy := f0_25; swelling_proxy := f0_0 |}
                   None))).
  { vm_compute. reflexivity. }
  eexists. split; [ exact H | ].
  exact (proj1 (proj2 (proj2 (proj2
    (assess_response_is_the_symptomless_score basic_unicode (toy_cv false) toy_imdecode
       toy_files "/srv" (Some "image/png") [Byte.x89] _ H))))).
Defined.

(** X11.  An exception other than [HTTPException] leaves [assess] only for
    an upload that passed the three checks, and then in three ways: building
    the scorer from the weight file fails, which happens anew at every
    request; or [grabCut] raises something other than [cv2.error]; or the
    result holds a float that is not-a-number or infinite (the score, or
    the value or weight of a signal), at which the rendering of the
    response raises [ValueError].  The stub's [NotImplementedError] never
    leaves [assess]. *)
Theorem assess_unhandled_failures (u : Py.Unicode) (cv : Features.OpenCV)
    (imdecode : list Byte.byte -> Py.result (option Features.Image))
    (files : string -> Py.result Scoring.yaml) (root : string)
    (content_type : option string) (contents : list Byte.byte)
    (e : Registry.exn) :
  Api.assess u cv imdecode files root content_type contents = Api.Unhandled e <->
  allowed_type content_type /\ Z.of_nat (length contents) <= 5242880 /\
  exists image,
    Api._decode_image imdecode contents = Some image /\
    ((exists e', e = Registry.Builtin e' /\
        Scoring.__init__ u (files (weights_file root)) = Py.Raise e') \/
     (exists e', e = Registry.Builtin e' /\
        Py.is_ok (Scoring.__init__ u (files (weights_file root))) = true /\
        Features.grabCut cv image (Features.rect_of image) 5 = Py.Raise e' /\
        e' <> Py.cv2_error) \/
     (exists scorer sig,
        e = Registry.Builtin Py.ValueError /\
        Scoring.__init__ u (files (weights_file root)) = Py.Ok scorer /\
        Features.extract cv image = Py.Ok sig /\
        let r := Scoring.score scorer sig None in
        (is_finite (Scoring.risk_score r) = false \/
         Exists (fun d => is_finite (Scoring.value d) = false \/
                          is_finite (Scoring.weight d) = false)
           (Scoring.signals r)))).
Proof.
  destruct (assess_cases u cv imdecode files root content_type contents)
    as [(Hna & Heq) | [(Ha & Hlen & Heq) | [(Ha & Hlen & Hdec & Heq)
        | (Ha & Hlen & image & Hdec)]]].
  - rewrite Heq. split; [ discriminate | ]. intros (Ha & _). contradiction.
  - rewrite Heq. split; [ discriminate | ]. intros (_ & Hle & _). lia.
  - rewrite Heq. split; [ discriminate | ].
    intros (_ & _ & image & Hdec' & _). congruence.
  - rewrite (assess_accepted u cv imdecode files root _ _ image Ha Hlen Hdec).
    pose proof (extract_raise_iff cv image) as Hex.
    destruct (Scoring.__init__ u (files (weights_file root))) as [scorer|e0].
    + destruct (Features.extract cv image) as [sig|e1] eqn:Hext.
      * cbv zeta.
        pose proof (json_compliant_spec (Scoring.score scorer sig None)) as Hj.
        destruct (Api.json_compliant _).
        -- split; [ discriminate | ].
           intros (_ & _ & image' & Hdec' & [(e' & _ & Hinit) | [(e' & _ & _ & Hg & Hne)
                    | (scorer' & sig' & _ & Hinit & Hext' & Hbad)]]).
           ++ discriminate Hinit.
           ++ assert (image' = image) by congruence. subst image'.
              pose proof (proj2 (Hex e') (conj Hg Hne)) as Hc. congruence.
           ++ assert (image' = image) by congruence. subst image'.
              injection Hinit as <-. rewrite Hext in Hext'. injection Hext' as <-.
              apply Hj in Hbad. discriminate Hbad.
        -- split.
           ++ intros H. injection H as <-.
              split; [ exact Ha | ]. split; [ exact Hlen | ].
              exists image. split; [ exact Hdec | ]. right. right.
              exists scorer, sig. split; [ reflexivity | ]. split; [ reflexivity | ].
              split; [ exact Hext | ]. cbv zeta. apply Hj. reflexivity.
           ++ intros (_ & _ & image' & Hdec' & [(e' & _ & Hinit) | [(e' & _ & _ & Hg & Hne)
                    | (scorer' & sig' & -> & _)]]).
              ** discriminate Hinit.
              ** assert (image' = image) by congruence. subst image'.
                 pose proof (proj2 (Hex e') (conj Hg Hne)) as Hc. congruence.
              ** reflexivity.
      * split.
        -- intros H. injection H as <-.
           split; [ exact Ha | ]. split; [ exact Hlen | ].
           exists image. split; [ exact Hdec | ]. right. left.
           exists e1. split; [ reflexivity | ]. split; [ reflexivity | ].
           apply Hex. reflexivity.
        -- intros (_ & _ & image' & Hdec' & [(e' & _ & Hinit) | [(e' & -> & _ & Hg & Hne)
                 | (scorer' & sig' & _ & _ & Hext' & _)]]).
           ++ discriminate Hinit.
           ++ assert (image' = image) by congruence. subst image'.
              pose proof (proj2 (Hex e') (conj Hg Hne)) as Hc.
              injection Hc as ->. reflexivity.
           ++ assert (image' = image) by congruence. subst image'. congruence.
    + split.
      * intros H. injection H as <-.
        split; [ exact Ha | ]. split; [ exact Hlen | ].
        exists image. split; [ exact Hdec | ]. left.
        exists e0. split; reflexivity.
      * intros (_ & _ & image' & _ & [(e' & -> & Hinit) | [(e' & _ & Hok & _)
               | (scorer' & sig' & _ & Hinit & _)]]).
        -- injection Hinit as ->. reflexivity.
        -- discriminate Hok.
        -- discriminate Hinit.
Qed.

(** With no readable weight file an undecodable upload is still answered
    with status 400, and a decodable one fails with [OSError]; with a weight
    file that says [bias: .nan] the score is not-a-number and the rendering
    of the response fails. *)
Example missing_weight_file :
  Api.assess basic_unicode (toy_cv false) toy_imdecode no_files "/srv"
    (Some "image/png") [] =
    Api.HTTPException 400 "Unable to decode image." /\
  Api.assess basic_unicode (toy_cv false) toy_imdecode no_files "/srv"
    (Some "image/png") [Byte.x89] = Api.Unhandled (Registry.Builtin Py.OSError) /\
  Api.assess basic_unicode (toy_cv false) toy_imdecode nan_bias_files "/srv"
    (Some "image/png") [Byte.x89] = Api.Unhandled (Registry.Builtin Py.ValueError).
Proof. repeat split; vm_compute; reflexivity. Qed.

(* ===================================================================== *)
(** ** The address lookup *)
(* ===================================================================== *)

Section Address.

Lemma except_OSError_cases (block : Py.result string) :
  (exists ip, block = Py.Ok ip /\ Network.except_OSError block = Py.Ok (Some ip)) \/
  (block = Py.Raise Py.OSError /\ Network.except_OSError block = Py.Ok None) \/
  (exists e, block = Py.Raise e /\ e <> Py.OSError /\
             Network.except_OSError block = Py.Raise e).
Proof.
  destruct block as [ip|e].
  - left. exists ip. split; reflexivity.
  - destruct e; first [ right; left; split; reflexivity
                      | right; right; eexists; repeat split; discriminate ].
Qed.

Lemma get_lan_ip_usable (ip : string) (lookup : Py.result string) :
  Network.unusable (Some ip) = false ->
  Network.get_lan_ip (Py.Ok ip) lookup = Py.Ok ip.
Proof.
  intros Hu. unfold Network.get_lan_ip. cbn [Network.except_OSError Py.bind].
  rewrite Hu. cbn [Py.bind].
  cbn [Network.unusable] in Hu. apply orb_false_elim in Hu as [Hne _].
  rewrite Hne. reflexivity.
Qed.

Lemma get_lan_ip_unusable (probe lookup : Py.result string) :
  probe_unusable probe ->
  Network.get_lan_ip probe lookup =
  Py.bind (Network.except_OSError lookup) (fun ip =>
    Py.Ok match ip with
          | Some s => if String.eqb s "" then "127.0.0.1" else s
          | None => "127.0.0.1"
          end).
Proof.
  intros [-> | (ip & -> & Hu)]; unfold Network.get_lan_ip;
    cbn [Network.except_OSError Py.bind].
  - reflexivity.
  - rewrite Hu. reflexivity.
Qed.

Lemma probe_cases (probe : Py.result string) :
  (exists ip, probe = Py.Ok ip /\ Network.unusable (Some ip) = false) \/
  probe_unusable probe \/
  (exists e, probe = Py.Raise e /\ e <> Py.OSError).
Proof.
  destruct probe as [ip|e].
  - destruct (Network.unusable (Some ip)) eqn:Hu.
    + right. left. right. exists ip. split; [ reflexivity | exact Hu ].
    + left. exists ip. split; [ reflexivity | exact Hu ].
  - destruct e; first [ right; left; left; reflexivity
                      | right; right; eexists; split; [ reflexivity | discriminate ] ].
Qed.

End Address.

(** X12.  [get_lan_ip] never returns the empty string.  An address from the
    socket block that is neither empty nor starts with 127. is returned as
    it is, and the host name is not looked up.  Otherwise the answer is the
    address that the host name resolves to, loopback or not, and 127.0.0.1
    when that lookup fails with [OSError] or gives the empty string; a
    loopback address from the socket block is dropped.  The function raises
    only what is not an [OSError]: from the socket block, or from the lookup
    when it comes to it. *)
Theorem get_lan_ip_answers (probe lookup : Py.result string) :
  Network.get_lan_ip probe lookup <> Py.Ok "" /\
  (forall ip, probe = Py.Ok ip -> Network.unusable (Some ip) = false ->
     Network.get_lan_ip probe lookup = Py.Ok ip) /\
  (probe_unusable probe ->
     (forall s, lookup = Py.Ok s -> s <> "" ->
        Network.get_lan_ip probe lookup = Py.Ok s) /\
     (lookup = Py.Ok "" \/ lookup = Py.Raise Py.OSError ->
        Network.get_lan_ip probe lookup = Py.Ok "127.0.0.1")) /\
  (forall e, Network.get_lan_ip probe lookup = Py.Raise e <->
     e <> Py.OSError /\
     (probe = Py.Raise e \/ (probe_unusable probe /\ lookup = Py.Raise e))).
Proof.
  assert (Hun : probe_unusable probe ->
    (forall s, lookup = Py.Ok s -> s <> "" ->
       Network.get_lan_ip probe lookup = Py.Ok s) /\
    (lookup = Py.Ok "" \/ lookup = Py.Raise Py.OSError ->
       Network.get_lan_ip probe lookup = Py.Ok "127.0.0.1")).
  { intros Hp. rewrite (get_lan_ip_unusable probe lookup Hp). split.
    - intros s -> Hs. cbn [Network.except_OSError Py.bind].
      destruct (String.eqb_spec s ""); [ contradiction | reflexivity ].
    - intros [-> | ->]; reflexivity. }
  split; [ | split; [ | split; [ exact Hun | ] ] ].
  - destruct (probe_cases probe) as [(ip & -> & Hu) | [Hp | (e & -> & Hne)]].
    + rewrite (get_lan_ip_usable ip lookup Hu). intros H. injection H as ->.
      discriminate Hu.
    + rewrite (get_lan_ip_unusable probe lookup Hp).
      destruct (except_OSError_cases lookup)
        as [(s & _ & ->) | [(_ & ->) | (e & _ & _ & ->)]]; cbn [Py.bind];
        try discriminate.
      destruct (String.eqb_spec s ""); [ discriminate | congruence ].
    + unfold Network.get_lan_ip. destruct e; try contradiction; discriminate.
  - intros ip -> Hu. apply get_lan_ip_usable, Hu.
  - intros e.
    destruct (probe_cases probe) as [(ip & -> & Hu) | [Hp | (e0 & -> & Hne)]].
    + rewrite (get_lan_ip_usable ip lookup Hu). split; [ discriminate | ].
      intros (_ & [H | ([H | (ip' & H & Hu')] & _)]); try discriminate H.
      injection H as <-. congruence.
    + rewrite (get_lan_ip_unusable probe lookup Hp).
      destruct (except_OSError_cases lookup)
        as [(s & -> & ->) | [(-> & ->) | (e1 & -> & Hne & ->)]]; cbn [Py.bind].
      * split; [ discriminate | ].
        intros (Hne & [H | (_ & H)]); [ | discriminate H ].
        destruct Hp as [Hp | (ip & Hp & _)]; congruence.
      * split; [ discriminate | ].
        intros (Hne & [H | (_ & H)]); [ | congruence ].
        destruct Hp as [Hp | (ip & Hp & _)]; congruence.
      * split.
        -- intros H. injection H as <-. split; [ exact Hne | ].
           right. split; [ exact Hp | reflexivity ].
        -- intros (Hne' & [H | (_ & H)]); [ | congruence ].
           destruct Hp as [Hp | (ip & Hp & _)]; congruence.
    + assert (Hg : Network.get_lan_ip (Py.Raise e0) lookup = Py.Raise e0).
      { unfold Network.get_lan_ip. destruct e0; try contradiction; reflexivity. }
      rewrite Hg. split.
      * intros H. injection H as <-. split; [ exact Hne | left; reflexivity ].
      * intros (_ & [H | ([H | (ip & H & _)] & _)]); congruence.
Qed.

Lemma get_lan_ip_answers_witness :
  Network.unusable (Some "192.168.1.20") = false /\
  Network.get_lan_ip (Py.Ok "192.168.1.20") (Py.Ok "127.0.1.1") =
    Py.Ok "192.168.1.20" /\
  probe_unusable (Py.Ok "127.0.0.53") /\
  Network.get_lan_ip (Py.Ok "127.0.0.53") (Py.Ok "127.0.1.1") = Py.Ok "127.0.1.1" /\
  Network.get_lan_ip (Py.Ok "127.0.0.53") (Py.Raise Py.OSError) = Py.Ok "127.0.0.1".
Proof.
  assert (Hu : Network.unusable (Some "192.168.1.20") = false) by reflexivity.
  assert (Hp : probe_unusable (Py.Ok "127.0.0.53")).
  { right. exists "127.0.0.53". split; reflexivity. }
  split; [ exact Hu | ]. split.
  - exact (proj1 (proj2 (get_lan_ip_answers (Py.Ok "192.168.1.20")
                           (Py.Ok "127.0.1.1"))) "192.168.1.20" eq_refl Hu).
  - split; [ exact Hp | ]. split.
    + apply (proj1 (proj1 (proj2 (proj2 (get_lan_ip_answers (Py.Ok "127.0.0.53")
                                           (Py.Ok "127.0.1.1")))) Hp) "127.0.1.1").
      * reflexivity.
      * discriminate.
    + apply (proj2 (proj1 (proj2 (proj2 (get_lan_ip_answers (Py.Ok "127.0.0.53")
                                           (Py.Raise Py.OSError)))) Hp)).
      right. reflexivity.
Defined.

(* ===================================================================== *)
(** ** The intensity printed in a note *)
(* ===================================================================== *)

Section Intensity.

Lemma round_half_even_le (num den bound : Z) :
  0 < den -> 0 <= num <= bound * den ->
  0 <= Py.round_half_even num den <= bound.
Proof.
  intros Hden Hnum. unfold Py.round_half_even.
  pose proof (Z.div_mod num den ltac:(lia)) as Hdm.
  pose proof (Z.mod_pos_bound num den Hden) as Hr.
  set (q := num / den) in *. set (r := num mod den) in *.
  assert (Hq0 : 0 <= q) by nia.
  assert (Hqb : q <= bound) by nia.
  destruct (Z.compare_spec (2 * r) den) as [Heq|Hlt|Hgt].
  - destruct (Z.even q); [ lia | ].
    assert (q < bound) by nia. lia.
  - lia.
  - assert (q < bound) by nia. lia.
Qed.

Lemma val_f1_0 : val f1_0 = 2 ^ 1074.
Proof. rewrite f1_0_eq. reflexivity. Qed.

Lemma hundredths_in_range (m : positive) (e : Z) :
  valid (S754_finite false m e) = true ->
  fle (S754_finite false m e) f1_0 = true ->
  0 <= Py.hundredths m e <= 100.
Proof.
  intros Hv Hle.
  pose proof (fle_val _ _ Hv f1_0_valid eq_refl eq_refl Hle) as Hval.
  rewrite val_f1_0 in Hval. cbn [val] in Hval.
  destruct (valid_finite_inv false m e Hv) as [He _].
  assert (Hlo : -1074 <= e) by lia.
  assert (Hm : Zpos m * 2 ^ (e + 1074) <= 2 ^ 1074) by lia.
  unfold Py.hundredths. destruct e as [|p|k].
  - rewrite Z.add_0_l in Hm.
    assert (0 < 2 ^ 1074) by (apply Z.pow_pos_nonneg; lia).
    assert (Zpos m = 1) by nia. rewrite H0. cbn. lia.
  - assert (H2 : 2 ^ (Zpos p + 1074) = 2 ^ Zpos p * 2 ^ 1074)
      by (apply Z.pow_add_r; lia).
    rewrite H2 in Hm.
    assert (0 < 2 ^ 1074) by (apply Z.pow_pos_nonneg; lia).
    assert (2 <= 2 ^ Zpos p).
    { change 2 with (2 ^ 1) at 1. apply Z.pow_le_mono_r; lia. }
    nia.
  - assert (H2 : 2 ^ 1074 = 2 ^ Zpos k * 2 ^ (Zneg k + 1074)).
    { rewrite <- Z.pow_add_r by lia. f_equal. lia. }
    rewrite H2 in Hm.
    assert (0 < 2 ^ (Zneg k + 1074)) by (apply Z.pow_pos_nonneg; lia).
    assert (0 < 2 ^ Zpos k) by (apply Z.pow_pos_nonneg; lia).
    apply round_half_even_le; [ assumption | nia ].
Qed.

Lemma hundredths_text_table :
  forallb (fun k => d_dd (hundredths_text (Z.of_nat k))) (seq 0 101) = true.
Proof. vm_compute. reflexivity. Qed.

Lemma hundredths_text_d_dd (n : Z) :
  0 <= n <= 100 -> d_dd (hundredths_text n) = true.
Proof.
  intros Hn. pose proof hundredths_text_table as Ht.
  rewrite forallb_forall in Ht.
  specialize (Ht (Z.to_nat n)). rewrite Z2Nat.id in Ht by lia.
  apply Ht. apply in_seq. lia.
Qed.

Lemma format_2f_in_range (v : float) :
  valid v = true -> fle f0_0 v = true -> fle v f1_0 = true ->
  v <> S754_zero true -> d_dd (Py.format_2f v) = true.
Proof.
  intros Hv H0 H1 Hnz. destruct v as [s|s| |s m e]; try discriminate.
  - destruct s; [ contradiction | reflexivity ].
  - destruct s; [ discriminate | discriminate ].
  - destruct s; [ discriminate | ].
    cbn [Py.format_2f]. cbv zeta.
    apply (hundredths_text_d_dd (Py.hundredths m e)).
    apply hundredths_in_range; assumption.
Qed.

End Intensity.
Section QuotientForm.

(** The quotient of two normal numbers, the first no larger than the
    second, is a positive normal number with an exponent from -105 to -52. *)
Lemma fdiv_normal_form (mx my : positive) (ex ey : Z) :
  2 ^ 52 <= Zpos mx < 2 ^ 53 -> 2 ^ 52 <= Zpos my < 2 ^ 53 ->
  -52 <= ex <= 0 -> -52 <= ey <= 0 ->
  ex < ey \/ (ex = ey /\ Zpos mx <= Zpos my) ->
  exists p E,
    fdiv (S754_finite false mx ex) (S754_finite false my ey) =
      S754_finite false p E /\
    2 ^ 52 <= Zpos p < 2 ^ 53 /\ -105 <= E <= -52.
Proof.
  intros Hmx Hmy Hex Hey Hord.
  unfold fdiv, SFdiv, SFdiv_core_binary. cbn [Zdigits2 xorb].
  rewrite (digits_normal mx Hmx), (digits_normal my Hmy).
  replace (Z.min (fexp prec emax (53 + ex - (53 + ey))) (ex - ey))
    with (ex - ey - 53) by (rewrite fexp_eq; lia).
  replace (ex - ey - (ex - ey - 53)) with 53 by lia.
  rewrite Z.shiftl_mul_pow2 by lia.
  pose proof (Z_div_mod (Zpos mx * 2 ^ 53) (Zpos my) ltac:(lia)) as Hdm.
  destruct (Z.div_eucl (Zpos mx * 2 ^ 53) (Zpos my)) as [q r].
  destruct Hdm as [Hq Hr].
  set (e' := ex - ey - 53).
  assert (Hqlo : 2 ^ 52 <= q).
  { assert (Zpos my * 2 ^ 52 < Zpos my * (q + 1)) by lia.
    assert (2 ^ 52 < q + 1) by (apply (Z.mul_lt_mono_pos_l (Zpos my)); lia). lia. }
  assert (Hqhi : q < 2 ^ 54).
  { assert (Zpos my * q < Zpos my * 2 ^ 54).
    { change (2 ^ 54) with (2 * 2 ^ 53). change (2 ^ 52) with 4503599627370496 in *.
      change (2 ^ 53) with 9007199254740992 in *. nia. }
    apply (Z.mul_lt_mono_pos_l (Zpos my)); lia. }
  destruct q as [|pq|pq]; try (change (2 ^ 52) with 4503599627370496 in Hqlo; lia).
  set (c := loc_code (new_location (Zpos my) r)).
  assert (Hc : 0 <= c < 4) by (unfold c; destruct (new_location _ _) as [|[]]; cbn; lia).
  set (d := Zpos (digits2_pos pq)).
  assert (Hd : d = 53 \/ d = 54).
  { destruct (Z.lt_ge_cases (Zpos pq) (2 ^ 53)) as [Hlt|Hge].
    - left. apply digits_unique. lia.
    - right. apply digits_unique. change (54 - 1) with 53. lia. }
  assert (Hn : fexp prec emax (d + e') - e' = d - 53).
  { rewrite fexp_eq. unfold e'. lia. }
  rewrite binary_round_aux_spec by (fold d; rewrite Hn; lia).
  fold d c. rewrite Hn.
  set (q1 := rne (4 * Zpos pq + c) (d - 53 + 2)).
  set (E := e' + (d - 53)).
  assert (Hdiv : (4 * Zpos pq + c) / 2 ^ (d - 53 + 2) = Zpos pq / 2 ^ (d - 53)).
  { replace (d - 53 + 2) with (2 + (d - 53)) by lia.
    rewrite (Z.pow_add_r 2 2 (d - 53)) by lia.
    rewrite <- Z.div_div by (try apply pow2_pos; lia).
    f_equal. change (2 ^ 2) with 4. symmetry.
    apply Z.div_unique with (r := c); lia. }
  pose proof (rne_bounds (4 * Zpos pq + c) (d - 53 + 2)) as Hb.
  fold q1 in Hb. rewrite Hdiv in Hb.
  pose proof (digits_bounds pq) as [Hdlo Hdhi]. fold d in Hdlo, Hdhi.
  assert (Hq1 : 2 ^ 52 <= q1 <= 2 ^ 53).
  { destruct Hd as [Hd|Hd]; rewrite Hd in *.
    - change (2 ^ (53 - 53)) with 1 in Hb. rewrite Z.div_1_r in Hb.
      change (53 - 1) with 52 in Hdlo. lia.
    - change (2 ^ (54 - 53)) with 2 in Hb.
      change (2 ^ (54 - 1)) with (2 ^ 52 * 2) in Hdlo.
      change (2 ^ 54) with (2 ^ 53 * 2) in Hdhi.
      assert (2 ^ 52 <= Zpos pq / 2) by (apply Z.div_le_lower_bound; lia).
      assert (Zpos pq / 2 < 2 ^ 53) by (apply Z.div_lt_upper_bound; lia).
      lia. }
  assert (HE : E <= -53 \/ (E = -52 /\ q1 = 2 ^ 52)).
  { destruct Hord as [Hlt | [Heq Hle]].
    - left. unfold E, e'. lia.
    - destruct (Z.eq_dec (Zpos mx) (Zpos my)) as [Hsame|Hdiff].
      + right.
        assert (Hq53 : Zpos pq = 2 ^ 53 /\ r = 0).
        { rewrite Hsame in Hq.
          assert (Zpos my * (2 ^ 53 - Zpos pq) = r) by lia.
          assert (2 ^ 53 - Zpos pq = 0) by nia. lia. }
        destruct Hq53 as [Hq53 Hr0].
        assert (d = 54) by (apply digits_unique; rewrite Hq53; change (54 - 1) with 53; lia).
        split; [ unfold E, e'; lia | ].
        unfold q1, c. rewrite Hr0, new_location_zero. cbn [loc_code].
        replace (d - 53 + 2) with 3 by lia. rewrite Hq53.
        replace (4 * 2 ^ 53 + 0) with (2 ^ 52 * 2 ^ 3) by reflexivity.
        apply rne_exact. lia.
      + left.
        assert (Zpos pq < 2 ^ 53).
        { assert (Zpos my * Zpos pq < Zpos my * 2 ^ 53) by nia.
          apply (Z.mul_lt_mono_pos_l (Zpos my)); lia. }
        assert (d = 53) by (apply digits_unique; lia).
        unfold E, e'. lia. }
  assert (HElo : -105 <= E) by (unfold E, e'; lia).
  unfold assemble, fin_or_inf.
  change (2 ^ 52) with 4503599627370496 in *.
  change (2 ^ 53) with 9007199254740992 in *.
  destruct q1 as [|p1|p1]; try lia.
  destruct (Z.eqb_spec (Zpos p1) 9007199254740992) as [Htop|Hntop].
  - destruct (Z.leb_spec (E + 1) 971); [ | lia ].
    exists 4503599627370496%positive, (E + 1).
    split; [ reflexivity | ]. split; [ lia | ].
    destruct HE as [|[_ Hq1eq]]; [ lia | lia ].
  - destruct (Z.leb_spec E 971); [ | lia ].
    exists p1, E. split; [ reflexivity | ]. split; [ lia | ].
    destruct HE as [|[HEeq _]]; lia.
Qed.

End QuotientForm.

Section FractionFloats.
Import Features.

Lemma valid_normal (s : bool) (p : positive) (E : Z) :
  2 ^ 52 <= Zpos p < 2 ^ 53 -> -1074 <= E <= 971 ->
  valid (S754_finite s p E) = true.
Proof.
  intros Hp HE. unfold valid, valid_binary, bounded, canonical_mantissa.
  rewrite fexp_eq, (digits_normal p Hp). change (emax - prec) with 971.
  apply andb_true_intro. split; [ apply Z.eqb_eq | apply Z.leb_le ]; lia.
Qed.

Lemma fraction_float_valid (v : float) : fraction_float v -> valid v = true.
Proof.
  intros [-> | (p & E & -> & Hp & HE)]; [ reflexivity | ].
  apply valid_normal; [ exact Hp | lia ].
Qed.

Lemma fraction_float_not_negative_zero (v : float) :
  fraction_float v -> v <> S754_zero true.
Proof. intros [-> | (p & E & -> & _)]; discriminate. Qed.

Lemma mean_fraction_float (cells : list bool) :
  (0 < length cells)%nat -> Z.of_nat (length cells) < 2 ^ 53 ->
  fraction_float (mean cells).
Proof.
  intros Hpos Hsmall. unfold mean.
  pose proof (List.filter_length_le id cells) as Hle.
  set (k := Z.of_nat (length (List.filter id cells))) in *.
  set (n := Z.of_nat (length cells)) in *.
  assert (Hkn : 0 <= k <= n) by lia.
  assert (Hn : 0 < n) by lia.
  destruct n as [|pn|pn]; try lia.
  destruct (of_Z_small pn Hsmall) as (mn & -> & Hmn & Hbn).
  destruct k as [|pk|pk]; try lia.
  - left. reflexivity.
  - right.
    assert (Hpk : Zpos pk < 2 ^ 53) by lia.
    destruct (of_Z_small pk Hpk) as (mk & -> & Hmk & Hbk).
    pose proof (digits_mono pk pn ltac:(lia)) as Hd.
    pose proof (digits_le pn 53 ltac:(lia) Hsmall).
    pose proof (digits_bounds pk) as [_ _].
    assert (1 <= Zpos (digits2_pos pk)) by lia.
    apply fdiv_normal_form; try assumption; try lia.
    destruct (Z.eq_dec (Zpos (digits2_pos pk)) (Zpos (digits2_pos pn))) as [He|Hne].
    + right. split; [ lia | ].
      rewrite Hmk, Hmn, He.
      apply Z.mul_le_mono_nonneg_r; [ apply Z.pow_nonneg; lia | lia ].
    + left. lia.
Qed.

Lemma region_fraction_float (marked : ndarray bool) (mask : ndarray Z) :
  same_shape marked mask -> ncells mask < 2 ^ 53 ->
  fraction_float (region_fraction marked mask).
Proof.
  intros Hshape Hsmall. unfold region_fraction.
  destruct (Z.eqb_spec (count_true (astype_bool mask)) 0) as [Hz|Hnz].
  - left. reflexivity.
  - assert (Hsh : same_shape (astype_bool mask) marked).
    { eapply same_shape_trans; [ apply same_shape_amap | apply same_shape_sym, Hshape ]. }
    pose proof (select_length (astype_bool mask) marked Hsh) as Hlen.
    pose proof (count_true_le (astype_bool mask)) as Hle.
    rewrite (ncells_same_shape (astype_bool mask) mask (same_shape_amap _ _)) in Hle.
    assert (0 <= count_true (astype_bool mask)) by (unfold count_true; lia).
    apply mean_fraction_float; lia.
Qed.

Variable cv : OpenCV.
Hypothesis cv_shapes : shape_preserving cv.

Lemma extract_fraction_floats (img : Image) (sig : FeatureSignals) :
  ncells img < 2 ^ 53 -> extract cv img = Py.Ok sig ->
  Forall fraction_float
    [ periwound_redness sig; exudate_proxy sig;
      dark_tissue_proxy sig; swelling_proxy sig ].
Proof.
  intros Hsmall Hex. unfold extract in Hex.
  destruct (_segment_wound cv img) as [w|e] eqn:Hseg; cbn [Py.bind] in Hex;
    [ | discriminate Hex ].
  injection Hex as <-. cbn [periwound_redness exudate_proxy dark_tissue_proxy swelling_proxy].
  pose proof (segment_wound_shape cv cv_shapes img w Hseg) as Hw.
  pose proof (periwound_ring_shape cv cv_shapes w 18) as Hring.
  assert (Hwn : ncells w < 2 ^ 53) by (rewrite (ncells_same_shape w img Hw); exact Hsmall).
  assert (Hrn : ncells (_periwound_ring cv w 18) < 2 ^ 53)
    by (rewrite (ncells_same_shape _ w Hring); exact Hwn).
  assert (Hhsv : forall B (f : Z * Z * Z -> B),
            same_shape (amap f (cvtColor_BGR2HSV cv img)) img).
  { intros B f. eapply same_shape_trans; [ apply same_shape_amap | ].
    apply (hsv_shape cv cv_shapes). }
  assert (Hedges : forall B (f : Z -> B),
            same_shape (amap f (Canny cv (cvtColor_BGR2GRAY cv img) 60 120)) img).
  { intros B f. eapply same_shape_trans; [ apply same_shape_amap | ].
    eapply same_shape_trans; [ apply (canny_shape cv cv_shapes) | ].
    apply (gray_shape cv cv_shapes). }
  assert (Himg_w : same_shape img w) by (apply same_shape_sym, Hw).
  assert (Himg_r : same_shape img (_periwound_ring cv w 18)).
  { eapply same_shape_trans; [ exact Himg_w | apply same_shape_sym, Hring ]. }
  repeat (apply Forall_cons; split; [ | ]); try apply Forall_nil; try exact I.
  - apply region_fraction_float; [ | exact Hrn ].
    eapply same_shape_trans; [ apply Hhsv | exact Himg_r ].
  - apply region_fraction_float; [ | exact Hwn ].
    eapply same_shape_trans; [ apply Hhsv | exact Himg_w ].
  - apply region_fraction_float; [ | exact Hwn ].
    eapply same_shape_trans; [ apply Hhsv | exact Himg_w ].
  - apply region_fraction_float; [ | exact Hrn ].
    eapply same_shape_trans; [ apply Hedges | exact Himg_r ].
Qed.

End FractionFloats.

(** X13.  For a value that is a valid float between 0.0 and 1.0 and not the
    negative zero, the note of a signal is the descriptive text of the
    signal, then the words Signal intensity, then the value as a text of
    four characters, 0.00 to 0.99 or 1.00, then a full stop. *)
Theorem in_range_intensity_prints_as_d_dd (name : string) (v : float) :
  valid v = true -> fle f0_0 v = true -> fle v f1_0 = true ->
  v <> S754_zero true ->
  exists text,
    d_dd text = true /\
    Scoring._signal_note name v =
      descriptive_text name +:+ " Signal intensity: " +:+ text +:+ ".".
Proof.
  intros Hv H0 H1 Hnz. exists (Py.format_2f v).
  split; [ apply format_2f_in_range; assumption | reflexivity ].
Qed.

Lemma in_range_intensity_prints_as_d_dd_witness :
  exists text,
    d_dd text = true /\
    Scoring._signal_note "exudate_proxy" f0_25 =
      "Yellow/green coloration can be a proxy for exudate-like appearance."
      +:+ " Signal intensity: " +:+ text +:+ ".".
Proof.
  apply (in_range_intensity_prints_as_d_dd "exudate_proxy" f0_25).
  - vm_compute. reflexivity.
  - vm_compute. reflexivity.
  - vm_compute. reflexivity.
  - discriminate.
Defined.

(** The negative zero lies between 0.0 and 1.0 for the comparisons, and
    prints with a sign. *)
Example negative_zero_prints_with_a_sign :
  fle f0_0 (S754_zero true) = true /\ fle (S754_zero true) f1_0 = true /\
  Py.format_2f (S754_zero true) = "-0.00".
Proof. repeat split. Qed.

(** X14.  The signals of a result predicted from an image of fewer than
    2^53 pixels, with shape-preserving image routines, are valid floats
    between 0.0 and 1.0, never the negative zero, and each note shows its
    signal's intensity as 0.00 to 0.99 or 1.00. *)
Theorem predicted_signals_are_fractions_printed_as_d_dd
    (cv : Features.OpenCV) (scorer : Scoring.RiskScorer)
    (img : Features.Image) (r : Scoring.RiskResult) :
  shape_preserving cv -> ncells img < 2 ^ 53 ->
  Features.predict cv scorer img = Py.Ok r ->
  Forall (fun d =>
            valid (Scoring.value d) = true /\
            fle f0_0 (Scoring.value d) = true /\
            fle (Scoring.value d) f1_0 = true /\
            Scoring.value d <> S754_zero true /\
            exists text,
              d_dd text = true /\
              Scoring.note d =
                descriptive_text (Scoring.name d) +:+ " Signal intensity: "
                  +:+ text +:+ ".")
    (Scoring.signals r).
Proof.
  intros Hcv Hsmall Hp. unfold Features.predict in Hp.
  destruct (Features.extract cv img) as [sig|e] eqn:Hex; [ | discriminate Hp ].
  cbn [Py.bind] in Hp. injection Hp as <-.
  rewrite score_signals, accumulate_spec. cbn [snd].
  pose proof (extract_fraction_floats cv Hcv img sig Hsmall Hex) as Hff.
  pose proof (extract_bounds cv Hcv img sig Hsmall Hex) as Hb.
  assert (Hone : forall n v, fraction_float v ->
            fle f0_0 v = true /\ fle v f1_0 = true ->
            let d := spec_detail scorer (n, v) in
            valid (Scoring.value d) = true /\
            fle f0_0 (Scoring.value d) = true /\
            fle (Scoring.value d) f1_0 = true /\
            Scoring.value d <> S754_zero true /\
            exists text,
              d_dd text = true /\
              Scoring.note d =
                descriptive_text (Scoring.name d) +:+ " Signal intensity: "
                  +:+ text +:+ ".").
  { intros n v Hf [H0 H1]. cbv zeta. cbn [spec_detail Scoring.value Scoring.name
      Scoring.note fst snd].
    pose proof (fraction_float_valid v Hf) as Hv.
    pose proof (fraction_float_not_negative_zero v Hf) as Hnz.
    repeat (split; [ assumption | ]).
    exists (Py.format_2f v).
    split; [ apply format_2f_in_range; assumption | reflexivity ]. }
  unfold scored_items. rewrite app_nil_r.
  cbn [signals_as_dict map].
  inversion_clear Hff as [|? ? F1 Hff1]. inversion_clear Hff1 as [|? ? F2 Hff2].
  inversion_clear Hff2 as [|? ? F3 Hff3]. inversion_clear Hff3 as [|? ? F4 _].
  inversion_clear Hb as [|? ? B1 Hb1]. inversion_clear Hb1 as [|? ? B2 Hb2].
  inversion_clear Hb2 as [|? ? B3 Hb3]. inversion_clear Hb3 as [|? ? B4 _].
  constructor; [ exact (Hone "periwound_redness" _ F1 B1) | ].
  constructor; [ exact (Hone "exudate_proxy" _ F2 B2) | ].
  constructor; [ exact (Hone "dark_tissue_proxy" _ F3 B3) | ].
  constructor; [ exact (Hone "swelling_proxy" _ F4 B4) | ].
  constructor.
Qed.

Lemma predicted_signals_are_fractions_printed_as_d_dd_witness :
  shape_preserving (toy_cv false) /\
  Forall (fun d => valid (Scoring.value d) = true)
    (Scoring.signals
       (Scoring.score bias5_scorer
          {| periwound_redness := f0_0; exudate_proxy := f0_25;
             dark_tissue_proxy := f0_25; swelling_proxy := f0_0 |} None)).
Proof.
  assert (Hn : ncells toy_image < 2 ^ 53) by (vm_compute; reflexivity).
  assert (Hp : Features.predict (toy_cv false) bias5_scorer toy_image =
               Py.Ok (Scoring.score bias5_scorer
                 {| periwound_redness := f0_0; exudate_proxy := f0_25;
                    dark_tissue_proxy := f0_25; swelling_proxy := f0_0 |} None)).
  { vm_compute. reflexivity. }
  split; [ apply toy_cv_shapes | ].
  eapply Forall_impl;
    [ exact (predicted_signals_are_fractions_printed_as_d_dd (toy_cv false)
               bias5_scorer toy_image _ (toy_cv_shapes false) Hn Hp)
    | intros d H; exact (proj1 H) ].
Defined.

(* ===================================================================== *)
(** ** Raising one symptom flag (C5) *)
(* ===================================================================== *)

Section OneFlag.
Import Scoring.

Lemma raise_flag_as_dict (flag : string) (sy : SymptomInputs) :
  symptoms_as_dict (raise_flag flag sy) =
  map (fun '(n, v) => (n, if String.eqb flag n then f1_0 else v))
    (symptoms_as_dict sy).
Proof.
  unfold symptoms_as_dict, raise_flag.
  cbn [map reported_pain reported_warmth reported_swelling reported_drainage
       reported_spreading_redness].
  repeat f_equal;
    match goal with
    | |- Py.float_of_flag (?b || ?e) = _ =>
        destruct b; cbn [orb Py.float_of_flag];
          [ destruct (String.eqb _ _); reflexivity
          | destruct (String.eqb _ _); reflexivity ]
    end.
Qed.

Lemma raise_flag_le (flag : string) (sy : SymptomInputs) :
  flags_le sy (raise_flag flag sy).
Proof.
  unfold flags_le, raise_flag.
  cbn [reported_pain reported_warmth reported_swelling reported_drainage
       reported_spreading_redness].
  repeat split; intros ->; reflexivity.
Qed.

End OneFlag.

(** C5.  For a weight table whose five symptom weights are at least 0.0,
    fixed signals and any symptom record, raising one flag changes one value
    of the symptom dictionary from 0.0 to 1.0 and leaves the others, and the
    risk score with the flag raised is never less than the score without:
    the comparison "less than" fails, and when both scores are numbers the
    first is at most the second.  (Weights and signals are well-formed
    binary64 data, as every Python float is.) *)
Theorem raising_one_flag_never_decreases_score (self : Scoring.RiskScorer)
    (sig : FeatureSignals) (sy : Scoring.SymptomInputs) (flag : string) :
  Forall (fun k => valid (Scoring.weights_get self k) = true) relevant_keys ->
  Forall (fun v => valid v = true)
    [ periwound_redness sig; exudate_proxy sig;
      dark_tissue_proxy sig; swelling_proxy sig ] ->
  Forall (fun k => fle f0_0 (Scoring.weights_get self k) = true)
    Scoring._symptom_signal_names ->
  let old := Scoring.risk_score (Scoring.score self sig (Some sy)) in
  let new :=
    Scoring.risk_score (Scoring.score self sig (Some (raise_flag flag sy))) in
  Scoring.symptoms_as_dict (raise_flag flag sy) =
    map (fun '(n, v) => (n, if String.eqb flag n then f1_0 else v))
      (Scoring.symptoms_as_dict sy) /\
  flt new old = false /\
  (is_nan old = false -> is_nan new = false -> fle old new = true).
Proof.
  intros Hvw Hvs Hnn. cbv zeta. split; [ apply raise_flag_as_dict | ].
  rewrite !score_risk_score.
  apply clamp_no_worse. apply accumulate_no_worse; try assumption.
  apply raise_flag_le.
Qed.

Lemma raising_one_flag_never_decreases_score_witness :
  Scoring.risk_score (Scoring.score drainage_scorer zero_signals (Some no_symptoms)) = f0_0 /\
  Scoring.risk_score
    (Scoring.score drainage_scorer zero_signals
       (Some (raise_flag "reported_drainage" no_symptoms))) = f0_4 /\
  flt (Scoring.risk_score
         (Scoring.score drainage_scorer zero_signals
            (Some (raise_flag "reported_drainage" no_symptoms))))
      (Scoring.risk_score (Scoring.score drainage_scorer zero_signals (Some no_symptoms)))
  = false.
Proof.
  split; [ vm_compute; reflexivity | ]. split; [ vm_compute; reflexivity | ].
  apply (proj1 (proj2 (raising_one_flag_never_decreases_score drainage_scorer
           zero_signals no_symptoms "reported_drainage"
           ltac:(repeat (apply Forall_cons; split; [ vm_compute; reflexivity | ]);
                 constructor)
           ltac:(repeat (apply Forall_cons; split; [ vm_compute; reflexivity | ]);
                 constructor)
           ltac:(repeat (apply Forall_cons; split; [ vm_compute; reflexivity | ]);
                 constructor)))).
Defined.
